(** * seqkit [bam] toolbox: a shallow embedding of [cmd/bam_toolbox.go]

    The development follows the Go file top-down: the values the code
    manipulates (Go [int], [float64], SAM records, the YAML document, files
    and channels), then the functions [GetSamMapped], [GetSamAlnDetails],
    [GetSamAcc], the two stages [BamToolAlnContext] and [BamToolAccStats],
    the boundary adapters and the orchestrator [BamToolbox]; the theorems
    come after all definitions. *)

From Stdlib Require Import ZArith Lia Bool.
From Stdlib Require Import PrimFloat SpecFloat FloatOps FloatAxioms.
From Stdlib Require Uint63.
From stdpp Require Import gmap strings list sorting pretty.

Set Warnings "-register-all".

Local Open Scope string_scope.
Local Open Scope list_scope.
Local Open Scope Z_scope.

(* ===================================================================== *)
(** ** Outcomes of fallible code *)
(* ===================================================================== *)

(** [checkError], [log.Fatal] and [panic] all end the process; the message
    is what the code passes to them. *)
Inductive Outcome (A : Type) : Type :=
  | Ok (a : A)
  | Abort (msg : string).
Arguments Ok {A} a.
Arguments Abort {A} msg.

Definition is_ok {A} (o : Outcome A) : bool :=
  match o with Ok _ => true | Abort _ => false end.

(* ===================================================================== *)
(** ** Go machine integers and [float64] *)
(* ===================================================================== *)

Module GoInt.
(** Go's [int] on the 64-bit targets seqkit is built for: two's
    complement, arithmetic wraps around silently. *)
Definition min_int : Z := - 2 ^ 63.
Definition max_int : Z := 2 ^ 63 - 1.

Definition wrap (z : Z) : Z := (z + 2 ^ 63) mod 2 ^ 64 - 2 ^ 63.

Definition add (a b : Z) : Z := wrap (a + b).

Definition in_range (z : Z) : Prop := min_int <= z <= max_int.
End GoInt.

Module GoFloat.
(** [float64] is IEEE 754 binary64, which is what Rocq's primitive
    floats are.  The conversion [float64(n)] of an [int] rounds to the
    nearest representable value, ties to even. *)
Definition of_int (z : Z) : float :=
  SF2Prim (binary_normalize prec emax z 0 false).

(** [x++] on a [float64] variable. *)
Definition incr (x : float) : float := (x + 1)%float.

(** A [float64] counter after [n] steps from [0.0]. *)
Definition count (n : nat) : float := Nat.iter n incr 0%float.
End GoFloat.

(** The binary64 format as [SpecFloat] describes it: the rounded value of
    an integer, a mantissa shifted left, the number of its bits. *)
Module Binary64.
Definition normal (z : Z) : spec_float := binary_normalize prec emax z 0 false.
Definition shl (k : positive) (j : nat) : positive := Nat.iter j xO k.
Definition dig (k : positive) : Z := Zpos (digits2_pos k).
End Binary64.

(* ===================================================================== *)
(** ** SAM records, as far as the toolbox looks at them *)
(* ===================================================================== *)

(** [sam.CigarOpType]. *)
Inductive CigarOpType : Type :=
  | CigarMatch | CigarInsertion | CigarDeletion | CigarSkipped
  | CigarSoftClipped | CigarHardClipped | CigarPadded
  | CigarEqual | CigarMismatch | CigarBack.

(** [sam.CigarOp]: the code only calls [Type()] and [Len()]. *)
Record CigarOp : Type := mkCigarOp {
  op_Type : CigarOpType;
  op_Len : Z
}.

(** A CIGAR operation stores its length in 28 bits. *)
Definition cigar_op_wf (op : CigarOp) : Prop := 0 <= op_Len op < 2 ^ 28.

(** The dynamic type of [aux.Value()], an [interface{}]: the ten integer
    types the type switch lists, and the others a tag can hold. *)
Inductive AuxValue : Type :=
  | VInt (v : Z) | VInt8 (v : Z) | VInt16 (v : Z) | VInt32 (v : Z)
  | VInt64 (v : Z)
  | VUint (v : Z) | VUint8 (v : Z) | VUint16 (v : Z) | VUint32 (v : Z)
  | VUint64 (v : Z)
  | VFloat32 (v : float)
  | VString (s : string)
  | VBytes (s : string).

(** Each dynamic type holds values of its own range. *)
Definition aux_value_wf (a : AuxValue) : Prop :=
  match a with
  | VInt v | VInt64 v => - 2 ^ 63 <= v < 2 ^ 63
  | VInt8 v => - 2 ^ 7 <= v < 2 ^ 7
  | VInt16 v => - 2 ^ 15 <= v < 2 ^ 15
  | VInt32 v => - 2 ^ 31 <= v < 2 ^ 31
  | VUint v | VUint64 v => 0 <= v < 2 ^ 64
  | VUint8 v => 0 <= v < 2 ^ 8
  | VUint16 v => 0 <= v < 2 ^ 16
  | VUint32 v => 0 <= v < 2 ^ 32
  | VFloat32 _ | VString _ | VBytes _ => True
  end.

(** [sam.Flags] bit for an unmapped read. *)
Definition Unmapped : Z := 4.

(** [sam.Record]. *)
Record SamRecord : Type := mkSamRecord {
  QName : string;
  RefName : string;          (* r.Ref.Name() *)
  Pos : Z;
  MapQ : Z;
  Cigar : list CigarOp;
  Flags : Z;                 (* uint16 *)
  Seq : string;
  Qual : string;
  AuxFields : list (string * AuxValue)
}.

(** [r.Tag(tag)]: the first auxiliary field carrying the tag. *)
Fixpoint Tag (tag : string) (aux : list (string * AuxValue)) : option AuxValue :=
  match aux with
  | [] => None
  | (t, v) :: rest => if String.eqb t tag then Some v else Tag tag rest
  end.

(* ===================================================================== *)
(** ** Alignment details and accuracy *)
(* ===================================================================== *)

Record AlnDetails : Type := mkAlnDetails {
  Mismatch : Z;
  MatchMismatch : Z;
  Insertion : Z;
  Deletion : Z;
  Skip : Z;
  Len : Z;
  Acc : float;
  WAcc : float
}.

(** The type switch on [aux.Value().(type)]: every integer case converts
    with [int(...)]; the [default] case panics. *)
Definition nm_to_int (a : AuxValue) : option Z :=
  match a with
  | VInt v => Some (GoInt.wrap v)
  | VInt8 v => Some (GoInt.wrap v)
  | VInt16 v => Some (GoInt.wrap v)
  | VInt32 v => Some (GoInt.wrap v)
  | VInt64 v => Some (GoInt.wrap v)
  | VUint v => Some (GoInt.wrap v)
  | VUint8 v => Some (GoInt.wrap v)
  | VUint16 v => Some (GoInt.wrap v)
  | VUint32 v => Some (GoInt.wrap v)
  | VUint64 v => Some (GoInt.wrap v)
  | VFloat32 _ | VString _ | VBytes _ => None
  end.

(** The four counters of the loop over [r.Cigar]. *)
Record CigarCounts : Type := mkCigarCounts {
  c_mm : Z; c_ins : Z; c_del : Z; c_skip : Z
}.

Definition cigar_step (c : CigarCounts) (op : CigarOp) : CigarCounts :=
  match op_Type op with
  | CigarMatch | CigarEqual | CigarMismatch =>
      mkCigarCounts (GoInt.add (c_mm c) (op_Len op)) (c_ins c) (c_del c) (c_skip c)
  | CigarInsertion =>
      mkCigarCounts (c_mm c) (GoInt.add (c_ins c) (op_Len op)) (c_del c) (c_skip c)
  | CigarDeletion =>
      mkCigarCounts (c_mm c) (c_ins c) (GoInt.add (c_del c) (op_Len op)) (c_skip c)
  | CigarSkipped =>
      mkCigarCounts (c_mm c) (c_ins c) (c_del c) (GoInt.add (c_skip c) (op_Len op))
  | _ => c
  end.

Definition cigar_loop (cigar : list CigarOp) : CigarCounts :=
  fold_left cigar_step cigar (mkCigarCounts 0 0 0 0).

(** [mm + ins + del] in Go [int] arithmetic. *)
Definition aligned_len (c : CigarCounts) : Z :=
  GoInt.add (GoInt.add (c_mm c) (c_ins c)) (c_del c).

Definition GetSamAlnDetails (r : SamRecord) : Outcome AlnDetails :=
  match Tag "NM" (AuxFields r) with
  | None => Abort "no NM tag"
  | Some aux =>
      match nm_to_int aux with
      | None => Abort "Could not parse NM tag"
      | Some mismatch =>
          let c := cigar_loop (Cigar r) in
          let len := aligned_len c in
          let acc :=
            ((1 - GoFloat.of_int mismatch / GoFloat.of_int (aligned_len c)) * 100)%float in
          Ok {| Mismatch := mismatch;
                MatchMismatch := c_mm c;
                Insertion := c_ins c;
                Deletion := c_del c;
                Skip := c_skip c;
                Len := len;
                Acc := acc;
                WAcc := (acc * GoFloat.of_int len)%float |}
      end
  end.

Definition GetSamMapped (r : SamRecord) : bool :=
  Z.land (Flags r) Unmapped =? 0.

(** [GetSamAcc] repeats the tag decoding and the CIGAR loop with local
    variables of its own. *)
Definition acc_step (st : Z * Z * Z * Z) (op : CigarOp) : Z * Z * Z * Z :=
  let '(mm, ins, del, skip) := st in
  match op_Type op with
  | CigarMatch | CigarEqual | CigarMismatch => (GoInt.add mm (op_Len op), ins, del, skip)
  | CigarInsertion => (mm, GoInt.add ins (op_Len op), del, skip)
  | CigarDeletion => (mm, ins, GoInt.add del (op_Len op), skip)
  | CigarSkipped => (mm, ins, del, GoInt.add skip (op_Len op))
  | _ => (mm, ins, del, skip)
  end.

Definition GetSamAcc (r : SamRecord) : Outcome float :=
  match Tag "NM" (AuxFields r) with
  | None => Abort "no NM tag"
  | Some aux =>
      match aux with
      | VInt v | VInt8 v | VInt16 v | VInt32 v | VInt64 v
      | VUint v | VUint8 v | VUint16 v | VUint32 v | VUint64 v =>
          let mismatch := GoInt.wrap v in
          let '(mm, ins, del, _) := fold_left acc_step (Cigar r) (0, 0, 0, 0) in
          Ok ((1 - GoFloat.of_int mismatch
                   / GoFloat.of_int (GoInt.add (GoInt.add mm ins) del)) * 100)%float
      | _ => Abort "Could not parse NM tag"
      end
  end.

(* ===================================================================== *)
(** ** A state monad whose state survives an abort *)
(* ===================================================================== *)

(** The code threads the outside world (files, output channel, started
    goroutines) through every call and may end the process at any point;
    what was done before the abort stays done. *)
Definition M (S A : Type) : Type := S -> Outcome A * S.

Definition ret {S A} (a : A) : M S A := fun s => (Ok a, s).

Definition bind {S A B} (c : M S A) (k : A -> M S B) : M S B :=
  fun s =>
    match c s with
    | (Ok a, s') => k a s'
    | (Abort msg, s') => (Abort msg, s')
    end.

Definition fatal {S A} (msg : string) : M S A := fun s => (Abort msg, s).

Definition gets {S A} (f : S -> A) : M S A := fun s => (Ok (f s), s).

Definition modify {S} (f : S -> S) : M S unit := fun s => (Ok tt, f s).

(** Modelled from the spec: [checkError] lives in another file of the
    package; an error aborts the process at once with a diagnostic, no
    error lets the run go on.  It is applied here to the error half of a
    Go result pair. *)
Definition checkError {S A} (o : Outcome A) : M S A :=
  match o with
  | Ok a => ret a
  | Abort msg => fatal msg
  end.

Declare Scope go_scope.
Delimit Scope go_scope with go.
Notation "x <- c ;; k" := (bind c (fun x => k))
  (at level 100, c at next level, right associativity) : go_scope.
Notation "c ;;; k" := (bind c (fun _ => k))
  (at level 100, right associativity) : go_scope.
Local Open Scope go_scope.

(* ===================================================================== *)
(** ** The YAML document (library [simpleyaml]) *)
(* ===================================================================== *)

(** A parsed document.  A mapping is kept as the list of its entries; the
    order of that list stands for the order in which [GetMapKeys] reports
    the keys. *)
Inductive YamlNode : Type :=
  | YNull
  | YStr (s : string)
  | YInt (n : Z)
  | YBool (b : bool)
  | YMap (entries : list (string * YamlNode)).

Fixpoint assoc {A} (k : string) (l : list (string * A)) : option A :=
  match l with
  | [] => None
  | (k', v) :: rest => if String.eqb k' k then Some v else assoc k rest
  end.

Module Y.
(** [y.Get(key)]: a missing key, or a node that is no mapping, gives a
    node holding nothing. *)
Definition Get (key : string) (y : YamlNode) : YamlNode :=
  match y with
  | YMap entries => match assoc key entries with Some v => v | None => YNull end
  | _ => YNull
  end.

Definition String (y : YamlNode) : Outcome string :=
  match y with YStr s => Ok s | _ => Abort "type assertion to string failed" end.

Definition Int (y : YamlNode) : Outcome Z :=
  match y with YInt n => Ok n | _ => Abort "type assertion to int failed" end.

Definition Bool (y : YamlNode) : Outcome bool :=
  match y with YBool b => Ok b | _ => Abort "type assertion to bool failed" end.

Definition GetMapKeys (y : YamlNode) : Outcome (list string) :=
  match y with
  | YMap entries => Ok (map fst entries)
  | _ => Abort "type assertion to map[string]interface{} failed"
  end.
End Y.

(* ===================================================================== *)
(** ** Files *)
(* ===================================================================== *)

Definition tab : string := String (Ascii.ascii_of_nat 9) "".
Definition nl : string := String (Ascii.ascii_of_nat 10) "".

Record FileSys : Type := mkFileSys {
  fs_files : gmap string string;      (* existing files and their contents *)
  fs_uncreatable : gset string;       (* paths on which os.Create fails *)
  fs_stdin : string;
  fs_stdout : string;
  fs_stderr : string;
  fs_log : list string                (* lines given to the logger *)
}.

Inductive StdStream : Type := Stdin | Stdout | Stderr.

(** [*os.File]. *)
Inductive File : Type :=
  | FNil                                        (* a nil handle *)
  | FStd (s : StdStream)
  | FOpen (path : string) (writable : bool).

Module os.
(** [os.Open] opens for reading only. *)
Definition Open (path : string) (fs : FileSys) : File * Outcome unit :=
  match fs_files fs !! path with
  | Some _ => (FOpen path false, Ok tt)
  | None => (FNil, Abort ("open " +:+ path +:+ ": no such file or directory"))
  end.

(** [os.Create] creates or truncates, and opens for reading and writing. *)
Definition Create (path : string) (fs : FileSys) : (File * Outcome unit) * FileSys :=
  if decide (path ∈ fs_uncreatable fs) then
    ((FNil, Abort ("open " +:+ path +:+ ": cannot create")), fs)
  else
    ((FOpen path true, Ok tt),
     mkFileSys (<[path := ""]> (fs_files fs)) (fs_uncreatable fs)
               (fs_stdin fs) (fs_stdout fs) (fs_stderr fs) (fs_log fs)).

(** [f.Write] and [f.WriteString]: the bytes reach the file only through
    a handle that is open for writing; otherwise the call returns an
    error and leaves everything as it was. *)
Definition WriteString (f : File) (s : string) (fs : FileSys) : Outcome unit * FileSys :=
  match f with
  | FNil => (Abort "invalid argument", fs)
  | FStd Stdin => (Abort "write /dev/stdin: bad file descriptor", fs)
  | FStd Stdout =>
      (Ok tt, mkFileSys (fs_files fs) (fs_uncreatable fs) (fs_stdin fs)
                        (fs_stdout fs +:+ s) (fs_stderr fs) (fs_log fs))
  | FStd Stderr =>
      (Ok tt, mkFileSys (fs_files fs) (fs_uncreatable fs) (fs_stdin fs)
                        (fs_stdout fs) (fs_stderr fs +:+ s) (fs_log fs))
  | FOpen path false => (Abort ("write " +:+ path +:+ ": bad file descriptor"), fs)
  | FOpen path true =>
      match fs_files fs !! path with
      | Some old =>
          (Ok tt, mkFileSys (<[path := old +:+ s]> (fs_files fs)) (fs_uncreatable fs)
                            (fs_stdin fs) (fs_stdout fs) (fs_stderr fs) (fs_log fs))
      | None => (Ok tt, fs)                   (* the file was unlinked *)
      end
  end.

Definition ReadFile (path : string) (fs : FileSys) : Outcome string :=
  match fs_files fs !! path with
  | Some c => Ok c
  | None => Abort ("open " +:+ path +:+ ": no such file or directory")
  end.
End os.

(** Modelled from the spec: [fileNotExists] lives in another file of the
    package; the sidecar index is built "if absent". *)
Definition fileNotExists (path : string) (fs : FileSys) : bool :=
  match fs_files fs !! path with Some _ => false | None => true end.

Definition log_Infof (line : string) (fs : FileSys) : FileSys :=
  mkFileSys (fs_files fs) (fs_uncreatable fs) (fs_stdin fs) (fs_stdout fs)
            (fs_stderr fs) (fs_log fs ++ [line]).

(* ===================================================================== *)
(** ** One stage seen from inside: its input stream and what it emits *)
(* ===================================================================== *)

(** A stage drains [p.InChan], a closed finite stream given as a list, and
    sends on [p.OutChan]; [so_out] is what it has sent so far, in order,
    and [so_locals] holds the local variables its loop updates. *)
Record StageState (L : Type) : Type := mkStageState {
  so_fs : FileSys;
  so_out : list SamRecord;
  so_closed : bool;
  so_locals : L
}.
Arguments mkStageState {L}.
Arguments so_fs {L}.
Arguments so_out {L}.
Arguments so_closed {L}.
Arguments so_locals {L}.

Definition send {L} (r : SamRecord) : M (StageState L) unit :=
  modify (fun s => mkStageState (so_fs s) (so_out s ++ [r]) (so_closed s) (so_locals s)).

Definition close_out {L} : M (StageState L) unit :=
  modify (fun s => mkStageState (so_fs s) (so_out s) true (so_locals s)).

Definition update_locals {L} (f : L -> L) : M (StageState L) unit :=
  modify (fun s => mkStageState (so_fs s) (so_out s) (so_closed s) (f (so_locals s))).

Definition with_fs {L A} (f : FileSys -> A * FileSys) : M (StageState L) A :=
  fun s => let '(a, fs') := f (so_fs s) in
           (Ok a, mkStageState fs' (so_out s) (so_closed s) (so_locals s)).

Definition stage_start {L} (fs : FileSys) (l : L) : StageState L :=
  mkStageState fs [] false l.

(** [for r := range ch { body }] over the records still to come. *)
Fixpoint range_chan {S} (body : SamRecord -> M S unit) (input : list SamRecord) : M S unit :=
  match input with
  | [] => ret tt
  | r :: rest => body r ;;; range_chan body rest
  end.

(* ===================================================================== *)
(** ** Stage [AccStats] *)
(* ===================================================================== *)

(** The local variables of [BamToolAccStats]. *)
Record AccLocals : Type := mkAccLocals {
  totalLen : Z;
  accSum : float;
  wAccSum : float;
  nr : float
}.

Definition acc_init : AccLocals := mkAccLocals 0 0%float 0%float 0%float.

Definition acc_add (a : AccLocals) (info : AlnDetails) : AccLocals :=
  {| totalLen := GoInt.add (totalLen a) (Len info);
     wAccSum := (wAccSum a + WAcc info)%float;
     accSum := (accSum a + Acc info)%float;
     nr := GoFloat.incr (nr a) |}.

(** The body of the loop over [p.InChan]. *)
Definition acc_stats_body (r : SamRecord) : M (StageState AccLocals) unit :=
  (if GetSamMapped r then
     info <- checkError (GetSamAlnDetails r) ;;
     update_locals (fun a => acc_add a info)
   else ret tt) ;;;
  send r.

Definition WeightedAcc (a : AccLocals) : float :=
  (wAccSum a / GoFloat.of_int (totalLen a))%float.

Definition MeanAcc (a : AccLocals) : float :=
  (accSum a / nr a)%float.

Section AccStats.
(** [fmt.Sprintf] with the verb [%.3f], from the Go library. *)
Variable Sprintf_3f : float -> string.

Definition summary_header : string :=
  "AccMean" +:+ tab +:+ "WeightedAccMean" +:+ nl.

Definition summary_line (a : AccLocals) : string :=
  Sprintf_3f (MeanAcc a) +:+ tab +:+ Sprintf_3f (WeightedAcc a) +:+ nl.

Definition BamToolAccStats (yaml : YamlNode) (input : list SamRecord)
  : M (StageState AccLocals) unit :=
  tsvFile <- checkError (Y.String (Y.Get "Tsv" yaml)) ;;
  tsvFh <- (if negb (String.eqb tsvFile "-")
            then with_fs (fun fs => let '((fh, err), fs') := os.Create tsvFile fs in
                                    (fh, fs'))     (* err is not looked at *)
            else ret (FStd Stderr)) ;;
  range_chan acc_stats_body input ;;;
  a <- gets so_locals ;;
  with_fs (os.WriteString tsvFh summary_header) ;;;
  with_fs (os.WriteString tsvFh (summary_line a)) ;;;
  close_out.

(** A run of the stage on a closed input stream. *)
Definition run_AccStats (yaml : YamlNode) (input : list SamRecord) (fs : FileSys)
  : Outcome unit * StageState AccLocals :=
  BamToolAccStats yaml input (stage_start fs acc_init).
End AccStats.

(* ===================================================================== *)
(** ** Stage [AlnContext] *)
(* ===================================================================== *)

Section AlnContext.
(** Package [regexp]. *)
Variable Regexp : Type.
Variable MustCompile : string -> Outcome Regexp.     (* panics on a bad pattern *)
Variable MatchString : Regexp -> string -> bool.

(** Package [fai]: building, reading and querying the index. *)
Variable Index : Type.
Variable Faidx : Type.
Variable fai_Create : string -> Outcome (Index * string).  (* FASTA text to index and sidecar text *)
Variable fai_Read : string -> Outcome Index.               (* sidecar text to index *)
Variable fai_NewWithIndex : string -> Index -> Outcome Faidx.
Variable SubSeq : Faidx -> string -> Z -> Z -> Outcome string.

(** [r.End()] of package [sam]. *)
Variable End : SamRecord -> Z.

Record RefWithFaidx : Type := mkRefWithFaidx {
  Fasta : string;
  IdxFile : string;
  idx_ : Index;
  faidx : Faidx;
  Cache : bool
}.

Definition IdxSubSeq (idx : RefWithFaidx) (chrom : string) (start end_ : Z)
  : Outcome string :=
  SubSeq (faidx idx) chrom start end_.

Definition NewRefWitdFaidx {L} (file : string) (cache quiet : bool)
  : M (StageState L) RefWithFaidx :=
  let fileFai := file +:+ ".seqkit.fai" in
  missing <- gets (fun s => fileNotExists fileFai (so_fs s)) ;;
  idx <- (if missing then
            (if negb quiet
             then with_fs (fun fs => (tt, log_Infof ("create FASTA index for " +:+ file) fs))
             else ret tt) ;;;
            fasta <- (text <- gets (fun s => os.ReadFile file (so_fs s)) ;; checkError text) ;;
            created <- checkError (fai_Create fasta) ;;
            with_fs (fun fs =>
              (tt, mkFileSys (<[fileFai := snd created]> (fs_files fs)) (fs_uncreatable fs)
                             (fs_stdin fs) (fs_stdout fs) (fs_stderr fs) (fs_log fs))) ;;;
            ret (fst created)
          else
            text <- gets (fun s => os.ReadFile fileFai (so_fs s)) ;;
            sidecar <- checkError text ;;
            checkError (fai_Read sidecar)) ;;
  text <- gets (fun s => os.ReadFile file (so_fs s)) ;;
  fasta <- checkError text ;;
  fx <- checkError (fai_NewWithIndex fasta idx) ;;
  ret (mkRefWithFaidx file fileFai idx fx cache).

(** One of the two tests of the loop body: [Ok true] when the pattern is
    set and matches the fetched flank, [Ok false] when the pattern is
    unset (nothing is fetched) or does not match. *)
Definition flank_matches (idx : RefWithFaidx) (reg : option Regexp)
    (chrom : string) (pos leftShift rightShift : Z) : Outcome bool :=
  match reg with
  | None => Ok false
  | Some re =>
      match IdxSubSeq idx chrom (GoInt.add pos leftShift) (GoInt.add pos rightShift) with
      | Abort msg => Abort msg
      | Ok flank => Ok (MatchString re flank)
      end
  end.

(** The body of the loop over [p.InChan]; [continue] skips the send. *)
Definition aln_context_body (idx : RefWithFaidx) (regStart regEnd : option Regexp)
    (leftShift rightShift : Z) (r : SamRecord) : M (StageState unit) unit :=
  let chrom := RefName r in
  let startPos := Pos r in
  let endPos := End r in
  hitStart <- checkError (flank_matches idx regStart chrom startPos leftShift rightShift) ;;
  if hitStart : bool then ret tt
  else
    hitEnd <- checkError (flank_matches idx regEnd chrom endPos leftShift rightShift) ;;
    if hitEnd : bool then ret tt
    else send r.

(** [regStart] stays nil unless the key holds a string. *)
Definition optional_regexp (y : YamlNode) : M (StageState unit) (option Regexp) :=
  match Y.String y with
  | Ok pat => re <- checkError (MustCompile pat) ;; ret (Some re)
  | Abort _ => ret None
  end.

Definition BamToolAlnContext (yaml : YamlNode) (silent : bool) (input : list SamRecord)
  : M (StageState unit) unit :=
  ref <- checkError (Y.String (Y.Get "Ref" yaml)) ;;
  leftShift <- checkError (Y.Int (Y.Get "LeftShift" yaml)) ;;
  rightShift <- checkError (Y.Int (Y.Get "RightShift" yaml)) ;;
  regStart <- optional_regexp (Y.Get "RegexStart" yaml) ;;
  regEnd <- optional_regexp (Y.Get "RegexEnd" yaml) ;;
  idx <- NewRefWitdFaidx ref false silent ;;
  range_chan (aln_context_body idx regStart regEnd leftShift rightShift) input ;;;
  close_out.

Definition run_AlnContext (yaml : YamlNode) (silent : bool) (input : list SamRecord)
    (fs : FileSys) : Outcome unit * StageState unit :=
  BamToolAlnContext yaml silent input (stage_start fs tt).

(** *** The filter as the specification words it *)

(** The sub-sequence of the window [pos+LeftShift, pos+RightShift) on
    the record's reference, as the index returns it. *)
Definition window_seq (idx : RefWithFaidx) (r : SamRecord)
    (pos leftShift rightShift : Z) : Outcome string :=
  IdxSubSeq idx (RefName r) (pos + leftShift) (pos + rightShift).

(** A side hits when its pattern is set and matches the window. *)
Definition side_hits (idx : RefWithFaidx) (reg : option Regexp) (r : SamRecord)
    (pos leftShift rightShift : Z) : bool :=
  match reg with
  | None => false
  | Some re =>
      match window_seq idx r pos leftShift rightShift with
      | Ok flank => MatchString re flank
      | Abort _ => false
      end
  end.

Definition dropped (idx : RefWithFaidx) (regStart regEnd : option Regexp)
    (leftShift rightShift : Z) (r : SamRecord) : bool :=
  side_hits idx regStart r (Pos r) leftShift rightShift
  || side_hits idx regEnd r (End r) leftShift rightShift.

Definition in_rangeb (z : Z) : bool := (GoInt.min_int <=? z) && (z <=? GoInt.max_int).

(** The window of a side lies in the range of [int], and the index
    returns a sequence for it if the side's pattern is set. *)
Definition side_ok (idx : RefWithFaidx) (reg : option Regexp) (r : SamRecord)
    (pos leftShift rightShift : Z) : bool :=
  in_rangeb (pos + leftShift) && in_rangeb (pos + rightShift)
  && match reg with
     | None => true
     | Some _ => is_ok (window_seq idx r pos leftShift rightShift)
     end.

Definition windows_ok (idx : RefWithFaidx) (regStart regEnd : option Regexp)
    (leftShift rightShift : Z) (r : SamRecord) : bool :=
  side_ok idx regStart r (Pos r) leftShift rightShift
  && side_ok idx regEnd r (End r) leftShift rightShift.

(** What a pattern key of the configuration leads to: nothing when the
    key holds no string, the compiled pattern otherwise. *)
Definition pattern_of (y : YamlNode) (reg : option Regexp) : Prop :=
  match Y.String y with
  | Ok pat => exists re, MustCompile pat = Ok re /\ reg = Some re
  | Abort _ => reg = None
  end.
End AlnContext.

Arguments RefWithFaidx : clear implicits.
Arguments mkRefWithFaidx {Index Faidx}.
Arguments faidx {Index Faidx}.
Arguments IdxSubSeq {Index Faidx} SubSeq idx chrom start end_.
Arguments NewRefWitdFaidx {Index Faidx} fai_Create fai_Read fai_NewWithIndex {L} file cache quiet.
Arguments flank_matches {Regexp} MatchString {Index Faidx} SubSeq idx reg chrom pos leftShift rightShift.
Arguments aln_context_body {Regexp} MatchString {Index Faidx} SubSeq End
  idx regStart regEnd leftShift rightShift r.
Arguments optional_regexp {Regexp} MustCompile y.
Arguments BamToolAlnContext {Regexp} MustCompile MatchString {Index Faidx}
  fai_Create fai_Read fai_NewWithIndex SubSeq End yaml silent input.
Arguments run_AlnContext {Regexp} MustCompile MatchString {Index Faidx}
  fai_Create fai_Read fai_NewWithIndex SubSeq End yaml silent input fs.
Arguments window_seq {Index Faidx} SubSeq idx r pos leftShift rightShift.
Arguments side_hits {Regexp} MatchString {Index Faidx} SubSeq idx reg r pos leftShift rightShift.
Arguments dropped {Regexp} MatchString {Index Faidx} SubSeq End
  idx regStart regEnd leftShift rightShift r.
Arguments side_ok {Regexp Index Faidx} SubSeq idx reg r pos leftShift rightShift.
Arguments windows_ok {Regexp Index Faidx} SubSeq End idx regStart regEnd leftShift rightShift r.
Arguments pattern_of {Regexp} MustCompile y reg.

(* ===================================================================== *)
(** ** Channels, goroutines and the tool shed *)
(* ===================================================================== *)

Inductive ElemType : Type := RecordElem | BoolElem.

(** What [make(chan T, n)] fixes for good. *)
Record ChanInfo : Type := mkChanInfo {
  ch_elem : ElemType;
  ch_cap : Z
}.

(** A channel value: [None] is the nil channel of a variable that was
    declared and never assigned, [Some i] the [i]-th channel made. *)
Definition chan : Type := option nat.

(** The functions a [BamTool] can hold in its [Use] field. *)
Inductive ToolFn : Type := UseAlnContext | UseAccStats | UseListTools.

Record BamTool : Type := mkBamTool {
  Name : string;
  Desc : string;
  Use : ToolFn
}.

Abbreviation Toolshed := (gmap string BamTool).

Record BamToolParams : Type := mkBamToolParams {
  Yaml : YamlNode;
  InChan : chan;
  OutChan : chan;
  Quiet : bool;
  Silent : bool;
  Threads : Z;
  Rank : Z;
  Shed : Toolshed
}.

Definition NewToolshed : Toolshed :=
  <["AlnContext" := mkBamTool "AlnContext"
      "filter records by the sequence context at start and end" UseAlnContext]>
  (<["AccStats" := mkBamTool "AccStats"
      "calculates mean accuracy weighted by aligment lengths" UseAccStats]>
  (<["help" := mkBamTool "help" "list all tools with description" UseListTools]> ∅)).

Section Toolbox.
(** Packages [simpleyaml] and [bam]: parsing the document and opening
    the container.  [bam.NewReader] gives back nil when it fails. *)
Variable NewYaml : string -> Outcome YamlNode.
Variable Header : Type.
Variable BamReader : Type.
Variable bam_NewReader : string -> option BamReader.
Variable reader_Header : BamReader -> Header.

(** The goroutines the code starts with [go]. *)
Inductive Task : Type :=
  | GoReader (r : option BamReader) (outChan : chan)
  | GoSink (outChan doneChan : chan)
  | GoWriter (fh : File) (head : Header) (outChan doneChan : chan)
  | GoTool (use : ToolFn) (params : BamToolParams).

Record World : Type := mkWorld {
  w_fs : FileSys;
  w_chans : list ChanInfo;      (* every channel made so far, oldest first *)
  w_tasks : list Task           (* every goroutine started so far, oldest first *)
}.

Definition make_chan (elem : ElemType) (cap : Z) : M World chan :=
  fun w => (Ok (Some (length (w_chans w))),
            mkWorld (w_fs w) (w_chans w ++ [mkChanInfo elem cap]) (w_tasks w)).

Definition go (t : Task) : M World unit :=
  modify (fun w => mkWorld (w_fs w) (w_chans w) (w_tasks w ++ [t])).

Definition NewBamReaderChan (inFile : string) (cp buff threads : Z)
  : M World (chan * option BamReader) :=
  outChan <- make_chan RecordElem cp ;;
  bytes <- (if negb (String.eqb inFile "-")
            then opened <- gets (fun w => os.Open inFile (w_fs w)) ;;
                 checkError (snd opened) ;;;
                 text <- gets (fun w => os.ReadFile inFile (w_fs w)) ;;
                 checkError text
            else gets (fun w => fs_stdin (w_fs w))) ;;
  let r := bam_NewReader bytes in          (* err is not looked at *)
  go (GoReader r outChan) ;;;
  ret (outChan, r).

Definition NewBamSinkChan (cp : Z) : M World (chan * chan) :=
  outChan <- make_chan RecordElem cp ;;
  doneChan <- make_chan BoolElem 0 ;;
  go (GoSink outChan doneChan) ;;;
  ret (outChan, doneChan).

Definition NewBamWriterChan (inFile : string) (head : Header) (cp buff threads : Z)
  : M World (chan * chan) :=
  outChan <- make_chan RecordElem buff ;;
  doneChan <- make_chan BoolElem 0 ;;
  fh <- (if negb (String.eqb inFile "-")
         then opened <- gets (fun w => os.Open inFile (w_fs w)) ;;
              checkError (snd opened) ;;;
              ret (fst opened)
         else ret (FStd Stdout)) ;;
  go (GoWriter fh head outChan doneChan) ;;;
  ret (outChan, doneChan).

Definition chanCap : Z := 5000.
Definition ioBuff : Z := 1024 * 128.

(** [paramFields]: the keys that name no tool. *)
Definition paramFields (k : string) : bool := String.eqb k "Sink".

Definition clearKeys (tkeys : list string) : list string :=
  List.filter (fun k => negb (paramFields k)) tkeys.

(** The loop [for rank, tool := range clearKeys]: [last] is
    [len(clearKeys) - 1], and [nextIn], [nextOut] are the two variables
    the loop carries from one round to the next. *)
Fixpoint launch_loop (y : YamlNode) (shed : Toolshed) (quiet silent : bool)
    (threads last : Z) (lastOut : chan)
    (rank : Z) (tools : list string) (nextIn nextOut : chan) : M World unit :=
  match tools with
  | [] => ret tt
  | tool :: rest =>
      match shed !! tool with
      | None => fatal ("Unknown tool:" +:+ tool)
      | Some wt =>
          let nextOut := if rank =? last then lastOut else nextOut in
          let params := {| Yaml := Y.Get tool y;
                           InChan := nextIn;
                           OutChan := nextOut;
                           Quiet := quiet;
                           Silent := silent;
                           Threads := threads;
                           Rank := rank;
                           Shed := shed |} in
          fresh <- make_chan RecordElem chanCap ;;
          go (GoTool (Use wt) params) ;;;
          launch_loop y shed quiet silent threads last lastOut
                      (rank + 1) rest nextOut fresh
      end
  end.

(** The head of [BamToolbox]: the document [y] the chain is built
    from, after the [help] shorthand and the [Yaml] indirection, and the
    keys [ty] of the document as first given. *)
Definition load_config (toolYaml : string) : M World (YamlNode * list string) :=
  let toolYaml := if String.eqb toolYaml "help" then "help: true" else toolYaml in
  y <- checkError (NewYaml toolYaml) ;;
  ty <- checkError (Y.GetMapKeys y) ;;
  ty0 <- match ty with
         | [] => fatal "index out of range [0] with length 0"
         | k :: _ => ret k
         end ;;
  y <- (if String.eqb ty0 "Yaml"
        then conf <- checkError (Y.String (Y.Get "Yaml" y)) ;;
             cb <- gets (fun w => os.ReadFile conf (w_fs w)) ;;
             cb <- checkError cb ;;
             checkError (NewYaml cb)
        else ret y) ;;
  ret (y, ty).

(** The block guarded by [tkeys[0] != "help"]: the reader and the
    terminal consumer.  The result is [inChan], [lastOut], [doneChan];
    when the block is skipped the three variables keep their nil. *)
Definition open_ends (y : YamlNode) (tkeys0 inFile outFile : string) (threads : Z)
  : M World (chan * chan * chan) :=
  if negb (String.eqb tkeys0 "help")
  then opened <- NewBamReaderChan inFile chanCap ioBuff threads ;;
       let '(inChan, bamReader) := opened in
       term <-
         match Y.Bool (Y.Get "Sink" y) with
         | Ok true => NewBamSinkChan chanCap
         | _ =>
             match bamReader with
             | None => fatal "invalid memory address or nil pointer dereference"
             | Some r =>
                 NewBamWriterChan outFile (reader_Header r) chanCap ioBuff threads
             end
         end ;;
       ret (inChan, fst term, snd term)
  else ret (None, None, None).

(** [BamToolbox] up to its last statement, the receive [<-doneChan]:
    the result is the channel the caller then blocks on. *)
Definition BamToolbox (toolYaml inFile outFile : string) (quiet silent : bool)
    (threads : Z) : M World chan :=
  cfg <- load_config toolYaml ;;
  let '(y, ty) := cfg in
  match length ty with
  | O => fatal "toolbox: not tool specified!"
  | _ =>
      tkeys <- checkError (Y.GetMapKeys y) ;;
      let shed := NewToolshed in
      tkeys0 <- match tkeys with
                | [] => fatal "index out of range [0] with length 0"
                | k :: _ => ret k
                end ;;
      ends <- open_ends y tkeys0 inFile outFile threads ;;
      let '(inChan, lastOut, doneChan) := ends in
      outChan <- make_chan RecordElem chanCap ;;
      let tools := clearKeys tkeys in
      launch_loop y shed quiet silent threads (Z.of_nat (length tools) - 1) lastOut
                  0 tools inChan outChan ;;;
      ret doneChan
  end.
End Toolbox.

Arguments Task : clear implicits.
Arguments World : clear implicits.
Arguments GoReader {Header BamReader} r outChan.
Arguments GoSink {Header BamReader} outChan doneChan.
Arguments GoWriter {Header BamReader} fh head outChan doneChan.
Arguments GoTool {Header BamReader} use params.
Arguments mkWorld {Header BamReader} w_fs w_chans w_tasks.
Arguments w_fs {Header BamReader} w.
Arguments w_chans {Header BamReader} w.
Arguments w_tasks {Header BamReader} w.
Arguments make_chan {Header BamReader} elem cap.
Arguments go {Header BamReader} t.
Arguments NewBamReaderChan {Header BamReader} bam_NewReader inFile cp buff threads.
Arguments NewBamSinkChan {Header BamReader} cp.
Arguments NewBamWriterChan {Header BamReader} inFile head cp buff threads.
Arguments launch_loop {Header BamReader} y shed quiet silent threads last lastOut
  rank tools nextIn nextOut.
Arguments load_config NewYaml {Header BamReader} toolYaml.
Arguments open_ends {Header BamReader} bam_NewReader reader_Header y tkeys0 inFile outFile threads.
Arguments BamToolbox NewYaml {Header BamReader} bam_NewReader reader_Header
  toolYaml inFile outFile quiet silent threads.

(** *** The chain as a list *)

(** The tool goroutines one pass of the loop starts for a list of known
    tools, written as a list: [fresh] is the number the next channel made
    will get. *)
Fixpoint chain (y : YamlNode) (shed : Toolshed) (quiet silent : bool)
    (threads last : Z) (lastOut : chan)
    (rank : Z) (tools : list string) (nextIn nextOut : chan) (fresh : nat)
  : list (ToolFn * BamToolParams) :=
  match tools with
  | [] => []
  | tool :: rest =>
      match shed !! tool with
      | None => []
      | Some wt =>
          let out := if rank =? last then lastOut else nextOut in
          (Use wt, mkBamToolParams (Y.Get tool y) nextIn out quiet silent threads rank shed)
          :: chain y shed quiet silent threads last lastOut
                   (rank + 1) rest out (Some fresh) (S fresh)
      end
  end.

Definition known (shed : Toolshed) (tool : string) : bool :=
  match shed !! tool with Some _ => true | None => false end.




(** The world after the tool goroutines [c] were started, each round
    having made one more channel of capacity [chanCap]. *)
Definition started {Header BamReader} (w : World Header BamReader)
    (c : list (ToolFn * BamToolParams)) : World Header BamReader :=
  mkWorld (w_fs w)
          (w_chans w ++ replicate (length c) (mkChanInfo RecordElem chanCap))
          (w_tasks w ++ map (fun up => GoTool (fst up) (snd up)) c).

(** The tool goroutines among the tasks of a world. *)
Definition tool_tasks {Header BamReader} (w : World Header BamReader)
  : list (ToolFn * BamToolParams) :=
  omap (fun t => match t with GoTool u p => Some (u, p) | _ => None end) (w_tasks w).

(* ===================================================================== *)
(** ** The writer goroutine *)
(* ===================================================================== *)

Section BamWriter.
(** Package [bam]: the encoder is a machine that pushes bytes into the
    writer underneath it when it is created, at every record and when it
    is closed.  [bam.NewWriter] and [w.Write] can also fail for reasons
    of their own, a header or a record that cannot be encoded: then they
    give an error and push nothing. *)
Variable Header : Type.
Variable Encoder : Type.
Variable enc_new : Header -> Outcome (Encoder * string).
Variable enc_write : Encoder -> SamRecord -> Outcome (Encoder * string).
Variable enc_close : Encoder -> string.

(** [bufio.Writer]: bytes wait in the buffer until it overflows or is
    flushed; after a failed write the error sticks. *)
Record Bufio : Type := mkBufio {
  b_wr : File;
  b_size : Z;
  b_buf : string;
  b_err : option string
}.

Definition bufio_Flush (b : Bufio) (fs : FileSys) : Bufio * FileSys :=
  match b_err b with
  | Some _ => (b, fs)
  | None =>
      if String.eqb (b_buf b) "" then (b, fs)
      else match os.WriteString (b_wr b) (b_buf b) fs with
           | (Ok _, fs') => (mkBufio (b_wr b) (b_size b) "" None, fs')
           | (Abort e, fs') => (mkBufio (b_wr b) (b_size b) (b_buf b) (Some e), fs')
           end
  end.

Definition bufio_Write (p : string) (b : Bufio) (fs : FileSys) : Bufio * FileSys :=
  match b_err b with
  | Some _ => (b, fs)
  | None =>
      let b' := mkBufio (b_wr b) (b_size b) (b_buf b +:+ p) None in
      if Z.of_nat (String.length (b_buf b +:+ p)) <=? b_size b then (b', fs)
      else bufio_Flush b' fs
  end.

Record WriterState : Type := mkWriterState {
  ws_fs : FileSys;
  ws_bio : Bufio;
  ws_done : bool                 (* [doneChan <- true] was reached *)
}.

Definition bio_write (p : string) : M WriterState unit :=
  modify (fun s => let '(b, fs) := bufio_Write p (ws_bio s) (ws_fs s) in
                   mkWriterState fs b (ws_done s)).

Definition bio_error : M WriterState (option string) :=
  gets (fun s => b_err (ws_bio s)).

(** [w.Write(rec)] followed by [checkError(err)]; [w] is nil when
    [bam.NewWriter] failed.  The error is the encoder's own, or the one
    of the writer underneath. *)
Definition writer_body (w : option Encoder) (rec : SamRecord)
  : M WriterState (option Encoder) :=
  match w with
  | None => fatal "invalid memory address or nil pointer dereference"
  | Some e =>
      match enc_write e rec with
      | Abort msg => fatal msg
      | Ok (e', bytes) =>
          bio_write bytes ;;;
          err <- bio_error ;;
          match err with
          | Some msg => fatal msg
          | None => ret (Some e')
          end
      end
  end.

Fixpoint writer_loop (w : option Encoder) (input : list SamRecord)
  : M WriterState (option Encoder) :=
  match input with
  | [] => ret w
  | rec :: rest => w' <- writer_body w rec ;; writer_loop w' rest
  end.

(** [NewBamWriterChan] from [bufio.NewWriterSize] on, with the goroutine
    it starts run to its end on the closed stream [input].  The error of
    [bam.NewWriter] is not looked at: after a failure [w] is nil. *)
Definition writer_task (fh : File) (head : Header) (buff : Z) (input : list SamRecord)
  : M WriterState unit :=
  modify (fun s => mkWriterState (ws_fs s) (mkBufio fh buff "" None) (ws_done s)) ;;;
  w <- match enc_new head with
       | Abort _ => ret None
       | Ok (e, bytes) =>
           bio_write bytes ;;;
           err <- bio_error ;;
           ret (match err with Some _ => None | None => Some e end)
       end ;;
  w <- writer_loop w input ;;
  match w with
  | None => fatal "invalid memory address or nil pointer dereference"
  | Some e =>
      bio_write (enc_close e) ;;;                                   (* w.Close() *)
      modify (fun s => let '(b, fs) := bufio_Flush (ws_bio s) (ws_fs s) in
                       mkWriterState fs b (ws_done s)) ;;;            (* bio.Flush() *)
      modify (fun s => mkWriterState (ws_fs s) (ws_bio s) true)     (* doneChan <- true *)
  end.

Definition run_writer (fh : File) (head : Header) (buff : Z) (input : list SamRecord)
    (fs : FileSys) : Outcome unit * WriterState :=
  writer_task fh head buff input (mkWriterState fs (mkBufio fh buff "" None) false).
End BamWriter.

Arguments Bufio : clear implicits.
Arguments WriterState : clear implicits.
Arguments bufio_Flush b fs : assert.
Arguments bufio_Write p b fs : assert.
Arguments writer_body {Encoder} enc_write w rec.
Arguments writer_loop {Encoder} enc_write w input.
Arguments writer_task {Header Encoder} enc_new enc_write enc_close fh head buff input.
Arguments run_writer {Header Encoder} enc_new enc_write enc_close fh head buff input fs.

(** The writer holds the read-only handle of [path] and the files are
    [fs]. *)
Definition read_only_state (path : string) (fs : FileSys) (s : WriterState) : Prop :=
  ws_fs s = fs /\ b_wr (ws_bio s) = FOpen path false.

(* ===================================================================== *)
(** ** What the specification says, in its own words *)
(* ===================================================================== *)

Module Spec.
Definition is_match (t : CigarOpType) : bool :=
  match t with CigarMatch | CigarEqual | CigarMismatch => true | _ => false end.
Definition is_insertion (t : CigarOpType) : bool :=
  match t with CigarInsertion => true | _ => false end.
Definition is_deletion (t : CigarOpType) : bool :=
  match t with CigarDeletion => true | _ => false end.

Definition sumZ (l : list Z) : Z := foldr Z.add 0 l.

(** Total length of the operations of the selected kinds. *)
Definition total_len (sel : CigarOpType -> bool) (cigar : list CigarOp) : Z :=
  sumZ (map op_Len (List.filter (fun op => sel (op_Type op)) cigar)).

Definition M (r : SamRecord) : Z := total_len is_match (Cigar r).
Definition I (r : SamRecord) : Z := total_len is_insertion (Cigar r).
Definition D (r : SamRecord) : Z := total_len is_deletion (Cigar r).

(** Aligned length. *)
Definition L (r : SamRecord) : Z := M r + I r + D r.

(** The integer a tag value stores, whatever its width and signedness. *)
Definition stored_int (a : AuxValue) : option Z :=
  match a with
  | VInt v | VInt8 v | VInt16 v | VInt32 v | VInt64 v
  | VUint v | VUint8 v | VUint16 v | VUint32 v | VUint64 v => Some v
  | VFloat32 _ | VString _ | VBytes _ => None
  end.

Definition edit_distance (r : SamRecord) : option Z :=
  match Tag "NM" (AuxFields r) with
  | Some a => stored_int a
  | None => None
  end.

(** [E] of a record that carries an integer edit-distance tag. *)
Definition E (r : SamRecord) : Z := default 0 (edit_distance r).

(** Accuracy = (1 - E/L) x 100, in [float64] arithmetic. *)
Definition Accuracy (r : SamRecord) : float :=
  ((1 - GoFloat.of_int (E r) / GoFloat.of_int (L r)) * 100)%float.

Definition Weighted (r : SamRecord) : float :=
  (Accuracy r * GoFloat.of_int (L r))%float.

Definition mapped (r : SamRecord) : bool := negb (Z.testbit (Flags r) 2).

(** A sum of [float64] terms taken in arrival order, from [0.0]. *)
Definition fsum (l : list float) : float := fold_left PrimFloat.add l 0%float.

Definition WeightedMean (rs : list SamRecord) : float :=
  (fsum (map Weighted rs) / GoFloat.of_int (sumZ (map L rs)))%float.

Definition UnweightedMean (rs : list SamRecord) : float :=
  (fsum (map Accuracy rs) / GoFloat.of_int (Z.of_nat (length rs)))%float.
End Spec.

(** The details of the mapped records of a stream, for the records on
    which [GetSamAlnDetails] returns. *)
Definition mapped_records (input : list SamRecord) : list SamRecord :=
  List.filter GetSamMapped input.

(** What one record adds to the totals when it is counted. *)
Definition accumulate (a : AccLocals) (r : SamRecord) : AccLocals :=
  match GetSamAlnDetails r with
  | Ok info => acc_add a info
  | Abort _ => a
  end.

Definition totals_of (rs : list SamRecord) : AccLocals :=
  fold_left accumulate rs acc_init.

(** Every mapped record of the stream carries an [NM] tag the type switch
    accepts. *)
Definition decodable (input : list SamRecord) : bool :=
  forallb (fun r => implb (GetSamMapped r) (is_ok (GetSamAlnDetails r))) input.

(** A record the statements on accuracy apply to: the tag is there, holds
    an integer in the range of [int], and every CIGAR operation has a
    28-bit length. *)
Definition scorable (r : SamRecord) : bool :=
  match Spec.edit_distance r with
  | Some e => (GoInt.min_int <=? e) && (e <=? GoInt.max_int)
  | None => false
  end
  && forallb (fun op => (0 <=? op_Len op) && (op_Len op <? 2 ^ 28)) (Cigar r).

Definition fs_empty : FileSys := mkFileSys ∅ ∅ "" "" "" [].

(** The handle [tsvFh] ends up with, and the files after the attempt to
    create the destination. *)
Definition open_tsv (path : string) (fs : FileSys) : File * FileSys :=
  if String.eqb path "-" then (FStd Stderr, fs)
  else (fst (fst (os.Create path fs)), snd (os.Create path fs)).

(** The two [WriteString] calls, whose results the code drops. *)
Definition write_summary (fh : File) (header line : string) (fs : FileSys) : FileSys :=
  snd (os.WriteString fh line (snd (os.WriteString fh header fs))).

(** ** Sample records *)

(** A mapped read with CIGAR [10=] and [NM:i:1]. *)
Definition rec_10eq : SamRecord :=
  {| QName := "read1"; RefName := "chr1"; Pos := 0; MapQ := 60;
     Cigar := [mkCigarOp CigarEqual 10]; Flags := 0;
     Seq := "ACGTACGTAC"; Qual := "IIIIIIIIII";
     AuxFields := [("NM", VUint8 1)] |}.

(** An unmapped read: flag 4, no CIGAR, no tag. *)
Definition rec_unmapped : SamRecord :=
  {| QName := "read2"; RefName := "*"; Pos := -1; MapQ := 0;
     Cigar := []; Flags := 4;
     Seq := "ACGT"; Qual := "IIII";
     AuxFields := [] |}.

(** A mapped read whose CIGAR is [5S]: nothing but soft clipping. *)
Definition rec_clipped : SamRecord :=
  {| QName := "read3"; RefName := "chr1"; Pos := 7; MapQ := 0;
     Cigar := [mkCigarOp CigarSoftClipped 5]; Flags := 0;
     Seq := "ACGTA"; Qual := "IIIII";
     AuxFields := [("NM", VUint8 0)] |}.

(** A file system on which one summary destination cannot be created:
    its directory does not exist. *)
Definition tsv_unwritable : string := "/no/such/dir/acc.tsv".

Definition fs_unwritable : FileSys :=
  mkFileSys ∅ {[ tsv_unwritable ]} "" "" "" [].

(** ** Stand-ins for the libraries, to run the stages on examples *)

Module Toy.
(** Patterns are literal strings, found anywhere in the subject. *)
Definition MustCompile (pat : string) : Outcome string := Ok pat.
Definition MatchString (re subject : string) : bool :=
  match String.index 0 re subject with Some _ => true | None => false end.

(** One contig, [chr1], whose bases are the whole reference text;
    windows are half-open and must lie inside it. *)
Definition fai_Create (text : string) : Outcome (unit * string) := Ok (tt, "chr1").
Definition fai_Read (sidecar : string) : Outcome unit := Ok tt.
Definition fai_NewWithIndex (text : string) (idx : unit) : Outcome string := Ok text.
Definition SubSeq (fx chrom : string) (start end_ : Z) : Outcome string :=
  if String.eqb chrom "chr1" && (0 <=? start) && (start <=? end_)
     && (end_ <=? Z.of_nat (String.length fx))
  then Ok (String.substring (Z.to_nat start) (Z.to_nat (end_ - start)) fx)
  else Abort "subsequence out of range".

(** The end of an alignment: its start plus the reference bases its
    CIGAR consumes. *)
Definition consumes_ref (t : CigarOpType) : bool :=
  match t with
  | CigarMatch | CigarDeletion | CigarSkipped | CigarEqual | CigarMismatch => true
  | _ => false
  end.
Definition End (r : SamRecord) : Z := Pos r + Spec.total_len consumes_ref (Cigar r).

Definition Sprintf_3f (x : float) : string := "<%.3f>".

Definition reference : string := "ACGTACGTACGTTTTT".

Definition fs_ref : FileSys :=
  mkFileSys {[ "ref.fa" := reference ]} ∅ "" "" "" [].

Definition aln_yaml : YamlNode :=
  YMap [("Ref", YStr "ref.fa"); ("LeftShift", YInt 0); ("RightShift", YInt 5);
        ("RegexStart", YStr "ACGTA")].

Definition acc_yaml : YamlNode := YMap [("Tsv", YStr "-")].

(** The parser knows four documents. *)
Definition doc_sink : string :=
  "{AlnContext: {Ref: ref.fa, LeftShift: 0, RightShift: 5, RegexStart: ACGTA}, Sink: true, AccStats: {Tsv: '-'}}".
Definition doc_write : string := "{AccStats: {Tsv: '-'}}".
Definition doc_bogus : string :=
  "{AccStats: {Tsv: '-'}, Bogus: {}, AlnContext: {Ref: ref.fa, LeftShift: 0, RightShift: 5}}".

Definition documents : list (string * YamlNode) :=
  [ ("help: true", YMap [("help", YBool true)]);
    (doc_sink, YMap [("AlnContext", aln_yaml); ("Sink", YBool true); ("AccStats", acc_yaml)]);
    (doc_write, YMap [("AccStats", acc_yaml)]);
    (doc_bogus, YMap [("AccStats", acc_yaml); ("Bogus", YMap []);
                      ("AlnContext", YMap [("Ref", YStr "ref.fa"); ("LeftShift", YInt 0);
                                           ("RightShift", YInt 5)])]) ].

Definition NewYaml (text : string) : Outcome YamlNode :=
  match assoc text documents with
  | Some y => Ok y
  | None => Abort "yaml: cannot unmarshal"
  end.

(** A container is accepted when it starts with the magic [BAM]; its
    header is the text itself. *)
Definition bam_NewReader (bytes : string) : option string :=
  if String.prefix "BAM" bytes then Some bytes else None.
Definition reader_Header (r : string) : string := r.

Definition fs_bam : FileSys :=
  mkFileSys {[ "in.bam" := "BAM-header-and-records"; "ref.fa" := reference ]}
            ∅ "" "" "" [].

Definition w0 : World string string := mkWorld fs_bam [] [].

(** An encoder that writes the header after a magic word, each record
    as its name and a semicolon, and an end marker; it has no header
    without a name and no record without one. *)
Definition enc_new (head : string) : Outcome (unit * string) :=
  if String.eqb head "" then Abort "bam: empty header"
  else Ok (tt, "BAM1" +:+ head +:+ ";").
Definition enc_write (e : unit) (r : SamRecord) : Outcome (unit * string) :=
  if String.eqb (QName r) "" then Abort "bam: record without a name"
  else Ok (tt, QName r +:+ ";").
Definition enc_close (e : unit) : string := "EOF".

(** The same files with an output file left by an earlier run. *)
Definition fs_out : FileSys :=
  mkFileSys {[ "in.bam" := "BAM-header-and-records"; "out.bam" := "old bytes" ]}
            ∅ "" "" "" [].
End Toy.

(** A mapped read on [chr1] starting at base 2. *)
Definition rec_at2 : SamRecord :=
  {| QName := "read4"; RefName := "chr1"; Pos := 2; MapQ := 60;
     Cigar := [mkCigarOp CigarMatch 4]; Flags := 0;
     Seq := "GTAC"; Qual := "IIII";
     AuxFields := [("NM", VUint8 0)] |}.

(* ===================================================================== *)
(** ** The listing of the tool shed *)
(* ===================================================================== *)

(** [sort.Strings]: ascending order, strings compared byte by byte. *)
Definition sort_Strings (l : list string) : list string := merge_sort String.le l.

Definition listing_header : string :=
  "Tool" +:+ tab +:+ "Description" +:+ nl +:+ "----" +:+ tab +:+ "-----------" +:+ nl.

(** [fmt.Sprintf("%s\t%s\n", s[t].Name, s[t].Desc)]; indexing the map with
    a key it lacks gives the zero [BamTool]. *)
Definition tool_line (s : Toolshed) (t : string) : string :=
  match s !! t with
  | Some bt => Name bt +:+ tab +:+ Desc bt +:+ nl
  | None => "" +:+ tab +:+ "" +:+ nl
  end.

(** [Toolshed.String].  Go leaves the order in which [range] walks a map
    open: [range_order] is the order of one walk, some arrangement of the
    keys of [s]. *)
Definition Toolshed_String (range_order : list string) (s : Toolshed) : string :=
  let tools := sort_Strings range_order in
  fold_left (fun res t => res +:+ tool_line s t) tools listing_header.

(** The keys of a shed in one order a walk can take. *)
Definition shed_keys (s : Toolshed) : list string := map fst (map_to_list s).

(** [ListTools]: the table goes to the standard error stream and the
    process exits; the result is the files after the write and the exit
    status. *)
Definition ListTools (range_order : list string) (p : BamToolParams) (fs : FileSys)
  : FileSys * Z :=
  (snd (os.WriteString (FStd Stderr) (Toolshed_String range_order (Shed p)) fs), 0).

(* ===================================================================== *)
(** ** The reader and the sink goroutines *)
(* ===================================================================== *)

(** The goroutine of [NewBamReaderChan].  [reads] is what [r.Read()]
    returns call after call until [io.EOF]: a record, or an error in the
    place of one. *)
Fixpoint reader_loop (reads : list (Outcome SamRecord)) : M (StageState unit) unit :=
  match reads with
  | [] => close_out                                   (* err == io.EOF *)
  | Ok rec :: rest => send rec ;;; reader_loop rest
  | Abort msg :: _ => close_out ;;; fatal msg         (* close, then checkError *)
  end.

Definition run_reader (reads : list (Outcome SamRecord)) (fs : FileSys)
  : Outcome unit * StageState unit :=
  reader_loop reads (stage_start fs tt).

(** The goroutine of [NewBamSinkChan]: every record is received and
    dropped, then [doneChan <- true]; the result is the number of records
    received and whether the done signal was sent. *)
Definition sink_task (input : list SamRecord) : nat * bool :=
  (fold_left (fun n _ => S n) input 0%nat, true).

(* ===================================================================== *)
(** ** The byte stream of the writer *)
(* ===================================================================== *)

Section EncodedStream.
Variable Header : Type.
Variable Encoder : Type.
Variable enc_new : Header -> Outcome (Encoder * string).
Variable enc_write : Encoder -> SamRecord -> Outcome (Encoder * string).
Variable enc_close : Encoder -> string.

(** The encoder fed with the records one after the other: its state
    after the last, or the error of the first record it refuses, and the
    bytes it has emitted by then. *)
Fixpoint encode_records (e : Encoder) (input : list SamRecord)
  : Outcome Encoder * string :=
  match input with
  | [] => (Ok e, "")
  | rec :: rest =>
      match enc_write e rec with
      | Abort msg => (Abort msg, "")
      | Ok (e1, bytes) =>
          let '(o, more) := encode_records e1 rest in
          (o, bytes +:+ more)
      end
  end.

(** Header bytes, record bytes in arrival order, closing bytes, when the
    encoder accepts the header and every record. *)
Definition encoded_stream (head : Header) (input : list SamRecord) : Outcome string :=
  match enc_new head with
  | Abort msg => Abort msg
  | Ok (e, h) =>
      match encode_records e input with
      | (Ok e', body) => Ok (h +:+ body +:+ enc_close e')
      | (Abort msg, _) => Abort msg
      end
  end.
End EncodedStream.

Arguments encode_records {Encoder} enc_write e input.
Arguments encoded_stream {Header Encoder} enc_new enc_write enc_close head input.

(* ===================================================================== *)
(** ** The channels of a chain, by position *)
(* ===================================================================== *)

(** With [c] the number of the channel made just before the loop, the
    [i]-th of [n] tool goroutines reads [stage_in] and writes
    [stage_out]. *)
Definition stage_in (inChan : chan) (c i : nat) : chan :=
  match i with
  | O => inChan
  | S j => Some (c + j)%nat
  end.

Definition stage_out (lastOut : chan) (c n i : nat) : chan :=
  if (S i =? n)%nat then lastOut else Some (c + i)%nat.

(* ===================================================================== *)
(** ** The [rename] command *)
(* ===================================================================== *)

Module Rename.
(** [fastx.Record], as far as the command looks at it; [Seq] and [Qual]
    are [record.Seq.Seq] and [record.Seq.Qual]. *)
Record FastxRecord : Type := mkFastxRecord {
  ID : string;
  Name : string;
  Seq : string;
  Qual : string
}.

(** The variables of the loop over one file. *)
Record FileState : Type := mkFileState {
  numbers : gmap string Z;
  newID : string;
  written : string              (* what went to [outfh] so far *)
}.

Section Command.
(** [byteutil.WrapByteSlice]. *)
Variable WrapByteSlice : string -> Z -> string.
Variable lineWidth : Z.

(** [fmt.Sprintf("%s_%d", id, n)]. *)
Definition suffixed (id : string) (n : Z) : string := id +:+ "_" +:+ pretty n.

(** The first statement of the loop body: count the ID, and make a new
    one if it was seen before. *)
Definition count_id (numbers : gmap string Z) (newID : string) (id : string)
  : gmap string Z * string :=
  match numbers !! id with
  | Some n =>
      let n' := GoInt.add n 1 in
      (<[id := n']> numbers, suffixed id n')
  | None => (<[id := 1]> numbers, newID)
  end.

Definition fastq_text (newID : string) (r : FastxRecord) : string :=
  "@" +:+ newID +:+ " " +:+ Name r +:+ nl +:+ WrapByteSlice (Seq r) lineWidth +:+ nl
  +:+ "+" +:+ nl +:+ WrapByteSlice (Qual r) lineWidth +:+ nl.

Definition fasta_text (newID : string) (r : FastxRecord) : string :=
  ">" +:+ newID +:+ " " +:+ Name r +:+ nl +:+ WrapByteSlice (Seq r) lineWidth +:+ nl.

(** What one pass of the loop body writes. *)
Definition record_text (newID : string) (r : FastxRecord) : string :=
  (if (0 <? String.length (Qual r))%nat then fastq_text newID r else "")
  +:+ fasta_text newID r.

(** The body of [for _, record := range chunk.Data]. *)
Definition rename_record (st : FileState) (r : FastxRecord) : FileState :=
  let '(numbers', newID') := count_id (numbers st) (newID st) (ID r) in
  mkFileState numbers' newID' (written st +:+ record_text newID' r).

(** The loop over the chunks of one file; a chunk that carries an error
    stops the command. *)
Fixpoint rename_chunks (st : FileState) (chunks : list (Outcome (list FastxRecord)))
  : Outcome unit * FileState :=
  match chunks with
  | [] => (Ok tt, st)
  | Abort msg :: _ => (Abort msg, st)
  | Ok data :: rest => rename_chunks (fold_left rename_record data st) rest
  end.

(** The loop over the files: [numbers] and [newID] start afresh in every
    file, the output goes on.  A file whose reader cannot be made stops
    the command. *)
Fixpoint rename_files (out : string)
    (files : list (Outcome (list (Outcome (list FastxRecord)))))
  : Outcome unit * string :=
  match files with
  | [] => (Ok tt, out)
  | Abort msg :: _ => (Abort msg, out)
  | Ok chunks :: rest =>
      match rename_chunks (mkFileState ∅ "" out) chunks with
      | (Ok _, st) => rename_files (written st) rest
      | (Abort msg, st) => (Abort msg, written st)
      end
  end.
End Command.

(** How often an ID occurs among records. *)
Definition occurrences (id : string) (rs : list FastxRecord) : nat :=
  length (List.filter (fun r => String.eqb (ID r) id) rs).
End Rename.

(* ===================================================================== *)
(** ** Records and files the further statements are made on *)
(* ===================================================================== *)

(** Operations the CIGAR loop has no case for. *)
Definition uncounted (t : CigarOpType) : bool :=
  match t with
  | CigarSoftClipped | CigarHardClipped | CigarPadded | CigarBack => true
  | _ => false
  end.

Definition is_skip (t : CigarOpType) : bool :=
  match t with CigarSkipped => true | _ => false end.

(** The record with another CIGAR. *)
Definition with_Cigar (r : SamRecord) (cigar : list CigarOp) : SamRecord :=
  mkSamRecord (QName r) (RefName r) (Pos r) (MapQ r) cigar (Flags r) (Seq r) (Qual r)
              (AuxFields r).

(** A CIGAR without the operations of some kinds. *)
Definition without (kind : CigarOpType -> bool) (cigar : list CigarOp) : list CigarOp :=
  List.filter (fun op => negb (kind (op_Type op))) cigar.

(** The record with other auxiliary fields. *)
Definition with_aux (r : SamRecord) (aux : list (string * AuxValue)) : SamRecord :=
  mkSamRecord (QName r) (RefName r) (Pos r) (MapQ r) (Cigar r) (Flags r) (Seq r) (Qual r)
              aux.

(** A mapped read on [chr1] starting two bases before the end of the
    sample reference. *)
Definition rec_at14 : SamRecord :=
  {| QName := "read5"; RefName := "chr1"; Pos := 14; MapQ := 60;
     Cigar := [mkCigarOp CigarMatch 2]; Flags := 0;
     Seq := "TT"; Qual := "II";
     AuxFields := [("NM", VUint8 0)] |}.

(** A parser that also knows a document that names a configuration
    file, and the files of a run that has this file. *)
Definition NewYaml_with_file (text : string) : Outcome YamlNode :=
  if String.eqb text "Yaml: conf.yml" then Ok (YMap [("Yaml", YStr "conf.yml")])
  else Toy.NewYaml text.

Definition fs_conf : FileSys :=
  mkFileSys {[ "in.bam" := "BAM-header-and-records"; "ref.fa" := Toy.reference;
               "conf.yml" := Toy.doc_sink ]} ∅ "" "" "" [].

(** A mapped read without a name. *)
Definition rec_nameless : SamRecord :=
  {| QName := ""; RefName := "chr1"; Pos := 4; MapQ := 60;
     Cigar := [mkCigarOp CigarMatch 4]; Flags := 0;
     Seq := "ACGT"; Qual := "IIII";
     AuxFields := [("NM", VUint8 0)] |}.


(** Sample FASTA records: two with the ID [a], one with the ID [b]. *)
Definition fa_a1 : Rename.FastxRecord := Rename.mkFastxRecord "a" "a first" "ACGT" "".
Definition fa_b : Rename.FastxRecord := Rename.mkFastxRecord "b" "b only" "GG" "".
Definition fa_a2 : Rename.FastxRecord := Rename.mkFastxRecord "a" "a second" "TT" "".

(* ===================================================================== *)
(** * Theorems *)
(* ===================================================================== *)

(** Discharge the arithmetic premises of a hypothesis one by one. *)
Ltac feed_lia H :=
  repeat match type of H with
         | ?A -> _ =>
             let a := fresh in
             assert (a : A) by lia; specialize (H a); clear a
         end.

(** ** Go integers *)

Lemma wrap_in_range (z : Z) : GoInt.in_range z -> GoInt.wrap z = z.
Proof.
  unfold GoInt.in_range, GoInt.min_int, GoInt.max_int, GoInt.wrap.
  intros H. rewrite Z.mod_small; lia.
Qed.

Lemma wrap_range (z : Z) : GoInt.in_range (GoInt.wrap z).
Proof.
  unfold GoInt.in_range, GoInt.min_int, GoInt.max_int, GoInt.wrap.
  pose proof (Z.mod_pos_bound (z + 2 ^ 63) (2 ^ 64) ltac:(lia)). lia.
Qed.

Lemma add_exact (a b : Z) : GoInt.in_range (a + b) -> GoInt.add a b = a + b.
Proof. apply wrap_in_range. Qed.

(** A value of [uint64] above the largest [int] comes out negative. *)
Example wrap_uint64_top : GoInt.wrap (2 ^ 64 - 1) = -1.
Proof. reflexivity. Qed.

(** ** [float64]: small integers and the counter *)

Section Binary64Facts.
Import Binary64.

Lemma shl_add k a b : shl k (a + b) = shl (shl k a) b.
Proof. unfold shl. rewrite Nat.add_comm. apply Nat.iter_add. Qed.

Lemma pos_iter_shl m q : Pos.iter xO m q = shl m (Pos.to_nat q).
Proof. apply Pos2Nat.inj_iter. Qed.

Lemma digits_shl k j :
  Zpos (digits2_pos (shl k j)) = Zpos (digits2_pos k) + Z.of_nat j.
Proof.
  induction j as [|j IH]; [simpl; lia|].
  change (shl k (S j)) with (xO (shl k j)). cbn [digits2_pos]. lia.
Qed.

Lemma shl_Z k j : Zpos (shl k j) = Zpos k * 2 ^ Z.of_nat j.
Proof.
  induction j as [|j IH]; [simpl; lia|].
  change (shl k (S j)) with (xO (shl k j)).
  rewrite Pos2Z.inj_xO, IH, Nat2Z.inj_succ, Z.pow_succ_r by lia. lia.
Qed.

Lemma iter_pos_nat {A} (f : A -> A) p : forall x, SpecFloat.iter_pos f p x = Nat.iter (Pos.to_nat p) f x.
Proof.
  induction p as [p IH|p IH|]; intros x; cbn [SpecFloat.iter_pos].
  - rewrite !IH, Pos2Nat.inj_xI. 
    replace (S (2 * Pos.to_nat p))%nat with (Pos.to_nat p + (Pos.to_nat p + 1))%nat by lia.
    rewrite !Nat.iter_add. reflexivity.
  - rewrite !IH, Pos2Nat.inj_xO.
    replace (2 * Pos.to_nat p)%nat with (Pos.to_nat p + Pos.to_nat p)%nat by lia.
    rewrite Nat.iter_add. reflexivity.
  - reflexivity.
Qed.

Lemma shr_shl k j :
  Nat.iter j shr_1 (Build_shr_record (Zpos (shl k j)) false false)
  = Build_shr_record (Zpos k) false false.
Proof.
  induction j as [|j IH]; [reflexivity|].
  rewrite Nat.iter_succ_r. change (shl k (S j)) with (xO (shl k j)). cbn [shr_1 orb].
  exact IH.
Qed.

Lemma fexp_small d : 1 <= d <= 54 -> fexp prec emax d = d - 53.
Proof. intros H. unfold fexp, emin, prec, emax. lia. Qed.

(** Exact rounding of k * 2^s at exponent -s. *)
Lemma round_exact (k : positive) (s : nat) :
  dig k <= 53 ->
  binary_round prec emax false (shl k s) (- Z.of_nat s)
  = S754_finite false (shl k (Z.to_nat (53 - dig k))) (dig k - 53).
Proof.
  intros Hd. assert (Hd1 : 1 <= dig k) by (unfold dig; lia).
  unfold binary_round.
  rewrite digits_shl. fold (dig k).
  replace (dig k + Z.of_nat s + - Z.of_nat s) with (dig k) by lia.
  rewrite fexp_small by lia.
  set (t := Z.to_nat (53 - dig k)).
  assert (Ht : Z.of_nat t = 53 - dig k) by (unfold t; lia).
  (* the first shift and the two roundings end on (shl k t, dig k - 53) *)
  assert (Haux : forall m e,
            (m = shl k t /\ e = dig k - 53) \/
            (exists q, m = shl (shl k t) q /\ e = dig k - 53 - Z.of_nat q) ->
            binary_round_aux prec emax false (Zpos m) e loc_Exact
            = S754_finite false (shl k t) (dig k - 53)).
  { intros m e Hme.
    assert (Hme' : exists q, m = shl (shl k t) q /\ e = dig k - 53 - Z.of_nat q).
    { destruct Hme as [[-> ->]|H]; [exists 0%nat; split; [reflexivity|simpl; lia]|exact H]. }
    destruct Hme' as (q & -> & ->).
    unfold binary_round_aux.
    assert (H1 : shr_fexp prec emax (Zpos (shl (shl k t) q)) (dig k - 53 - Z.of_nat q) loc_Exact
                 = (Build_shr_record (Zpos (shl k t)) false false, dig k - 53)).
    { unfold shr_fexp. cbn [Zdigits2 shr_record_of_loc].
      rewrite !digits_shl. fold (dig k).
      replace (dig k + Z.of_nat t + Z.of_nat q + (dig k - 53 - Z.of_nat q)) with (dig k) by lia.
      rewrite fexp_small by lia.
      replace (dig k - 53 - (dig k - 53 - Z.of_nat q)) with (Z.of_nat q) by lia.
      destruct q as [|q].
      - change (Z.of_nat 0) with 0. cbn [shr].
        change (shl (shl k t) 0) with (shl k t). f_equal. lia.
      - unfold shr.
        destruct (Z.of_nat (S q)) as [|p|p] eqn:Hp; try lia.
        rewrite iter_pos_nat.
        assert (Hq : Pos.to_nat p = S q) by lia.
        rewrite Hq, shr_shl. f_equal. lia. }
    rewrite H1. cbn [shr_m loc_of_shr_record round_nearest_even].
    assert (H2 : shr_fexp prec emax (Zpos (shl k t)) (dig k - 53) loc_Exact
                 = (Build_shr_record (Zpos (shl k t)) false false, dig k - 53)).
    { unfold shr_fexp. cbn [Zdigits2 shr_record_of_loc].
      rewrite digits_shl. fold (dig k).
      replace (dig k + Z.of_nat t + (dig k - 53)) with (dig k + (Z.of_nat t + dig k - 53)) by lia.
      replace (Z.of_nat t + dig k - 53) with 0 by lia. rewrite Z.add_0_r.
      rewrite fexp_small by lia.
      replace (dig k - 53 - (dig k - 53)) with 0 by lia. reflexivity. }
    rewrite H2. cbn [shr_m].
    replace (dig k - 53 <=? emax - prec) with true; [reflexivity|].
    symmetry. apply Z.leb_le. unfold emax, prec. lia. }
  unfold shl_align.
  destruct (dig k - 53 - - Z.of_nat s) as [|p|p] eqn:Hsub.
  - apply Haux. right. exists 0%nat. split; [|lia].
    change (shl (shl k t) 0) with (shl k t). f_equal. lia.
  - apply Haux. right. exists (Pos.to_nat p). split; [|lia].
    rewrite <- shl_add. f_equal. lia.
  - apply Haux. left. split; [|reflexivity].
    rewrite pos_iter_shl, <- shl_add. f_equal. lia.
Qed.

Lemma normal_pos (k : positive) :
  dig k <= 53 ->
  normal (Zpos k) = S754_finite false (shl k (Z.to_nat (53 - dig k))) (dig k - 53).
Proof.
  intros Hd. unfold normal, binary_normalize.
  exact (round_exact k 0 Hd).
Qed.

Lemma dig_bounds (k : positive) : 2 ^ (dig k - 1) <= Zpos k < 2 ^ dig k.
Proof.
  unfold dig. induction k as [k IH|k IH|]; cbn [digits2_pos].
  - rewrite Pos2Z.inj_succ, (Pos2Z.inj_xI k).
    replace (Z.succ (Zpos (digits2_pos k)) - 1) with (Z.succ (Zpos (digits2_pos k) - 1)) by lia.
    rewrite !Z.pow_succ_r by lia.
    set (a := 2 ^ (Z.pos (digits2_pos k) - 1)) in *. set (b := 2 ^ Z.pos (digits2_pos k)) in *.
    clearbody a b. lia.
  - rewrite Pos2Z.inj_succ, (Pos2Z.inj_xO k).
    replace (Z.succ (Zpos (digits2_pos k)) - 1) with (Z.succ (Zpos (digits2_pos k) - 1)) by lia.
    rewrite !Z.pow_succ_r by lia.
    set (a := 2 ^ (Z.pos (digits2_pos k) - 1)) in *. set (b := 2 ^ Z.pos (digits2_pos k)) in *.
    clearbody a b. lia.
  - simpl. lia.
Qed.

Lemma dig_small (k : positive) : Zpos k < 2 ^ 53 -> dig k <= 53.
Proof.
  intros Hk. destruct (Z_le_gt_dec (dig k) 53) as [H|H]; [exact H|exfalso].
  pose proof (dig_bounds k) as [Hlo _].
  assert (2 ^ 53 <= 2 ^ (dig k - 1)) by (apply Z.pow_le_mono_r; lia).
  lia.
Qed.

(** Adding 1.0 to the float of an integer below 2^53 gives the float of
    the next integer. *)
Lemma SFadd_one (n : positive) :
  Zpos n + 1 < 2 ^ 53 ->
  SFadd prec emax (normal (Zpos n)) (normal 1) = normal (Zpos n + 1).
Proof.
  intros Hn.
  assert (Hdn : dig n <= 53) by (apply dig_small; lia).
  assert (Hdn1 : 1 <= dig n) by (unfold dig; lia).
  assert (Hds : dig (Pos.succ n) <= 53) by (apply dig_small; lia).
  rewrite (normal_pos n Hdn).
  change (normal 1) with (S754_finite false (shl 1 52) (-52)).
  replace (Zpos n + 1) with (Zpos (Pos.succ n)) by lia.
  rewrite (normal_pos _ Hds).
  unfold SFadd.
  replace (Z.min (dig n - 53) (-52)) with (-52) by lia.
  assert (Hx : fst (shl_align (shl n (Z.to_nat (53 - dig n))) (dig n - 53) (-52)) = shl n 52).
  { unfold shl_align.
    destruct (-52 - (dig n - 53)) as [|p|p] eqn:Hsub; cbn [fst].
    - f_equal. lia.
    - lia.
    - rewrite pos_iter_shl, <- shl_add. f_equal. lia. }
  rewrite Hx.
  change (fst (shl_align (shl 1 52) (-52) (-52))) with (shl 1 52).
  cbn [cond_Zopp].
  assert (Hsum : Zpos (shl n 52) + Zpos (shl 1 52) = Zpos (shl (Pos.succ n) 52)).
  { rewrite !shl_Z. lia. }
  rewrite Hsum. cbn [binary_normalize].
  exact (round_exact (Pos.succ n) 52 Hds).
Qed.

Lemma Prim2SF_of_int (z : Z) :
  0 <= z < 2 ^ 63 -> Prim2SF (GoFloat.of_int z) = normal z.
Proof.
  intros Hz. unfold GoFloat.of_int. fold (normal z).
  assert (Hn : normal z = Prim2SF (of_uint63 (Uint63.of_Z z))).
  { rewrite of_uint63_spec. unfold normal. f_equal.
    rewrite Uint63.of_Z_spec. symmetry. apply Z.mod_small.
    change Uint63Axioms.wB with (2 ^ 63). lia. }
  rewrite Hn at 1. rewrite SF2Prim_Prim2SF. symmetry. exact Hn.
Qed.

Lemma of_int_succ (z : Z) :
  0 <= z < 2 ^ 53 -> (GoFloat.of_int z + 1)%float = GoFloat.of_int (z + 1).
Proof.
  intros Hz. apply Prim2SF_inj.
  rewrite FloatAxioms.add_spec. rewrite !Prim2SF_of_int by lia.
  change (Prim2SF 1%float) with (normal 1).
  destruct z as [|n|n]; [reflexivity| |lia].
  destruct (Z.eq_dec (Zpos n + 1) (2 ^ 53)) as [Heq|Hne].
  - assert (Hn : Zpos n = 2 ^ 53 - 1) by lia.
    rewrite Hn. vm_compute. reflexivity.
  - apply SFadd_one. lia.
Qed.

(** The [float64] counter holds the exact count up to 2^53 steps. *)
Lemma count_exact (n : nat) :
  Z.of_nat n <= 2 ^ 53 -> GoFloat.count n = GoFloat.of_int (Z.of_nat n).
Proof.
  induction n as [|n IH]; intros Hn; [reflexivity|].
  change (GoFloat.count (S n)) with (GoFloat.count n + 1)%float. rewrite IH by lia.
  rewrite of_int_succ by lia. f_equal. lia.
Qed.
End Binary64Facts.

(** A positive integer below 2^53 is a positive finite float. *)
Lemma of_int_positive_finite (l : Z) :
  0 < l < 2 ^ 53 ->
  exists m e, Prim2SF (GoFloat.of_int l) = S754_finite false m e.
Proof.
  intros Hl. rewrite Prim2SF_of_int by lia.
  destruct l as [|p|p]; try lia.
  rewrite normal_pos by (apply dig_small; lia). eauto.
Qed.

(** ** The CIGAR loop *)

Lemma total_len_nonneg sel cigar :
  Forall cigar_op_wf cigar -> 0 <= Spec.total_len sel cigar.
Proof.
  unfold Spec.total_len. induction 1 as [|op l Hop _ IH]; simpl; [lia|].
  destruct (sel (op_Type op)); simpl; [|exact IH].
  unfold cigar_op_wf in Hop. unfold Spec.sumZ in *. simpl. lia.
Qed.

Lemma total_len_cons sel op cigar :
  Spec.total_len sel (op :: cigar)
  = (if sel (op_Type op) then op_Len op else 0) + Spec.total_len sel cigar.
Proof.
  unfold Spec.total_len. simpl. destruct (sel (op_Type op)); reflexivity.
Qed.

(** Started from counters [c], the loop adds to each of the three aligned
    counters the total length of its kinds, as long as the aligned total
    fits an [int]. *)
Lemma cigar_step_sums (c : CigarCounts) (op : CigarOp) :
  cigar_op_wf op ->
  0 <= c_mm c -> 0 <= c_ins c -> 0 <= c_del c ->
  c_mm c + c_ins c + c_del c
    + ((if Spec.is_match (op_Type op) then op_Len op else 0)
       + (if Spec.is_insertion (op_Type op) then op_Len op else 0)
       + (if Spec.is_deletion (op_Type op) then op_Len op else 0)) <= GoInt.max_int ->
  let c' := cigar_step c op in
  c_mm c' = c_mm c + (if Spec.is_match (op_Type op) then op_Len op else 0) /\
  c_ins c' = c_ins c + (if Spec.is_insertion (op_Type op) then op_Len op else 0) /\
  c_del c' = c_del c + (if Spec.is_deletion (op_Type op) then op_Len op else 0).
Proof.
  unfold cigar_op_wf, GoInt.max_int. intros Hop Hm Hi Hd Hfit. cbv zeta.
  unfold cigar_step.
  destruct (op_Type op);
    cbn [c_mm c_ins c_del Spec.is_match Spec.is_insertion Spec.is_deletion] in *;
    rewrite ?add_exact by (unfold GoInt.in_range, GoInt.min_int, GoInt.max_int; lia);
    lia.
Qed.

Lemma cigar_fold_sums cigar : forall c,
  Forall cigar_op_wf cigar ->
  0 <= c_mm c -> 0 <= c_ins c -> 0 <= c_del c ->
  c_mm c + c_ins c + c_del c
    + (Spec.total_len Spec.is_match cigar + Spec.total_len Spec.is_insertion cigar
       + Spec.total_len Spec.is_deletion cigar) <= GoInt.max_int ->
  let c' := fold_left cigar_step cigar c in
  c_mm c' = c_mm c + Spec.total_len Spec.is_match cigar /\
  c_ins c' = c_ins c + Spec.total_len Spec.is_insertion cigar /\
  c_del c' = c_del c + Spec.total_len Spec.is_deletion cigar.
Proof.
  induction cigar as [|op cigar IH]; intros c Hwf Hm Hi Hd Hfit; cbv zeta.
  - simpl. unfold Spec.total_len, Spec.sumZ. simpl. lia.
  - inversion Hwf as [|? ? Hop Hrest]; subst.
    pose proof (total_len_nonneg Spec.is_match _ Hrest) as Pm.
    pose proof (total_len_nonneg Spec.is_insertion _ Hrest) as Pi.
    pose proof (total_len_nonneg Spec.is_deletion _ Hrest) as Pd.
    rewrite !total_len_cons in Hfit. rewrite !total_len_cons.
    assert (Hone : (if Spec.is_match (op_Type op) then op_Len op else 0)
                   + (if Spec.is_insertion (op_Type op) then op_Len op else 0)
                   + (if Spec.is_deletion (op_Type op) then op_Len op else 0) <= op_Len op
                   /\ 0 <= (if Spec.is_match (op_Type op) then op_Len op else 0)
                   /\ 0 <= (if Spec.is_insertion (op_Type op) then op_Len op else 0)
                   /\ 0 <= (if Spec.is_deletion (op_Type op) then op_Len op else 0)).
    { unfold cigar_op_wf in Hop. destruct (op_Type op); simpl; lia. }
    destruct Hone as (Hsum & Hm1 & Hi1 & Hd1).
    cbn [fold_left].
    pose proof (cigar_step_sums c op Hop Hm Hi Hd) as Hs. cbv zeta in Hs.
    specialize (IH (cigar_step c op) Hrest). cbv zeta in IH.
    unfold GoInt.max_int in *.
    destruct (op_Type op) eqn:Ety;
      cbn [Spec.is_match Spec.is_insertion Spec.is_deletion] in *;
      (feed_lia Hs; destruct Hs as (S1 & S2 & S3);
       rewrite S1, S2, S3 in IH; feed_lia IH; destruct IH as (E1 & E2 & E3);
       rewrite E1, E2, E3; lia).
Qed.

Lemma cigar_loop_sums (r : SamRecord) :
  Forall cigar_op_wf (Cigar r) ->
  Spec.L r <= GoInt.max_int ->
  let c := cigar_loop (Cigar r) in
  c_mm c = Spec.M r /\ c_ins c = Spec.I r /\ c_del c = Spec.D r /\
  aligned_len c = Spec.L r.
Proof.
  intros Hwf Hfit.
  destruct (cigar_fold_sums (Cigar r) (mkCigarCounts 0 0 0 0) Hwf) as (E1 & E2 & E3);
    cbn [c_mm c_ins c_del]; try lia.
  { unfold Spec.L, Spec.M, Spec.I, Spec.D in Hfit. lia. }
  cbn [c_mm c_ins c_del] in *. fold (cigar_loop (Cigar r)) in *.
  pose proof (total_len_nonneg Spec.is_match _ Hwf).
  pose proof (total_len_nonneg Spec.is_insertion _ Hwf).
  pose proof (total_len_nonneg Spec.is_deletion _ Hwf).
  unfold Spec.L, Spec.M, Spec.I, Spec.D in *. unfold GoInt.max_int in *.
  cbv zeta. repeat split; try lia.
  unfold aligned_len. rewrite E1, E2, E3.
  rewrite !add_exact; unfold GoInt.in_range, GoInt.min_int, GoInt.max_int;
    try rewrite add_exact; unfold GoInt.in_range, GoInt.min_int, GoInt.max_int; lia.
Qed.

(** ** [GetSamMapped], [GetSamAlnDetails], [GetSamAcc] *)

Lemma GetSamMapped_flag (r : SamRecord) :
  GetSamMapped r = negb (Z.testbit (Flags r) 2).
Proof.
  unfold GetSamMapped, Unmapped.
  destruct (Z.testbit (Flags r) 2) eqn:Hbit; simpl.
  - apply Z.eqb_neq. intros Hz.
    assert (Hc : Z.testbit (Z.land (Flags r) 4) 2 = false) by (rewrite Hz; apply Z.bits_0).
    rewrite Z.land_spec, Hbit in Hc. discriminate.
  - apply Z.eqb_eq. apply Z.bits_inj'. intros n Hn.
    rewrite Z.land_spec, Z.bits_0.
    change 4 with (2 ^ 2). rewrite Z.pow2_bits_eqb by lia.
    destruct (Z.eqb_spec 2 n) as [<-|Hne]; [rewrite Hbit|]; apply andb_false_r || reflexivity.
Qed.

Lemma nm_to_int_stored (a : AuxValue) (v : Z) :
  Spec.stored_int a = Some v -> GoInt.in_range v -> nm_to_int a = Some v.
Proof.
  intros Hs Hv. destruct a; simpl in *; inversion Hs; subst;
    rewrite wrap_in_range by assumption; reflexivity.
Qed.

(** A well-formed tag value of any type but [uint] and [uint64] is in the
    range of [int], so the conversion keeps it. *)
Lemma stored_int_in_range (a : AuxValue) (v : Z) :
  aux_value_wf a -> Spec.stored_int a = Some v ->
  (forall u, a <> VUint u) -> (forall u, a <> VUint64 u) ->
  GoInt.in_range v.
Proof.
  unfold GoInt.in_range, GoInt.min_int, GoInt.max_int.
  intros Hwf Hs Hn1 Hn2.
  destruct a; simpl in *; inversion Hs; subst; try lia.
  - exfalso. eapply Hn1. reflexivity.
  - exfalso. eapply Hn2. reflexivity.
Qed.

(** The per-record derivation: counters, aligned length, accuracy and
    weighted contribution returned by [GetSamAlnDetails]. *)
Lemma GetSamAlnDetails_spec (r : SamRecord) (e : Z) :
  Spec.edit_distance r = Some e ->
  GoInt.in_range e ->
  Forall cigar_op_wf (Cigar r) ->
  Spec.L r <= GoInt.max_int ->
  exists d,
    GetSamAlnDetails r = Ok d /\
    Mismatch d = e /\
    MatchMismatch d = Spec.M r /\ Insertion d = Spec.I r /\ Deletion d = Spec.D r /\
    Len d = Spec.M r + Spec.I r + Spec.D r /\
    Acc d = ((1 - GoFloat.of_int e / GoFloat.of_int (Len d)) * 100)%float /\
    WAcc d = (Acc d * GoFloat.of_int (Len d))%float /\
    Acc d = Spec.Accuracy r /\ WAcc d = Spec.Weighted r.
Proof.
  intros He Hr Hwf Hfit.
  destruct (cigar_loop_sums r Hwf Hfit) as (E1 & E2 & E3 & E4).
  unfold Spec.edit_distance in He.
  unfold GetSamAlnDetails.
  destruct (Tag "NM" (AuxFields r)) as [a|] eqn:Htag; [|discriminate].
  rewrite (nm_to_int_stored a e He Hr).
  eexists. split; [reflexivity|]. cbn [Mismatch MatchMismatch Insertion Deletion Len Acc WAcc].
  unfold Spec.Weighted, Spec.Accuracy, Spec.E, Spec.edit_distance.
  rewrite Htag, He. cbn [default]. rewrite E1, E2, E3, E4.
  unfold Spec.L. repeat split; reflexivity.
Qed.

(** The loop of [GetSamAcc] over its four local variables computes the
    counters of the loop of [GetSamAlnDetails]. *)
Lemma acc_step_counts cigar : forall c,
  fold_left acc_step cigar (c_mm c, c_ins c, c_del c, c_skip c)
  = (c_mm (fold_left cigar_step cigar c), c_ins (fold_left cigar_step cigar c),
     c_del (fold_left cigar_step cigar c), c_skip (fold_left cigar_step cigar c)).
Proof.
  induction cigar as [|op cigar IH]; intros c; [reflexivity|].
  cbn [fold_left]. rewrite <- IH. f_equal.
  unfold acc_step, cigar_step. destruct (op_Type op); reflexivity.
Qed.

(** On every record the two functions take the same way out: the same
    panic, or the same accuracy. *)
Lemma GetSamAcc_refines (r : SamRecord) :
  GetSamAcc r = match GetSamAlnDetails r with
                | Ok d => Ok (Acc d)
                | Abort msg => Abort msg
                end.
Proof.
  unfold GetSamAcc, GetSamAlnDetails.
  destruct (Tag "NM" (AuxFields r)) as [a|]; [|reflexivity].
  pose proof (acc_step_counts (Cigar r) (mkCigarCounts 0 0 0 0)) as Hc.
  cbn [c_mm c_ins c_del c_skip] in Hc.
  destruct a; cbn [nm_to_int]; try reflexivity;
    rewrite Hc; reflexivity.
Qed.

(** C10. For every record whose [NM] tag is present and holds an integer,
    [GetSamAcc] returns exactly the [Acc] field that [GetSamAlnDetails]
    computes for the same record. *)
Theorem GetSamAcc_equals_details_Acc (r : SamRecord) (aux : AuxValue) (v : Z) :
  Tag "NM" (AuxFields r) = Some aux ->
  Spec.stored_int aux = Some v ->
  exists d, GetSamAlnDetails r = Ok d /\ GetSamAcc r = Ok (Acc d).
Proof.
  intros Htag Hint. rewrite GetSamAcc_refines.
  unfold GetSamAlnDetails. rewrite Htag.
  destruct aux; simpl in Hint; try discriminate; cbn [nm_to_int];
    eexists; split; reflexivity.
Qed.

Lemma GetSamAcc_equals_details_Acc_witness :
  exists d, GetSamAlnDetails rec_10eq = Ok d /\ GetSamAcc rec_10eq = Ok (Acc d).
Proof.
  apply (GetSamAcc_equals_details_Acc rec_10eq (VUint8 1) 1); reflexivity.
Defined.

(** The example of the specification: CIGAR [10=] with edit distance 1
    scores 90. *)
Example accuracy_10eq :
  GetSamAcc rec_10eq = Ok 90%float /\
  exists d, GetSamAlnDetails rec_10eq = Ok d /\ Len d = 10 /\
            Acc d = 90%float /\ WAcc d = 900%float.
Proof. split; [vm_compute; reflexivity|]. eexists. split; [reflexivity|]. vm_compute. auto. Qed.

(** On the sample record with CIGAR [5S]: [GetSamAlnDetails] returns
    normally with the accuracy and the weighted contribution both NaN,
    and with that record in the stream both means of the summary are NaN
    as well. *)
Theorem zero_length_division_unguarded :
  GetSamMapped rec_clipped = true /\
  Spec.L rec_clipped = 0 /\
  (exists d, GetSamAlnDetails rec_clipped = Ok d /\ Len d = 0 /\
             PrimFloat.is_nan (Acc d) = true /\ PrimFloat.is_nan (WAcc d) = true) /\
  PrimFloat.is_nan (MeanAcc (totals_of [rec_10eq; rec_clipped])) = true /\
  PrimFloat.is_nan (WeightedAcc (totals_of [rec_10eq; rec_clipped])) = true.
Proof.
  split; [reflexivity|]. split; [reflexivity|]. split.
  - eexists. split; [reflexivity|]. vm_compute. auto.
  - vm_compute. auto.
Qed.

(** The same for every record of aligned length 0 and edit distance 0. *)
Lemma zero_length_zero_distance_nan (r : SamRecord) (d : AlnDetails) :
  GetSamAlnDetails r = Ok d -> Len d = 0 -> Mismatch d = 0 ->
  PrimFloat.is_nan (Acc d) = true /\ PrimFloat.is_nan (WAcc d) = true.
Proof.
  unfold GetSamAlnDetails.
  destruct (Tag "NM" (AuxFields r)) as [a|]; [|discriminate].
  destruct (nm_to_int a) as [e|]; [|discriminate].
  intros H Hlen Hmis. inversion H; subst d; clear H.
  cbn [Len Mismatch Acc WAcc] in *. rewrite Hlen, Hmis.
  split; vm_compute; reflexivity.
Qed.

(** With a non-zero edit distance the quotient is infinite instead. *)
Example zero_length_nonzero_distance :
  GetSamAcc {| QName := "r"; RefName := "chr1"; Pos := 0; MapQ := 0; Cigar := [];
               Flags := 0; Seq := ""; Qual := ""; AuxFields := [("NM", VInt32 2)] |}
  = Ok neg_infinity.
Proof. vm_compute. reflexivity. Qed.

(** ** Stage [AccStats] *)

Lemma decodable_cons r input :
  decodable (r :: input) = true ->
  (GetSamMapped r = true -> is_ok (GetSamAlnDetails r) = true) /\ decodable input = true.
Proof.
  unfold decodable. cbn [forallb]. intros H.
  apply andb_true_iff in H as [Hr Hrest]. split; [|exact Hrest].
  intros Hm. rewrite Hm in Hr. exact Hr.
Qed.

(** The loop over the input, from any state: every record is sent on, in
    order, and the mapped ones are added to the locals. *)
Lemma acc_loop_ok input : forall s : StageState AccLocals,
  decodable input = true ->
  range_chan acc_stats_body input s
  = (Ok tt, mkStageState (so_fs s) (so_out s ++ input) (so_closed s)
                         (fold_left accumulate (mapped_records input) (so_locals s))).
Proof.
  induction input as [|r input IH]; intros s Hdec.
  - simpl. unfold ret. rewrite app_nil_r. destruct s; reflexivity.
  - apply decodable_cons in Hdec as [Hr Hdec].
    cbn [range_chan]. unfold bind at 1. unfold acc_stats_body, mapped_records.
    cbn [List.filter].
    destruct (GetSamMapped r) eqn:Hm.
    + specialize (Hr eq_refl).
      cbn [fold_left]. unfold accumulate at 2.
      destruct (GetSamAlnDetails r) as [d|msg] eqn:Hd; [|discriminate].
      cbn. rewrite IH by exact Hdec. cbn.
      rewrite <- app_assoc. reflexivity.
    + cbn. rewrite IH by exact Hdec. cbn.
      rewrite <- app_assoc. reflexivity.
Qed.

(** A mapped record without a usable tag stops the stage there: the
    records before it have been sent, it and the rest have not. *)
Lemma acc_loop_abort (before after : list SamRecord) (r : SamRecord) (msg : string) :
  forall s : StageState AccLocals,
  decodable before = true ->
  GetSamMapped r = true ->
  GetSamAlnDetails r = Abort msg ->
  exists s', range_chan acc_stats_body (before ++ r :: after) s = (Abort msg, s') /\
             so_out s' = so_out s ++ before /\ so_closed s' = so_closed s.
Proof.
  induction before as [|b before IH]; intros s Hdec Hm Hd.
  - cbn [app range_chan]. unfold bind at 1. unfold acc_stats_body.
    rewrite Hm, Hd. cbn. eexists. split; [reflexivity|].
    cbn. rewrite app_nil_r. auto.
  - assert (Hd1 : decodable [b] = true).
    { unfold decodable in *. cbn [forallb] in *.
      apply andb_true_iff in Hdec as [Hb _]. rewrite Hb. reflexivity. }
    apply decodable_cons in Hdec as [Hb Hdec].
    cbn [app range_chan]. unfold bind at 1.
    pose proof (acc_loop_ok [b] s Hd1) as Hone.
    cbn [range_chan] in Hone. unfold bind at 1 in Hone.
    destruct (acc_stats_body b s) as [[[]|m] s1] eqn:Hs1; [|discriminate].
    unfold ret in Hone.
    assert (Hs1' : s1 = mkStageState (so_fs s) (so_out s ++ [b]) (so_closed s)
                         (fold_left accumulate (mapped_records [b]) (so_locals s)))
      by congruence.
    destruct (IH s1 Hdec Hm Hd) as (s' & Hrun & Hout & Hcl).
    exists s'. split; [exact Hrun|]. rewrite Hout, Hcl, Hs1'. cbn.
    rewrite <- app_assoc. auto.
Qed.

Section AccStatsFacts.
Variable Sprintf_3f : float -> string.

(** A whole run with the destination key set: the stage ends normally,
    has sent its whole input, has closed its output, and has handed the
    two lines to whatever handle it holds. *)
Lemma run_AccStats_ok (yaml : YamlNode) (input : list SamRecord) (fs : FileSys)
    (path : string) :
  Y.String (Y.Get "Tsv" yaml) = Ok path ->
  decodable input = true ->
  run_AccStats Sprintf_3f yaml input fs
  = (Ok tt,
     mkStageState
       (write_summary (fst (open_tsv path fs)) summary_header
          (summary_line Sprintf_3f (totals_of (mapped_records input)))
          (snd (open_tsv path fs)))
       input true (totals_of (mapped_records input))).
Proof.
  intros Htsv Hdec.
  unfold run_AccStats, BamToolAccStats, open_tsv, write_summary, totals_of.
  unfold bind at 1. rewrite Htsv. cbn [checkError]. unfold ret at 1.
  unfold bind at 1.
  destruct (String.eqb path "-") eqn:Hp; cbn [negb].
  - unfold ret at 1. unfold bind at 1.
    rewrite acc_loop_ok by exact Hdec. cbn [so_fs so_out so_closed so_locals stage_start].
    cbn [app]. unfold bind, gets, with_fs, close_out, modify. cbn.
    reflexivity.
  - unfold with_fs at 1. cbn [stage_start so_fs so_out so_closed so_locals].
    destruct (os.Create path fs) as [[fh err] fs'] eqn:Hc. cbn [fst snd].
    unfold bind at 1.
    rewrite acc_loop_ok by exact Hdec. cbn [so_fs so_out so_closed so_locals].
    cbn [app]. unfold bind, gets, with_fs, close_out, modify. cbn.
    destruct (os.WriteString fh summary_header fs') as [o1 fs1].
    cbn. destruct (os.WriteString fh _ fs1) as [o2 fs2]. reflexivity.
Qed.
(** C8. With the destination key set and every mapped record carrying a
    usable tag, the stage sends every record of its input, mapped or
    not, unchanged, once and in arrival order, then closes its output; a
    record counts as mapped exactly when bit 2 (the unmapped flag) of
    its flags is clear; and the totals are those of the mapped records
    alone. *)
Theorem AccStats_forwards_every_record (yaml : YamlNode) (input : list SamRecord)
    (fs : FileSys) (path : string) :
  Y.String (Y.Get "Tsv" yaml) = Ok path ->
  decodable input = true ->
  exists st,
    run_AccStats Sprintf_3f yaml input fs = (Ok tt, st) /\
    so_out st = input /\
    so_closed st = true /\
    (forall r, GetSamMapped r = true <-> Z.testbit (Flags r) 2 = false) /\
    so_locals st = totals_of (List.filter Spec.mapped input).
Proof.
  intros Htsv Hdec. eexists. split; [apply (run_AccStats_ok _ _ _ path Htsv Hdec)|].
  cbn [so_out so_closed so_locals]. repeat split.
  - intros Hm. rewrite GetSamMapped_flag in Hm. now apply negb_true_iff in Hm.
  - intros Hb. rewrite GetSamMapped_flag, Hb. reflexivity.
  - unfold mapped_records. f_equal. apply List.filter_ext.
    intros r. apply GetSamMapped_flag.
Qed.
End AccStatsFacts.

Lemma AccStats_forwards_every_record_witness :
  exists st,
    run_AccStats (fun _ => "0.000") (YMap [("Tsv", YStr "-")])
                 [rec_10eq; rec_unmapped; rec_10eq] fs_empty = (Ok tt, st) /\
    so_out st = [rec_10eq; rec_unmapped; rec_10eq] /\
    so_closed st = true /\
    (forall r, GetSamMapped r = true <-> Z.testbit (Flags r) 2 = false) /\
    so_locals st = totals_of (List.filter Spec.mapped [rec_10eq; rec_unmapped; rec_10eq]).
Proof.
  apply (AccStats_forwards_every_record (fun _ => "0.000") (YMap [("Tsv", YStr "-")])
           [rec_10eq; rec_unmapped; rec_10eq] fs_empty "-"); reflexivity.
Defined.

(** The unmapped record of the example above has no tag at all, and a
    mapped record without one stops the stage. *)
Example AccStats_missing_tag_aborts :
  exists st,
    run_AccStats (fun _ => "0.000") (YMap [("Tsv", YStr "-")])
      [rec_10eq; {| QName := "r"; RefName := "chr1"; Pos := 0; MapQ := 0;
                    Cigar := [mkCigarOp CigarMatch 4]; Flags := 0; Seq := "";
                    Qual := ""; AuxFields := [] |}; rec_10eq] fs_empty
    = (Abort "no NM tag", st) /\ so_out st = [rec_10eq] /\ so_closed st = false.
Proof. eexists. split; [reflexivity|]. split; reflexivity. Qed.

(** When [os.Create] fails the stage holds a nil handle, and both writes
    on it leave the files as they were. *)
Lemma open_tsv_uncreatable (path : string) (fs : FileSys) (header line : string) :
  path <> "-" ->
  path ∈ fs_uncreatable fs ->
  fst (open_tsv path fs) = FNil /\
  write_summary (fst (open_tsv path fs)) header line (snd (open_tsv path fs)) = fs.
Proof.
  intros Hne Hin. unfold open_tsv, write_summary.
  apply String.eqb_neq in Hne. rewrite Hne.
  unfold os.Create. destruct (decide (path ∈ fs_uncreatable fs)) as [_|Hn]; [|contradiction].
  cbn. auto.
Qed.

(** C7. With a summary destination that cannot be created the stage does
    not abort: it runs to its normal end, has sent the whole stream on and
    closed its output, and the two summary lines are lost; no file, no
    standard stream and no log line differs from before the run. *)
Theorem AccStats_unwritable_tsv_not_fatal (Sprintf_3f : float -> string) :
  fs_files fs_unwritable !! tsv_unwritable = None /\
  fst (os.Create tsv_unwritable fs_unwritable) = (FNil, Abort ("open " +:+ tsv_unwritable +:+ ": cannot create")) /\
  run_AccStats Sprintf_3f (YMap [("Tsv", YStr tsv_unwritable)])
               [rec_10eq; rec_unmapped; rec_10eq] fs_unwritable
  = (Ok tt, mkStageState fs_unwritable [rec_10eq; rec_unmapped; rec_10eq] true
                         (totals_of [rec_10eq; rec_10eq])).
Proof.
  split; [reflexivity|]. split; [reflexivity|].
  rewrite (run_AccStats_ok Sprintf_3f (YMap [("Tsv", YStr tsv_unwritable)])
             [rec_10eq; rec_unmapped; rec_10eq] fs_unwritable tsv_unwritable
             eq_refl eq_refl).
  assert (Hin : tsv_unwritable ∈ fs_uncreatable fs_unwritable).
  { unfold fs_unwritable. cbn [fs_uncreatable]. set_solver. }
  assert (Hne : tsv_unwritable <> "-") by discriminate.
  destruct (open_tsv_uncreatable tsv_unwritable fs_unwritable summary_header
              (summary_line Sprintf_3f
                 (totals_of (mapped_records [rec_10eq; rec_unmapped; rec_10eq])))
              Hne Hin) as [_ Hw].
  rewrite Hw. reflexivity.
Qed.

(** The same on any stream and any destination that cannot be created. *)
Lemma AccStats_unwritable_tsv_general (Sprintf_3f : float -> string)
    (yaml : YamlNode) (input : list SamRecord) (fs : FileSys) (path : string) :
  Y.String (Y.Get "Tsv" yaml) = Ok path ->
  path <> "-" ->
  path ∈ fs_uncreatable fs ->
  decodable input = true ->
  run_AccStats Sprintf_3f yaml input fs
  = (Ok tt, mkStageState fs input true (totals_of (mapped_records input))).
Proof.
  intros Htsv Hne Hin Hdec.
  rewrite (run_AccStats_ok Sprintf_3f _ _ _ path Htsv Hdec).
  destruct (open_tsv_uncreatable path fs summary_header
              (summary_line Sprintf_3f (totals_of (mapped_records input))) Hne Hin)
    as [_ Hw].
  rewrite Hw. reflexivity.
Qed.

(** ** NaN goes through sums and quotients *)

Lemma is_nan_SF (x : float) : Prim2SF x = S754_nan -> PrimFloat.is_nan x = true.
Proof.
  intros H. unfold PrimFloat.is_nan. rewrite FloatAxioms.eqb_spec, H. reflexivity.
Qed.

Lemma add_nan_l (x y : float) : Prim2SF x = S754_nan -> Prim2SF (x + y) = S754_nan.
Proof. intros H. rewrite FloatAxioms.add_spec, H. reflexivity. Qed.

Lemma add_nan_r (x y : float) : Prim2SF y = S754_nan -> Prim2SF (x + y) = S754_nan.
Proof.
  intros H. rewrite FloatAxioms.add_spec, H. destruct (Prim2SF x); reflexivity.
Qed.

Lemma div_nan_l (x y : float) : Prim2SF x = S754_nan -> Prim2SF (x / y) = S754_nan.
Proof. intros H. rewrite FloatAxioms.div_spec, H. reflexivity. Qed.

Lemma zero_length_quotient (e : Z) :
  0 <= e < 2 ^ 53 ->
  (e = 0 -> Prim2SF ((1 - GoFloat.of_int e / GoFloat.of_int 0) * 100) = S754_nan) /\
  (0 < e -> ((1 - GoFloat.of_int e / GoFloat.of_int 0) * 100)%float = neg_infinity) /\
  Prim2SF (((1 - GoFloat.of_int e / GoFloat.of_int 0) * 100) * GoFloat.of_int 0) = S754_nan.
Proof.
  intros He.
  destruct (Z.eq_dec e 0) as [->|Hne].
  - split; [intros _; vm_compute; reflexivity|].
    split; [lia|vm_compute; reflexivity].
  - assert (Hq : (GoFloat.of_int e / GoFloat.of_int 0)%float = infinity).
    { destruct (of_int_positive_finite e ltac:(lia)) as (m & ex & Hfin).
      apply Prim2SF_inj. rewrite FloatAxioms.div_spec, Hfin. reflexivity. }
    rewrite Hq. split; [contradiction|].
    split; [intros _; vm_compute; reflexivity|vm_compute; reflexivity].
Qed.

Lemma sums_stay_nan (rs : list SamRecord) : forall a : AccLocals,
  (Prim2SF (wAccSum a) = S754_nan ->
   Prim2SF (wAccSum (fold_left accumulate rs a)) = S754_nan) /\
  (Prim2SF (accSum a) = S754_nan ->
   Prim2SF (accSum (fold_left accumulate rs a)) = S754_nan).
Proof.
  induction rs as [|r rs IH]; intros a; [auto|].
  cbn [fold_left]. unfold accumulate at 2 4.
  destruct (GetSamAlnDetails r) as [info|msg]; [|apply IH].
  destruct (IH (acc_add a info)) as [Hw Ha].
  split; intros H; [apply Hw|apply Ha]; cbn [acc_add wAccSum accSum];
    apply add_nan_l; exact H.
Qed.

Lemma mapped_records_split (before after : list SamRecord) (r : SamRecord) :
  GetSamMapped r = true ->
  mapped_records (before ++ r :: after)
  = mapped_records before ++ r :: mapped_records after.
Proof.
  intros Hm. unfold mapped_records. rewrite List.filter_app. cbn [List.filter].
  rewrite Hm. reflexivity.
Qed.

(** C9 (amended). A mapped record of aligned length 0 is no failure, and
    it is not guarded either: the division by the zero denominator is
    carried out in float64.  The record gets the accuracy NaN when its
    edit distance is 0 and minus infinity when it is positive, and the
    weighted accuracy NaN; the stage sends the record on like any other
    and ends normally, and because the NaN has gone into the running sum
    the weighted mean of the summary is NaN whatever the other records
    are, and so is the plain mean when the edit distance is 0. *)
Theorem zero_length_gives_nan_not_failure (Sprintf_3f : float -> string)
    (yaml : YamlNode) (before after : list SamRecord) (r : SamRecord) (d : AlnDetails)
    (fs : FileSys) (path : string) :
  Y.String (Y.Get "Tsv" yaml) = Ok path ->
  decodable (before ++ r :: after) = true ->
  GetSamMapped r = true ->
  GetSamAlnDetails r = Ok d ->
  Len d = 0 ->
  0 <= Mismatch d < 2 ^ 53 ->
  (Mismatch d = 0 -> PrimFloat.is_nan (Acc d) = true) /\
  (0 < Mismatch d -> Acc d = neg_infinity) /\
  PrimFloat.is_nan (WAcc d) = true /\
  exists st,
    run_AccStats Sprintf_3f yaml (before ++ r :: after) fs = (Ok tt, st) /\
    so_out st = before ++ r :: after /\ so_closed st = true /\
    so_fs st = write_summary (fst (open_tsv path fs)) summary_header
                 (summary_line Sprintf_3f (so_locals st)) (snd (open_tsv path fs)) /\
    PrimFloat.is_nan (WeightedAcc (so_locals st)) = true /\
    (Mismatch d = 0 -> PrimFloat.is_nan (MeanAcc (so_locals st)) = true).
Proof.
  intros Htsv Hdec Hm Hd Hlen He.
  assert (Hshape : Acc d = ((1 - GoFloat.of_int (Mismatch d) / GoFloat.of_int 0) * 100)%float
                   /\ WAcc d = (Acc d * GoFloat.of_int 0)%float).
  { revert Hd Hlen. unfold GetSamAlnDetails.
    destruct (Tag "NM" (AuxFields r)) as [a|]; [|discriminate].
    destruct (nm_to_int a) as [e|]; [|discriminate].
    intros H; inversion H; subst d; clear H. cbn [Len Mismatch Acc WAcc].
    intros ->. split; reflexivity. }
  destruct Hshape as [HAcc HWAcc].
  destruct (zero_length_quotient (Mismatch d) He) as (Hnan & Hinf & Hw).
  rewrite <- HAcc in Hnan, Hinf, Hw. rewrite <- HWAcc in Hw.
  split; [intros H0; apply is_nan_SF, Hnan, H0|].
  split; [exact Hinf|].
  split; [apply is_nan_SF, Hw|].
  eexists. split; [apply (run_AccStats_ok Sprintf_3f yaml _ fs path Htsv Hdec)|].
  cbn [so_out so_closed so_fs so_locals].
  split; [reflexivity|]. split; [reflexivity|]. split; [reflexivity|].
  rewrite (mapped_records_split before after r Hm).
  unfold totals_of. rewrite fold_left_app. cbn [fold_left].
  set (a0 := fold_left accumulate (mapped_records before) acc_init).
  assert (Hstep : accumulate a0 r = acc_add a0 d) by (unfold accumulate; rewrite Hd; reflexivity).
  rewrite Hstep.
  destruct (sums_stay_nan (mapped_records after) (acc_add a0 d)) as [Hws Has].
  split.
  - apply is_nan_SF. unfold WeightedAcc. apply div_nan_l, Hws.
    cbn [acc_add wAccSum]. apply add_nan_r, Hw.
  - intros H0. apply is_nan_SF. unfold MeanAcc. apply div_nan_l, Has.
    cbn [acc_add accSum]. apply add_nan_r, Hnan, H0.
Qed.

(** A clipped read between two ordinary ones. *)
Lemma zero_length_gives_nan_not_failure_witness :
  exists st,
    run_AccStats Toy.Sprintf_3f Toy.acc_yaml ([rec_10eq] ++ rec_clipped :: [rec_at2]) fs_empty
      = (Ok tt, st) /\
    so_out st = [rec_10eq; rec_clipped; rec_at2] /\
    PrimFloat.is_nan (WeightedAcc (so_locals st)) = true /\
    PrimFloat.is_nan (MeanAcc (so_locals st)) = true.
Proof.
  destruct (GetSamAlnDetails rec_clipped) as [d|msg] eqn:Hd; [|vm_compute in Hd; discriminate].
  pose proof Hd as Hv. vm_compute in Hv. inversion Hv; subst d; clear Hv.
  destruct (zero_length_gives_nan_not_failure Toy.Sprintf_3f Toy.acc_yaml
              [rec_10eq] [rec_at2] rec_clipped _ fs_empty "-"
              eq_refl eq_refl eq_refl Hd eq_refl)
    as (_ & _ & _ & st & Hrun & Hout & _ & _ & Hw & Hmean).
  - vm_compute. split; [discriminate|reflexivity].
  - exists st. split; [exact Hrun|]. split; [exact Hout|]. split; [exact Hw|].
    apply Hmean. reflexivity.
Defined.

(** C9, as stated, fails: the record with CIGAR [5S] is mapped and has
    aligned length 0; it is neither rejected nor given a value in the
    place of the quotient, its accuracy is the NaN of 0.0/0.0. *)
Lemma zero_length_guard_counterexample :
  ~ (forall r : SamRecord,
       GetSamMapped r = true -> Spec.L r = 0 ->
       match GetSamAlnDetails r with
       | Abort _ => True
       | Ok d => PrimFloat.is_nan (Acc d) = false /\ PrimFloat.is_nan (WAcc d) = false
       end).
Proof.
  intros H. specialize (H rec_clipped eq_refl eq_refl).
  vm_compute in H. destruct H as [H _]. discriminate H.
Qed.

(** ** The means of [AccStats] *)

Lemma scorable_facts (r : SamRecord) :
  scorable r = true ->
  exists e, Spec.edit_distance r = Some e /\ GoInt.in_range e /\
            Forall cigar_op_wf (Cigar r).
Proof.
  unfold scorable. intros H. apply andb_true_iff in H as [He Hc].
  destruct (Spec.edit_distance r) as [e|]; [|discriminate].
  apply andb_true_iff in He as [H1 H2].
  exists e. split; [reflexivity|]. split.
  - unfold GoInt.in_range. lia.
  - apply Forall_forall. intros op Hin.
    rewrite forallb_forall in Hc. apply list_elem_of_In in Hin.
    specialize (Hc op Hin). unfold cigar_op_wf. lia.
Qed.

Lemma L_nonneg (r : SamRecord) : Forall cigar_op_wf (Cigar r) -> 0 <= Spec.L r.
Proof.
  intros Hwf. unfold Spec.L, Spec.M, Spec.I, Spec.D.
  pose proof (total_len_nonneg Spec.is_match _ Hwf).
  pose proof (total_len_nonneg Spec.is_insertion _ Hwf).
  pose proof (total_len_nonneg Spec.is_deletion _ Hwf). lia.
Qed.

Lemma sumZ_L_nonneg (rs : list SamRecord) :
  forallb scorable rs = true -> 0 <= Spec.sumZ (map Spec.L rs).
Proof.
  induction rs as [|r rs IH]; cbn [forallb map]; intros H; [unfold Spec.sumZ; simpl; lia|].
  apply andb_true_iff in H as [Hr Hrs].
  destruct (scorable_facts r Hr) as (e & _ & _ & Hwf).
  pose proof (L_nonneg r Hwf). specialize (IH Hrs).
  unfold Spec.sumZ in *. cbn [foldr]. lia.
Qed.

(** The four running totals after a run over scorable records, from any
    starting totals. *)
Lemma totals_fold (rs : list SamRecord) : forall a : AccLocals,
  forallb scorable rs = true ->
  0 <= totalLen a ->
  totalLen a + Spec.sumZ (map Spec.L rs) <= GoInt.max_int ->
  let a' := fold_left accumulate rs a in
  totalLen a' = totalLen a + Spec.sumZ (map Spec.L rs) /\
  accSum a' = fold_left PrimFloat.add (map Spec.Accuracy rs) (accSum a) /\
  wAccSum a' = fold_left PrimFloat.add (map Spec.Weighted rs) (wAccSum a) /\
  nr a' = Nat.iter (length rs) (fun x => (x + 1)%float) (nr a).
Proof.
  induction rs as [|r rs IH]; intros a Hsc Hpos Hfit; cbv zeta.
  - cbn. unfold Spec.sumZ. cbn. repeat split; lia.
  - cbn [forallb] in Hsc. apply andb_true_iff in Hsc as [Hr Hrs].
    destruct (scorable_facts r Hr) as (e & He & Hrange & Hwf).
    pose proof (L_nonneg r Hwf) as HL.
    pose proof (sumZ_L_nonneg rs Hrs) as Hsum.
    assert (Hcons : Spec.sumZ (map Spec.L (r :: rs)) = Spec.L r + Spec.sumZ (map Spec.L rs))
      by reflexivity.
    rewrite Hcons in *.
    destruct (GetSamAlnDetails_spec r e He Hrange Hwf) as (d & Hd & _ & _ & _ & _ & Hlen & _ & _ & Hacc & Hw).
    { lia. }
    assert (Ha : accumulate a r = acc_add a d) by (unfold accumulate; rewrite Hd; reflexivity).
    cbn [fold_left map length]. rewrite Ha.
    specialize (IH (acc_add a d) Hrs). cbv zeta in IH.
    assert (Htl : totalLen (acc_add a d) = totalLen a + Spec.L r).
    { cbn [acc_add totalLen]. rewrite Hlen. fold (Spec.L r).
      apply add_exact. unfold GoInt.in_range, GoInt.min_int, GoInt.max_int in *. lia. }
    rewrite Htl in IH. feed_lia IH.
    destruct IH as (T1 & T2 & T3 & T4).
    rewrite T1, T2, T3, T4. cbn [acc_add accSum wAccSum nr].
    rewrite Hacc, Hw. rewrite Nat.iter_succ_r.
    repeat split; try reflexivity. lia.
Qed.

Lemma scorable_decodable (input : list SamRecord) :
  forallb scorable (mapped_records input) = true ->
  Spec.sumZ (map Spec.L (mapped_records input)) <= GoInt.max_int ->
  decodable input = true.
Proof.
  unfold decodable, mapped_records.
  induction input as [|r input IH]; cbn [List.filter forallb]; intros Hsc Hfit; [reflexivity|].
  destruct (GetSamMapped r) eqn:Hm; cbn [implb].
  - cbn [forallb map] in *. apply andb_true_iff in Hsc as [Hr Hrs].
    destruct (scorable_facts r Hr) as (e & He & Hrange & Hwf).
    pose proof (L_nonneg r Hwf) as HL.
    pose proof (sumZ_L_nonneg _ Hrs) as Hsum.
    change (Spec.sumZ (Spec.L r :: map Spec.L (List.filter GetSamMapped input)))
      with (Spec.L r + Spec.sumZ (map Spec.L (List.filter GetSamMapped input))) in Hfit.
    destruct (GetSamAlnDetails_spec r e He Hrange Hwf) as (d & Hd & _); [lia|].
    rewrite Hd. cbn [is_ok andb]. apply IH; [exact Hrs|lia].
  - apply IH; assumption.
Qed.

Lemma L_le_sum (rs : list SamRecord) (r : SamRecord) :
  forallb scorable rs = true -> In r rs -> Spec.L r <= Spec.sumZ (map Spec.L rs).
Proof.
  induction rs as [|x rs IH]; cbn [forallb map In]; intros Hsc Hin; [contradiction|].
  apply andb_true_iff in Hsc as [Hx Hrs].
  destruct (scorable_facts x Hx) as (e & _ & _ & Hwf).
  pose proof (L_nonneg x Hwf). pose proof (sumZ_L_nonneg rs Hrs).
  change (Spec.sumZ (Spec.L x :: map Spec.L rs)) with (Spec.L x + Spec.sumZ (map Spec.L rs)).
  destruct Hin as [->|Hin]; [lia|]. specialize (IH Hrs Hin). lia.
Qed.

(** C1. Let the destination key be set, let every mapped record carry an
    integer [NM] tag (in the range of [int]) and a CIGAR of 28-bit
    lengths, and let the aligned lengths of the mapped records sum to at
    most the largest [int].  Then for each mapped record the stage derives
    M, I and D as the total lengths of the match/equal/mismatch, insertion
    and deletion operations, L = M + I + D without the skipped regions,
    Accuracy = (1 - E/L) x 100 and the weighted contribution
    Accuracy x L; and at the end of the stream it writes, after the header
    line, UnweightedMean = sum of Accuracy / count of mapped records and
    WeightedMean = sum of Accuracy x L / sum of L.  All of it is [float64]
    arithmetic, the sums running in arrival order from 0.0; the count is
    kept in a [float64] stepped by 1.0 per mapped record, which is the
    exact count as long as there are at most 2^53 mapped records. *)
Theorem AccStats_reports_accuracy_means (Sprintf_3f : float -> string)
    (yaml : YamlNode) (input : list SamRecord) (fs : FileSys) (path : string) :
  Y.String (Y.Get "Tsv" yaml) = Ok path ->
  forallb scorable (mapped_records input) = true ->
  Spec.sumZ (map Spec.L (mapped_records input)) <= GoInt.max_int ->
  Z.of_nat (length (mapped_records input)) <= 2 ^ 53 ->
  let rs := mapped_records input in
  let line := Sprintf_3f (Spec.UnweightedMean rs) +:+ tab
              +:+ Sprintf_3f (Spec.WeightedMean rs) +:+ nl in
  (forall r, In r rs ->
     exists d, GetSamAlnDetails r = Ok d /\
       MatchMismatch d = Spec.M r /\ Insertion d = Spec.I r /\ Deletion d = Spec.D r /\
       Len d = Spec.M r + Spec.I r + Spec.D r /\
       Acc d = ((1 - GoFloat.of_int (Spec.E r) / GoFloat.of_int (Len d)) * 100)%float /\
       WAcc d = (Acc d * GoFloat.of_int (Len d))%float) /\
  exists st,
    run_AccStats Sprintf_3f yaml input fs = (Ok tt, st) /\
    totalLen (so_locals st) = Spec.sumZ (map Spec.L rs) /\
    accSum (so_locals st) = Spec.fsum (map Spec.Accuracy rs) /\
    wAccSum (so_locals st) = Spec.fsum (map Spec.Weighted rs) /\
    nr (so_locals st) = GoFloat.of_int (Z.of_nat (length rs)) /\
    MeanAcc (so_locals st) = Spec.UnweightedMean rs /\
    WeightedAcc (so_locals st) = Spec.WeightedMean rs /\
    (path = "-" ->
       fs_stderr (so_fs st) = (fs_stderr fs +:+ summary_header) +:+ line) /\
    (path <> "-" -> path ∉ fs_uncreatable fs ->
       fs_files (so_fs st) !! path = Some (summary_header +:+ line)).
Proof.
  intros Htsv Hsc Hfit Hcount rs line. split.
  - intros r Hin.
    assert (Hr : scorable r = true) by (rewrite forallb_forall in Hsc; apply Hsc, Hin).
    destruct (scorable_facts r Hr) as (e & He & Hrange & Hwf).
    pose proof (L_le_sum rs r Hsc Hin) as Hle.
    destruct (GetSamAlnDetails_spec r e He Hrange Hwf) as
      (d & Hd & Hmis & Hm & Hi & Hdl & Hlen & Hacc & Hw & _); [subst rs; lia|].
    exists d. repeat split; try assumption.
    unfold Spec.E. rewrite He. cbn [default]. exact Hacc.
  - pose proof (scorable_decodable input Hsc Hfit) as Hdec.
    eexists. split; [apply (run_AccStats_ok Sprintf_3f yaml input fs path Htsv Hdec)|].
    cbn [so_locals so_fs]. fold rs.
    pose proof (totals_fold rs acc_init Hsc) as T.
    assert (Hfit' : Spec.sumZ (map Spec.L rs) <= GoInt.max_int) by exact Hfit.
    cbn [acc_init totalLen] in T. feed_lia T. cbv zeta in T.
    destruct T as (T1 & T2 & T3 & T4).
    fold (totals_of rs) in T1, T2, T3, T4. cbn [acc_init totalLen accSum wAccSum nr] in *.
    fold GoFloat.incr in T4. fold (GoFloat.count (length rs)) in T4.
    rewrite (count_exact (length rs) Hcount) in T4.
    assert (HM : MeanAcc (totals_of rs) = Spec.UnweightedMean rs).
    { unfold MeanAcc, Spec.UnweightedMean, Spec.fsum. rewrite T2, T4. reflexivity. }
    assert (HW : WeightedAcc (totals_of rs) = Spec.WeightedMean rs).
    { unfold WeightedAcc, Spec.WeightedMean, Spec.fsum. rewrite T1, T3. reflexivity. }
    assert (Hline : summary_line Sprintf_3f (totals_of rs) = line).
    { unfold summary_line. rewrite HM, HW. reflexivity. }
    rewrite Hline.
    split; [lia|]. split; [exact T2|]. split; [exact T3|]. split; [exact T4|].
    split; [exact HM|]. split; [exact HW|]. split.
    + intros ->. reflexivity.
    + intros Hne Hok. unfold open_tsv, write_summary, os.Create.
      apply String.eqb_neq in Hne. rewrite Hne.
      destruct (decide (path ∈ fs_uncreatable fs)) as [Hin|_]; [contradiction|].
      cbn [fst snd os.WriteString fs_files]. rewrite lookup_insert_eq.
      cbn [snd fs_files]. rewrite lookup_insert_eq.
      cbn [snd fs_files]. rewrite lookup_insert_eq. reflexivity.
Qed.

Example means_of_two_10eq :
  Spec.UnweightedMean [rec_10eq; rec_10eq] = 90%float /\
  Spec.WeightedMean [rec_10eq; rec_10eq] = 90%float.
Proof. split; vm_compute; reflexivity. Qed.

(** The example of the specification: two records [10=] with edit
    distance 1 and one unmapped record give 90.0 for both means. *)
Lemma AccStats_reports_accuracy_means_witness :
  exists st,
    run_AccStats Toy.Sprintf_3f (YMap [("Tsv", YStr "-")])
                 [rec_10eq; rec_unmapped; rec_10eq] fs_empty = (Ok tt, st) /\
    MeanAcc (so_locals st) = 90%float /\
    WeightedAcc (so_locals st) = 90%float /\
    so_out st = [rec_10eq; rec_unmapped; rec_10eq].
Proof.
  destruct (AccStats_reports_accuracy_means Toy.Sprintf_3f (YMap [("Tsv", YStr "-")])
              [rec_10eq; rec_unmapped; rec_10eq] fs_empty "-")
    as (_ & st & Hrun & _ & _ & _ & _ & HM & HW & _).
  - reflexivity.
  - reflexivity.
  - vm_compute. discriminate.
  - vm_compute. discriminate.
  - exists st. split; [exact Hrun|].
    rewrite HM, HW. split; [vm_compute; reflexivity|]. split; [vm_compute; reflexivity|].
    assert (Hst : (Ok tt, st) = run_AccStats Toy.Sprintf_3f (YMap [("Tsv", YStr "-")])
                    [rec_10eq; rec_unmapped; rec_10eq] fs_empty) by (symmetry; exact Hrun).
    vm_compute in Hst. inversion Hst. reflexivity.
Defined.


(** ** Stage [AlnContext] *)

Section AlnContextFacts.
Context {Regexp Index Faidx : Type}.
Variable MustCompile : string -> Outcome Regexp.
Variable MatchString : Regexp -> string -> bool.
Variable fai_Create : string -> Outcome (Index * string).
Variable fai_Read : string -> Outcome Index.
Variable fai_NewWithIndex : string -> Index -> Outcome Faidx.
Variable SubSeq : Faidx -> string -> Z -> Z -> Outcome string.
Variable End : SamRecord -> Z.

Variable idx : RefWithFaidx Index Faidx.
Variables regStart regEnd : option Regexp.
Variables leftShift rightShift : Z.

Lemma in_rangeb_true (z : Z) : in_rangeb z = true -> GoInt.in_range z.
Proof.
  unfold in_rangeb, GoInt.in_range. intros H.
  apply andb_true_iff in H as [H1 H2]. lia.
Qed.

(** One side's test in the code is the side's test of the
    specification, whenever the window can be computed and fetched. *)
Lemma flank_matches_side (reg : option Regexp) (r : SamRecord) (pos : Z) :
  side_ok SubSeq idx reg r pos leftShift rightShift = true ->
  flank_matches MatchString SubSeq idx reg (RefName r) pos leftShift rightShift
  = Ok (side_hits MatchString SubSeq idx reg r pos leftShift rightShift).
Proof.
  unfold side_ok, flank_matches, side_hits, window_seq. intros H.
  apply andb_true_iff in H as [H Hf]. apply andb_true_iff in H as [Hl Hr].
  apply in_rangeb_true in Hl, Hr.
  destruct reg as [re|]; [|reflexivity].
  unfold GoInt.add. rewrite !wrap_in_range by assumption.
  destruct (IdxSubSeq SubSeq idx (RefName r) (pos + leftShift) (pos + rightShift));
    [reflexivity|discriminate].
Qed.

(** An unset pattern switches its side off: nothing is fetched, whatever
    the index would have answered. *)
Lemma flank_matches_unset (chrom : string) (pos : Z) :
  flank_matches MatchString SubSeq idx None chrom pos leftShift rightShift = Ok false.
Proof. reflexivity. Qed.

(** The body of the loop on one record. *)
Lemma aln_body_ok (r : SamRecord) (s : StageState unit) :
  windows_ok SubSeq End idx regStart regEnd leftShift rightShift r = true ->
  aln_context_body MatchString SubSeq End idx regStart regEnd leftShift rightShift r s
  = (Ok tt,
     if dropped MatchString SubSeq End idx regStart regEnd leftShift rightShift r
     then s
     else mkStageState (so_fs s) (so_out s ++ [r]) (so_closed s) (so_locals s)).
Proof.
  unfold windows_ok, aln_context_body, dropped. intros H.
  apply andb_true_iff in H as [Hs He].
  unfold bind at 1. rewrite (flank_matches_side regStart r (Pos r) Hs).
  cbn [checkError]. unfold ret at 1.
  destruct (side_hits MatchString SubSeq idx regStart r (Pos r) leftShift rightShift);
    cbn [orb]; [reflexivity|].
  unfold bind at 1. rewrite (flank_matches_side regEnd r (End r) He).
  cbn [checkError]. unfold ret at 1.
  destruct (side_hits MatchString SubSeq idx regEnd r (End r) leftShift rightShift);
    reflexivity.
Qed.

(** A start flank that matches drops the record before the end flank is
    looked at, even one the index could not return. *)
Lemma aln_body_start_hit (r : SamRecord) (s : StageState unit) :
  side_ok SubSeq idx regStart r (Pos r) leftShift rightShift = true ->
  side_hits MatchString SubSeq idx regStart r (Pos r) leftShift rightShift = true ->
  aln_context_body MatchString SubSeq End idx regStart regEnd leftShift rightShift r s
  = (Ok tt, s).
Proof.
  intros Hs Hhit. unfold aln_context_body.
  unfold bind at 1. rewrite (flank_matches_side regStart r (Pos r) Hs), Hhit.
  reflexivity.
Qed.

(** The loop over a whole stream: the records that are not dropped are
    sent on, as they came and in the order they came. *)
Lemma aln_loop_ok (input : list SamRecord) : forall s : StageState unit,
  forallb (windows_ok SubSeq End idx regStart regEnd leftShift rightShift) input = true ->
  range_chan (aln_context_body MatchString SubSeq End idx regStart regEnd
                               leftShift rightShift) input s
  = (Ok tt,
     mkStageState (so_fs s)
       (so_out s ++ List.filter
          (fun r => negb (dropped MatchString SubSeq End idx regStart regEnd
                                  leftShift rightShift r)) input)
       (so_closed s) (so_locals s)).
Proof.
  induction input as [|r input IH]; intros s Hok.
  - cbn. unfold ret. rewrite app_nil_r. destruct s; reflexivity.
  - cbn [forallb] in Hok. apply andb_true_iff in Hok as [Hr Hrest].
    cbn [range_chan List.filter]. unfold bind at 1.
    rewrite (aln_body_ok r s Hr).
    destruct (dropped MatchString SubSeq End idx regStart regEnd leftShift rightShift r);
      cbn [negb]; rewrite (IH _ Hrest); cbn [so_fs so_out so_closed so_locals].
    + reflexivity.
    + rewrite <- app_assoc. reflexivity.
Qed.
End AlnContextFacts.

Section AlnContextStage.
Context {Regexp Index Faidx : Type}.
Variable MustCompile : string -> Outcome Regexp.
Variable MatchString : Regexp -> string -> bool.
Variable fai_Create : string -> Outcome (Index * string).
Variable fai_Read : string -> Outcome Index.
Variable fai_NewWithIndex : string -> Index -> Outcome Faidx.
Variable SubSeq : Faidx -> string -> Z -> Z -> Outcome string.
Variable End : SamRecord -> Z.

Lemma optional_regexp_pattern (y : YamlNode) (reg : option Regexp) (s : StageState unit) :
  pattern_of MustCompile y reg ->
  optional_regexp MustCompile y s = (Ok reg, s).
Proof.
  unfold pattern_of, optional_regexp.
  destruct (Y.String y) as [pat|msg].
  - intros (re & Hre & ->). unfold bind. rewrite Hre. reflexivity.
  - intros ->. reflexivity.
Qed.

(** A key that is absent from the stage's parameters sets no pattern. *)
Lemma pattern_of_absent (key : string) (entries : list (string * YamlNode))
    (reg : option Regexp) :
  assoc key entries = None ->
  pattern_of MustCompile (Y.Get key (YMap entries)) reg -> reg = None.
Proof.
  intros Hk. unfold pattern_of, Y.Get. rewrite Hk. cbn. auto.
Qed.

(** Loading the index touches the files and the log only. *)
Lemma NewRefWitdFaidx_frame (file : string) (cache quiet : bool)
    (s s' : StageState unit) (o : Outcome (RefWithFaidx Index Faidx)) :
  NewRefWitdFaidx fai_Create fai_Read fai_NewWithIndex file cache quiet s = (o, s') ->
  so_out s' = so_out s /\ so_closed s' = so_closed s.
Proof.
  unfold NewRefWitdFaidx, bind, gets, with_fs, checkError, ret, fatal.
  cbn [so_fs so_out so_closed so_locals].
  destruct (fileNotExists (file +:+ ".seqkit.fai") (so_fs s)).
  - destruct (negb quiet); cbn [so_fs so_out so_closed so_locals];
      destruct (os.ReadFile file _) as [text|m]; cbn;
      try (intros H; inversion H; subst; cbn; auto; fail);
      destruct (fai_Create text) as [[ix side]|m]; cbn;
      try (intros H; inversion H; subst; cbn; auto; fail);
      match goal with
      | |- context [os.ReadFile file ?fs'] => destruct (os.ReadFile file fs') as [t2|m2]
      end; cbn;
      try (intros H; inversion H; subst; cbn; auto; fail);
      destruct (fai_NewWithIndex t2 ix) as [fx|m3]; cbn;
      intros H; inversion H; subst; cbn; auto.
  - destruct (os.ReadFile (file +:+ ".seqkit.fai") (so_fs s)) as [side|m]; cbn;
      try (intros H; inversion H; subst; cbn; auto; fail);
      destruct (fai_Read side) as [ix|m]; cbn;
      try (intros H; inversion H; subst; cbn; auto; fail);
      destruct (os.ReadFile file (so_fs s)) as [t2|m2]; cbn;
      try (intros H; inversion H; subst; cbn; auto; fail);
      destruct (fai_NewWithIndex t2 ix) as [fx|m3]; cbn;
      intros H; inversion H; subst; cbn; auto.
Qed.

(** C2. Once the parameters are read and the index is loaded, the stage
    treats every record of its input as follows: it takes the window
    [start+LeftShift, start+RightShift) and the window
    [end+LeftShift, end+RightShift); a side hits when its pattern is
    configured and matches the reference sub-sequence the index returns
    for the side's window; a record with a hit on either side is not
    sent on, every other record is sent on as it came, in arrival order;
    a side whose pattern is absent never hits and fetches nothing.  The
    windows are assumed to lie in the range of [int] and the index to
    return a sequence for each configured side. *)
Theorem AlnContext_drops_on_flank_match
    (yaml : YamlNode) (silent : bool) (input : list SamRecord) (fs : FileSys)
    (ref : string) (leftShift rightShift : Z) (regStart regEnd : option Regexp)
    (idx : RefWithFaidx Index Faidx) (s1 : StageState unit) :
  Y.String (Y.Get "Ref" yaml) = Ok ref ->
  Y.Int (Y.Get "LeftShift" yaml) = Ok leftShift ->
  Y.Int (Y.Get "RightShift" yaml) = Ok rightShift ->
  pattern_of MustCompile (Y.Get "RegexStart" yaml) regStart ->
  pattern_of MustCompile (Y.Get "RegexEnd" yaml) regEnd ->
  NewRefWitdFaidx fai_Create fai_Read fai_NewWithIndex ref false silent (stage_start fs tt)
    = (Ok idx, s1) ->
  forallb (windows_ok SubSeq End idx regStart regEnd leftShift rightShift) input = true ->
  let hit_start r := side_hits MatchString SubSeq idx regStart r (Pos r) leftShift rightShift in
  let hit_end r := side_hits MatchString SubSeq idx regEnd r (End r) leftShift rightShift in
  exists st,
    run_AlnContext MustCompile MatchString fai_Create fai_Read fai_NewWithIndex
                   SubSeq End yaml silent input fs = (Ok tt, st) /\
    so_out st = List.filter (fun r => negb (hit_start r || hit_end r)) input /\
    so_closed st = true /\
    (forall r, In r input -> hit_start r || hit_end r = true -> ~ In r (so_out st)) /\
    (forall r, In r input -> hit_start r || hit_end r = false -> In r (so_out st)) /\
    (regStart = None -> forall r, hit_start r = false) /\
    (regEnd = None -> forall r, hit_end r = false) /\
    (forall chrom pos,
       flank_matches MatchString SubSeq idx None chrom pos leftShift rightShift = Ok false).
Proof.
  intros Href Hls Hrs Hstart Hend Hidx Hok hit_start hit_end.
  destruct (NewRefWitdFaidx_frame _ _ _ _ _ _ Hidx) as [Hout1 Hcl1].
  cbn [stage_start so_out so_closed] in Hout1, Hcl1.
  unfold run_AlnContext, BamToolAlnContext.
  unfold bind at 1. rewrite Href. cbn [checkError]. unfold ret at 1.
  unfold bind at 1. rewrite Hls. cbn [checkError]. unfold ret at 1.
  unfold bind at 1. rewrite Hrs. cbn [checkError]. unfold ret at 1.
  unfold bind at 1. rewrite (optional_regexp_pattern _ regStart _ Hstart).
  unfold bind at 1. rewrite (optional_regexp_pattern _ regEnd _ Hend).
  unfold bind at 1. rewrite Hidx.
  unfold bind at 1.
  rewrite (aln_loop_ok MatchString SubSeq End idx regStart regEnd leftShift rightShift
             input s1 Hok).
  unfold close_out, modify. cbn [so_fs so_out so_closed so_locals].
  rewrite Hout1. cbn [app].
  eexists. split; [reflexivity|]. cbn [so_out so_closed].
  split; [reflexivity|]. split; [reflexivity|].
  split; [|split; [|split; [|split]]].
  - intros r _ Hhit Hin. apply List.filter_In in Hin as [_ Hkeep].
    unfold dropped in Hkeep. fold (hit_start r) (hit_end r) in Hkeep.
    rewrite Hhit in Hkeep. discriminate.
  - intros r Hin Hmiss. apply List.filter_In. split; [exact Hin|].
    unfold dropped. fold (hit_start r) (hit_end r). rewrite Hmiss. reflexivity.
  - intros -> r. reflexivity.
  - intros -> r. reflexivity.
  - intros chrom pos. reflexivity.
Qed.
End AlnContextStage.

(** With [LeftShift = 0] and [RightShift = 5] on a reference that starts
    [ACGTACGT...], a record at position 0 gets the window [0,5), which
    reads [ACGTA]. *)
Example window_at_0 :
  Toy.SubSeq Toy.reference "chr1" (0 + 0) (0 + 5) = Ok "ACGTA".
Proof. reflexivity. Qed.

(** A run with the start pattern [ACGTA] and no end pattern: the record
    at position 0 is dropped, the record at position 2 goes through. *)
Lemma AlnContext_drops_on_flank_match_witness :
  exists st,
    run_AlnContext Toy.MustCompile Toy.MatchString Toy.fai_Create Toy.fai_Read
                   Toy.fai_NewWithIndex Toy.SubSeq Toy.End
                   Toy.aln_yaml false [rec_10eq; rec_at2] Toy.fs_ref = (Ok tt, st) /\
    so_out st = [rec_at2] /\ so_closed st = true.
Proof.
  edestruct (AlnContext_drops_on_flank_match Toy.MustCompile Toy.MatchString
               Toy.fai_Create Toy.fai_Read Toy.fai_NewWithIndex Toy.SubSeq Toy.End
               Toy.aln_yaml false [rec_10eq; rec_at2] Toy.fs_ref
               "ref.fa" 0 5 (Some "ACGTA") None)
    as (st & Hrun & Hout & Hcl & _).
  - reflexivity.
  - reflexivity.
  - reflexivity.
  - exists "ACGTA". split; reflexivity.
  - reflexivity.
  - reflexivity.
  - reflexivity.
  - exists st. split; [exact Hrun|]. split; [|exact Hcl].
    rewrite Hout. reflexivity.
Defined.

(** ** The chain of tool goroutines *)

Section ChainFacts.
Variables (y : YamlNode) (shed : Toolshed) (quiet silent : bool).
Variables (threads last : Z) (lastOut : chan).

Local Abbreviation chain' := (chain y shed quiet silent threads last lastOut).

Lemma known_lookup (tool : string) :
  known shed tool = true -> exists wt, shed !! tool = Some wt.
Proof. unfold known. destruct (shed !! tool) as [wt|]; [eauto|discriminate]. Qed.

Lemma chain_length (tools : list string) : forall rank nextIn nextOut fresh,
  forallb (known shed) tools = true ->
  length (chain' rank tools nextIn nextOut fresh) = length tools.
Proof.
  induction tools as [|tool rest IH]; intros rank nextIn nextOut fresh Hk; [reflexivity|].
  cbn [forallb] in Hk. apply andb_true_iff in Hk as [Ht Hrest].
  destruct (known_lookup tool Ht) as [wt Hwt].
  cbn [chain]. rewrite Hwt. cbn [length]. f_equal. apply IH, Hrest.
Qed.

(** The goroutine at place [i] runs the tool that the [i]-th key names,
    on the sub-document under that key, with rank [i]. *)
Lemma chain_lookup (tools : list string) : forall rank nextIn nextOut fresh i tool,
  forallb (known shed) tools = true ->
  tools !! i = Some tool ->
  exists wt p,
    shed !! tool = Some wt /\
    chain' rank tools nextIn nextOut fresh !! i = Some (Use wt, p) /\
    Yaml p = Y.Get tool y /\ Rank p = rank + Z.of_nat i /\
    Quiet p = quiet /\ Silent p = silent /\ Threads p = threads /\ Shed p = shed.
Proof.
  induction tools as [|t rest IH]; intros rank nextIn nextOut fresh i tool Hk Hi;
    [destruct i; discriminate|].
  cbn [forallb] in Hk. apply andb_true_iff in Hk as [Ht Hrest].
  destruct (known_lookup t Ht) as [wt Hwt].
  cbn [chain]. rewrite Hwt.
  destruct i as [|i]; cbn in Hi.
  - inversion Hi; subst t. exists wt. eexists. split; [exact Hwt|].
    split; [reflexivity|]. cbn. repeat split; lia.
  - destruct (IH (rank + 1) (if rank =? last then lastOut else nextOut)
                 (Some fresh) (S fresh) i tool Hrest Hi)
      as (wt' & p & Hs & Hc & Hy & Hr & Hrest').
    exists wt', p. split; [exact Hs|]. split; [exact Hc|]. split; [exact Hy|].
    split; [lia|exact Hrest'].
Qed.



End ChainFacts.

(** ** The orchestrator *)

Section ToolboxFacts.
Context {Header BamReader : Type}.
Variable NewYaml : string -> Outcome YamlNode.
Variable bam_NewReader : string -> option BamReader.
Variable reader_Header : BamReader -> Header.

Local Abbreviation World' := (World Header BamReader).

Lemma started_step (w : World') (x : ToolFn * BamToolParams)
    (c : list (ToolFn * BamToolParams)) :
  started (mkWorld (w_fs w) (w_chans w ++ [mkChanInfo RecordElem chanCap])
                   (w_tasks w ++ [GoTool (fst x) (snd x)])) c
  = started w (x :: c).
Proof.
  unfold started. cbn [w_fs w_chans w_tasks length replicate map].
  rewrite <- !app_assoc. reflexivity.
Qed.

(** The loop on tools that are all in the shed: it ends normally, having
    started one goroutine per tool and made one channel per round. *)
Lemma launch_loop_known (y : YamlNode) (shed : Toolshed) (quiet silent : bool)
    (threads last : Z) (lastOut : chan) (tools : list string) :
  forall rank nextIn nextOut (w : World'),
  forallb (known shed) tools = true ->
  launch_loop y shed quiet silent threads last lastOut rank tools nextIn nextOut w
  = (Ok tt, started w (chain y shed quiet silent threads last lastOut rank tools
                             nextIn nextOut (length (w_chans w)))).
Proof.
  induction tools as [|tool rest IH]; intros rank nextIn nextOut w Hk.
  - cbn. unfold ret, started. cbn. rewrite !app_nil_r. destruct w; reflexivity.
  - cbn [forallb] in Hk. apply andb_true_iff in Hk as [Ht Hrest].
    destruct (known_lookup shed tool Ht) as [wt Hwt].
    cbn [launch_loop chain]. rewrite Hwt.
    unfold bind at 1. unfold make_chan at 1.
    unfold bind at 1. unfold go at 1, modify at 1. cbn [w_fs w_chans w_tasks].
    rewrite IH by exact Hrest. cbn [w_chans].
    rewrite length_app. cbn [length]. rewrite Nat.add_1_r.
    f_equal. apply (started_step w (Use wt, _)).
Qed.

(** The loop on a list whose first unknown tool is [bad]: the goroutines
    of the tools before it have been started when the loop aborts. *)
Lemma launch_loop_unknown (y : YamlNode) (shed : Toolshed) (quiet silent : bool)
    (threads last : Z) (lastOut : chan) (before after : list string) (bad : string) :
  forall rank nextIn nextOut (w : World'),
  forallb (known shed) before = true ->
  shed !! bad = None ->
  launch_loop y shed quiet silent threads last lastOut rank (before ++ bad :: after)
              nextIn nextOut w
  = (Abort ("Unknown tool:" +:+ bad),
     started w (chain y shed quiet silent threads last lastOut rank before
                      nextIn nextOut (length (w_chans w)))).
Proof.
  induction before as [|tool rest IH]; intros rank nextIn nextOut w Hk Hbad.
  - cbn [app launch_loop chain]. rewrite Hbad. unfold fatal, started. cbn.
    rewrite !app_nil_r. destruct w; reflexivity.
  - cbn [forallb] in Hk. apply andb_true_iff in Hk as [Ht Hrest].
    destruct (known_lookup shed tool Ht) as [wt Hwt].
    cbn [app launch_loop chain]. rewrite Hwt.
    unfold bind at 1. unfold make_chan at 1.
    unfold bind at 1. unfold go at 1, modify at 1. cbn [w_fs w_chans w_tasks].
    rewrite IH by assumption. cbn [w_chans].
    rewrite length_app. cbn [length]. rewrite Nat.add_1_r.
    f_equal. apply (started_step w (Use wt, _)).
Qed.

(** Reading the configuration changes nothing, and gives at least one
    key when it succeeds. *)
Lemma load_config_ok (toolYaml : string) (w w' : World') (y : YamlNode) (ty : list string) :
  load_config NewYaml toolYaml w = (Ok (y, ty), w') -> ty <> [] /\ w' = w.
Proof.
  unfold load_config, bind, checkError, ret, fatal, gets.
  destruct (NewYaml _) as [y0|m]; [|discriminate].
  destruct (Y.GetMapKeys y0) as [ks|m]; [|discriminate].
  destruct ks as [|k ks]; [discriminate|].
  destruct (String.eqb k "Yaml").
  - destruct (Y.String _) as [conf|m]; [|discriminate].
    destruct (os.ReadFile conf (w_fs w)) as [cb|m]; [|discriminate].
    destruct (NewYaml cb) as [y1|m]; [|discriminate].
    intros H. inversion H. split; [discriminate|reflexivity].
  - intros H. inversion H. split; [discriminate|reflexivity].
Qed.

(** What the three constructors leave behind. *)
Lemma NewBamReaderChan_ok (inFile : string) (cp buff threads : Z) (w w1 : World')
    (inChan : chan) (r : option BamReader) :
  NewBamReaderChan bam_NewReader inFile cp buff threads w = (Ok (inChan, r), w1) ->
  inChan = Some (length (w_chans w)) /\
  w_fs w1 = w_fs w /\
  w_chans w1 = w_chans w ++ [mkChanInfo RecordElem cp] /\
  w_tasks w1 = w_tasks w ++ [GoReader r inChan].
Proof.
  destruct w as [fs chans tasks].
  unfold NewBamReaderChan, bind, make_chan, go, modify, gets, checkError, ret, fatal.
  cbv beta iota delta [w_fs w_chans w_tasks].
  destruct (negb (String.eqb inFile "-")).
  - destruct (os.Open inFile fs) as [fh [[]|m]]; cbv beta iota delta [snd]; [|discriminate].
    destruct (os.ReadFile inFile fs) as [text|m]; [|discriminate].
    intros H. inversion H. subst. cbn. auto.
  - intros H. inversion H. subst. cbn. auto.
Qed.

Lemma NewBamSinkChan_ok (cp : Z) (w w1 : World') (outChan doneChan : chan) :
  NewBamSinkChan cp w = (Ok (outChan, doneChan), w1) ->
  outChan = Some (length (w_chans w)) /\
  w_fs w1 = w_fs w /\
  w_chans w1 = w_chans w ++ [mkChanInfo RecordElem cp; mkChanInfo BoolElem 0] /\
  w_tasks w1 = w_tasks w ++ [GoSink outChan doneChan].
Proof.
  destruct w as [fs chans tasks].
  unfold NewBamSinkChan, bind, make_chan, go, modify, ret.
  cbv beta iota delta [w_fs w_chans w_tasks].
  intros H. inversion H. subst. cbn. rewrite <- app_assoc. auto.
Qed.

(** The writer's record channel is made with the byte-buffer size
    [buff]; the parameter [cp] is not used. *)
Lemma NewBamWriterChan_ok (outFile : string) (head : Header) (cp buff threads : Z)
    (w w1 : World') (outChan doneChan : chan) :
  NewBamWriterChan outFile head cp buff threads w = (Ok (outChan, doneChan), w1) ->
  outChan = Some (length (w_chans w)) /\
  w_fs w1 = w_fs w /\
  w_chans w1 = w_chans w ++ [mkChanInfo RecordElem buff; mkChanInfo BoolElem 0] /\
  exists fh, w_tasks w1 = w_tasks w ++ [GoWriter fh head outChan doneChan].
Proof.
  destruct w as [fs chans tasks].
  unfold NewBamWriterChan, bind, make_chan, go, modify, gets, checkError, ret, fatal.
  cbv beta iota delta [w_fs w_chans w_tasks].
  destruct (negb (String.eqb outFile "-")).
  - destruct (os.Open outFile fs) as [fh [[]|m]]; cbv beta iota delta [fst snd];
      [|discriminate].
    intros H. inversion H. subst. cbn. rewrite <- app_assoc. eauto.
  - intros H. inversion H. subst. cbn. rewrite <- app_assoc. eauto.
Qed.

(** The reader and the terminal consumer, as [open_ends] starts them. *)
Lemma open_ends_ok (y : YamlNode) (k0 inFile outFile : string) (threads : Z)
    (w w1 : World') (inChan lastOut doneChan : chan) :
  String.eqb k0 "help" = false ->
  open_ends bam_NewReader reader_Header y k0 inFile outFile threads w
    = (Ok (inChan, lastOut, doneChan), w1) ->
  exists r terminal,
    w_tasks w1 = w_tasks w ++ [GoReader r inChan; terminal] /\
    (terminal = GoSink lastOut doneChan \/
     exists fh head, terminal = GoWriter fh head lastOut doneChan) /\
    inChan = Some (length (w_chans w)) /\
    lastOut = Some (S (length (w_chans w))).
Proof.
  intros Hk. unfold open_ends. rewrite Hk. cbn [negb].
  unfold bind at 1.
  destruct (NewBamReaderChan bam_NewReader inFile chanCap ioBuff threads w)
    as [[[ic r]|m] wr] eqn:Hr; [|discriminate].
  apply NewBamReaderChan_ok in Hr as (Hic & Hfs & Hch & Htk).
  unfold bind at 1.
  assert (Hlen : length (w_chans wr) = S (length (w_chans w))).
  { rewrite Hch, length_app. cbn. lia. }
  destruct (Y.Bool (Y.Get "Sink" y)) as [[|]|m].
  - destruct (NewBamSinkChan chanCap wr) as [[[oc dc]|m] ws] eqn:Hs; [|discriminate].
    apply NewBamSinkChan_ok in Hs as (Hoc & _ & _ & Hts).
    unfold ret. intros H. inversion H. subst inChan lastOut doneChan w1.
    exists r, (GoSink oc dc). rewrite Hts, Htk, <- app_assoc. cbn [app].
    rewrite Hoc, Hlen. subst ic. split; [reflexivity|]. split; [left; reflexivity|]. auto.
  - destruct r as [rd|]; [|discriminate].
    destruct (NewBamWriterChan outFile (reader_Header rd) chanCap ioBuff threads wr)
      as [[[oc dc]|m] ws] eqn:Hs; [|discriminate].
    apply NewBamWriterChan_ok in Hs as (Hoc & _ & _ & fh & Hts).
    unfold ret. intros H. inversion H. subst inChan lastOut doneChan w1.
    exists (Some rd), (GoWriter fh (reader_Header rd) oc dc).
    rewrite Hts, Htk, <- app_assoc. cbn [app].
    rewrite Hoc, Hlen. subst ic. split; [reflexivity|]. split; [right; eauto|]. auto.
  - destruct r as [rd|]; [|discriminate].
    destruct (NewBamWriterChan outFile (reader_Header rd) chanCap ioBuff threads wr)
      as [[[oc dc]|m'] ws] eqn:Hs; [|discriminate].
    apply NewBamWriterChan_ok in Hs as (Hoc & _ & _ & fh & Hts).
    unfold ret. intros H. inversion H. subst inChan lastOut doneChan w1.
    exists (Some rd), (GoWriter fh (reader_Header rd) oc dc).
    rewrite Hts, Htk, <- app_assoc. cbn [app].
    rewrite Hoc, Hlen. subst ic. split; [reflexivity|]. split; [right; eauto|]. auto.
Qed.
(** The run of [BamToolbox] up to the loop, for a configuration that is
    read, has keys, and gets its reader and terminal consumer. *)
Lemma BamToolbox_to_loop (toolYaml inFile outFile : string) (quiet silent : bool)
    (threads : Z) (w w0 w1 : World') (y : YamlNode) (ty : list string)
    (k0 : string) (rest : list string) (inChan lastOut doneChan : chan) :
  load_config NewYaml toolYaml w = (Ok (y, ty), w0) ->
  Y.GetMapKeys y = Ok (k0 :: rest) ->
  open_ends bam_NewReader reader_Header y k0 inFile outFile threads w0
    = (Ok (inChan, lastOut, doneChan), w1) ->
  BamToolbox NewYaml bam_NewReader reader_Header toolYaml inFile outFile quiet silent
             threads w
  = match launch_loop y NewToolshed quiet silent threads
            (Z.of_nat (length (clearKeys (k0 :: rest))) - 1) lastOut 0
            (clearKeys (k0 :: rest)) inChan (Some (length (w_chans w1)))
            (mkWorld (w_fs w1) (w_chans w1 ++ [mkChanInfo RecordElem chanCap])
                     (w_tasks w1)) with
    | (Ok _, w') => (Ok doneChan, w')
    | (Abort msg, w') => (Abort msg, w')
    end.
Proof.
  intros Hload Hkeys Hends.
  destruct (load_config_ok _ _ _ _ _ Hload) as [Hne _].
  unfold BamToolbox. unfold bind at 1. rewrite Hload.
  destruct ty as [|t ty']; [contradiction|]. cbn [length].
  unfold bind at 1. rewrite Hkeys. cbn [checkError]. unfold ret at 1.
  unfold bind at 1. unfold ret at 1.
  unfold bind at 1. rewrite Hends.
  unfold bind at 1. unfold make_chan at 1.
  unfold bind at 1.
  destruct (launch_loop _ _ _ _ _ _ _ _ _ _ _ _) as [[[]|msg] w']; reflexivity.
Qed.

(** C5 (amended). Tool names are checked one at a time, as the chain is
    started.  If a non-reserved key names no tool of the shed, the
    orchestrator aborts with the diagnostic [Unknown tool:] followed by
    the first such key in chain order.  By then the reader and the
    terminal consumer have been started, unless the first key is the
    listing key [help], for which neither is ever started; and the tool
    goroutines of the keys before that key have been started, in order,
    and none for that key or for any key after it. *)
Theorem BamToolbox_unknown_tool_aborts_mid_chain
    (toolYaml inFile outFile : string) (quiet silent : bool)
    (threads : Z) (w w0 w1 : World') (y : YamlNode) (ty : list string)
    (k0 : string) (rest before after : list string) (bad : string)
    (inChan lastOut doneChan : chan) :
  load_config NewYaml toolYaml w = (Ok (y, ty), w0) ->
  Y.GetMapKeys y = Ok (k0 :: rest) ->
  open_ends bam_NewReader reader_Header y k0 inFile outFile threads w0
    = (Ok (inChan, lastOut, doneChan), w1) ->
  clearKeys (k0 :: rest) = before ++ bad :: after ->
  forallb (known NewToolshed) before = true ->
  NewToolshed !! bad = None ->
  exists w' launched,
    BamToolbox NewYaml bam_NewReader reader_Header toolYaml inFile outFile quiet silent
               threads w = (Abort ("Unknown tool:" +:+ bad), w') /\
    (if String.eqb k0 "help"
     then w_tasks w' = w_tasks w ++ map (fun up => GoTool (fst up) (snd up)) launched
     else exists r terminal,
            w_tasks w' = w_tasks w ++ [GoReader r inChan; terminal]
                         ++ map (fun up => GoTool (fst up) (snd up)) launched /\
            (terminal = GoSink lastOut doneChan \/
             exists fh head, terminal = GoWriter fh head lastOut doneChan)) /\
    length launched = length before /\
    (forall i tool, before !! i = Some tool ->
       exists wt p, NewToolshed !! tool = Some wt /\
                    launched !! i = Some (Use wt, p) /\
                    Yaml p = Y.Get tool y /\ Rank p = Z.of_nat i).
Proof.
  intros Hload Hkeys Hends Hsplit Hknown Hbad.
  destruct (load_config_ok _ _ _ _ _ Hload) as [_ ->].
  rewrite (BamToolbox_to_loop toolYaml inFile outFile quiet silent threads w w w1
             y ty k0 rest inChan lastOut doneChan Hload Hkeys Hends).
  rewrite Hsplit.
  rewrite launch_loop_unknown by assumption.
  cbn [w_chans].
  set (launched := chain y NewToolshed quiet silent threads _ lastOut 0 before inChan _ _).
  eexists. exists launched.
  split; [reflexivity|].
  split.
  { unfold started. cbn [w_tasks].
    destruct (String.eqb k0 "help") eqn:Hhelp.
    - unfold open_ends in Hends. rewrite Hhelp in Hends. cbn [negb] in Hends.
      unfold ret in Hends. inversion Hends; subst. reflexivity.
    - destruct (open_ends_ok _ _ _ _ _ _ _ _ _ _ Hhelp Hends)
        as (r & terminal & Htasks & Hterm & _ & _).
      exists r, terminal. split; [|exact Hterm].
      rewrite Htasks, <- app_assoc. reflexivity. }
  split. { apply chain_length, Hknown. }
  intros i tool Hi.
  destruct (chain_lookup y NewToolshed quiet silent threads
              (Z.of_nat (length (before ++ bad :: after)) - 1) lastOut
              before 0 inChan (Some (length (w_chans w1)))
              (length (w_chans w1 ++ [mkChanInfo RecordElem chanCap]))
              i tool Hknown Hi) as (wt & p & Hs & Hc & Hy & Hr & _).
  exists wt, p. split; [exact Hs|]. split; [exact Hc|]. split; [exact Hy|]. lia.
Qed.
End ToolboxFacts.

(** The chain [AlnContext -> AccStats -> Sink] of the specification:
    channel 0 is the reader's, channel 1 the sink's, channel 2 the done
    channel, 3 the one made before the loop, 4 and 5 those made in it. *)
Example chain_sink_run :
  let run := BamToolbox Toy.NewYaml Toy.bam_NewReader Toy.reader_Header
                        Toy.doc_sink "in.bam" "-" false false 4 Toy.w0 in
  fst run = Ok (Some 2%nat) /\
  map (fun up => (fst up, Rank (snd up), InChan (snd up), OutChan (snd up)))
      (tool_tasks (snd run))
  = [ (UseAlnContext, 0, Some 0%nat, Some 3%nat);
      (UseAccStats, 1, Some 3%nat, Some 1%nat) ] /\
  map ch_cap (w_chans (snd run)) = [5000; 5000; 0; 5000; 5000; 5000].
Proof. vm_compute. auto. Qed.


(** C4. In a run that ends in the writer, the writer's record channel is
    made with capacity 131072, the size of the byte buffers, while the
    reader's channel and the channels between stages have capacity 5000. *)
Theorem writer_channel_has_another_capacity :
  let run := BamToolbox Toy.NewYaml Toy.bam_NewReader Toy.reader_Header
                        Toy.doc_write "in.bam" "-" false false 4 Toy.w0 in
  fst run = Ok (Some 2%nat) /\
  (exists rd fh head p,
     w_tasks (snd run)
     = [GoReader rd (Some 0%nat); GoWriter fh head (Some 1%nat) (Some 2%nat);
        GoTool UseAccStats p] /\
     InChan p = Some 0%nat /\ OutChan p = Some 1%nat) /\
  w_chans (snd run) !! 0%nat = Some (mkChanInfo RecordElem 5000) /\
  w_chans (snd run) !! 1%nat = Some (mkChanInfo RecordElem 131072) /\
  w_chans (snd run) !! 3%nat = Some (mkChanInfo RecordElem 5000) /\
  chanCap = 5000 /\ ioBuff = 131072.
Proof.
  cbv zeta. split; [vm_compute; reflexivity|]. split.
  - do 4 eexists. vm_compute. split; [reflexivity|]. split; reflexivity.
  - vm_compute. auto.
Qed.

(** C5, as stated, fails: with the keys [AccStats], [Bogus], [AlnContext]
    the run aborts on [Bogus] after the goroutine of [AccStats] has been
    started. *)
Lemma unknown_tool_after_launch_counterexample :
  ~ (forall msg w',
       BamToolbox Toy.NewYaml Toy.bam_NewReader Toy.reader_Header
                  Toy.doc_bogus "in.bam" "-" false false 4 Toy.w0 = (Abort msg, w') ->
       tool_tasks w' = []).
Proof.
  intros H.
  specialize (H "Unknown tool:Bogus"
                (snd (BamToolbox Toy.NewYaml Toy.bam_NewReader Toy.reader_Header
                        Toy.doc_bogus "in.bam" "-" false false 4 Toy.w0))).
  assert (Hrun : BamToolbox Toy.NewYaml Toy.bam_NewReader Toy.reader_Header
                   Toy.doc_bogus "in.bam" "-" false false 4 Toy.w0
                 = (Abort "Unknown tool:Bogus",
                    snd (BamToolbox Toy.NewYaml Toy.bam_NewReader Toy.reader_Header
                           Toy.doc_bogus "in.bam" "-" false false 4 Toy.w0)))
    by (vm_compute; reflexivity).
  specialize (H Hrun). vm_compute in H. discriminate H.
Qed.

Example unknown_tool_run :
  let run := BamToolbox Toy.NewYaml Toy.bam_NewReader Toy.reader_Header
                        Toy.doc_bogus "in.bam" "-" false false 4 Toy.w0 in
  fst run = Abort "Unknown tool:Bogus" /\
  map fst (tool_tasks (snd run)) = [UseAccStats].
Proof. vm_compute. auto. Qed.

Lemma BamToolbox_unknown_tool_aborts_mid_chain_witness :
  exists w' (launched : list (ToolFn * BamToolParams)) r terminal,
    BamToolbox Toy.NewYaml Toy.bam_NewReader Toy.reader_Header
               Toy.doc_bogus "in.bam" "-" false false 4 Toy.w0
    = (Abort "Unknown tool:Bogus", w') /\
    w_tasks w' = [GoReader r (Some 0%nat); terminal]
                 ++ map (fun up => GoTool (fst up) (snd up)) launched /\
    length launched = 1%nat.
Proof.
  destruct (BamToolbox_unknown_tool_aborts_mid_chain Toy.NewYaml Toy.bam_NewReader
              Toy.reader_Header Toy.doc_bogus "in.bam" "-" false false 4
              Toy.w0 Toy.w0
              (snd (open_ends Toy.bam_NewReader Toy.reader_Header
                      (YMap [("AccStats", Toy.acc_yaml); ("Bogus", YMap []);
                             ("AlnContext", YMap [("Ref", YStr "ref.fa");
                                                  ("LeftShift", YInt 0);
                                                  ("RightShift", YInt 5)])])
                      "AccStats" "in.bam" "-" 4 Toy.w0))
              (YMap [("AccStats", Toy.acc_yaml); ("Bogus", YMap []);
                     ("AlnContext", YMap [("Ref", YStr "ref.fa"); ("LeftShift", YInt 0);
                                          ("RightShift", YInt 5)])])
              ["AccStats"; "Bogus"; "AlnContext"]
              "AccStats" ["Bogus"; "AlnContext"] ["AccStats"] ["AlnContext"] "Bogus"
              (Some 0%nat) (Some 1%nat) (Some 2%nat))
    as (w' & launched & Hrun & Htasks & Hlen & _).
  - vm_compute. reflexivity.
  - reflexivity.
  - vm_compute. reflexivity.
  - reflexivity.
  - reflexivity.
  - reflexivity.
  - change (String.eqb "AccStats" "help") with false in Htasks.
    destruct Htasks as (r & terminal & Htasks & _).
    exists w', launched, r, terminal.
    split; [exact Hrun|]. split; [exact Htasks|exact Hlen].
Defined.

(** After the listing key the same abort finds nothing but the listing
    tool started. *)
Example unknown_tool_after_help :
  let run := BamToolbox (fun _ => Ok (YMap [("help", YBool true); ("Bogus", YMap [])]))
                        Toy.bam_NewReader Toy.reader_Header
                        "{help: true, Bogus: {}}" "in.bam" "-" false false 4 Toy.w0 in
  fst run = Abort "Unknown tool:Bogus" /\
  length (w_tasks (snd run)) = 1%nat /\
  map fst (tool_tasks (snd run)) = [UseListTools].
Proof. vm_compute. auto. Qed.

(** ** The writer *)

Section BamWriterFacts.
Context {Header Encoder : Type}.
Variable enc_new : Header -> Outcome (Encoder * string).
Variable enc_write : Encoder -> SamRecord -> Outcome (Encoder * string).
Variable enc_close : Encoder -> string.

(** Through a handle that [os.Open] returned nothing is ever written. *)
Lemma WriteString_read_only (path s : string) (fs : FileSys) :
  snd (os.WriteString (FOpen path false) s fs) = fs.
Proof. reflexivity. Qed.

Lemma bufio_Flush_read_only (path : string) (b : Bufio) (fs : FileSys) :
  b_wr b = FOpen path false ->
  snd (bufio_Flush b fs) = fs /\ b_wr (fst (bufio_Flush b fs)) = FOpen path false.
Proof.
  intros Hwr. unfold bufio_Flush.
  destruct (b_err b); [auto|].
  destruct (String.eqb (b_buf b) ""); [auto|].
  rewrite Hwr. cbn. auto.
Qed.

Lemma bufio_Write_read_only (path p : string) (b : Bufio) (fs : FileSys) :
  b_wr b = FOpen path false ->
  snd (bufio_Write p b fs) = fs /\ b_wr (fst (bufio_Write p b fs)) = FOpen path false.
Proof.
  intros Hwr. unfold bufio_Write.
  destruct (b_err b); [auto|].
  destruct (_ <=? _); [cbn; auto|].
  apply bufio_Flush_read_only. exact Hwr.
Qed.

Lemma bio_write_read_only (path p : string) (fs : FileSys) (s : WriterState) :
  read_only_state path fs s ->
  exists s', bio_write p s = (Ok tt, s') /\ read_only_state path fs s' /\
             ws_done s' = ws_done s.
Proof.
  intros [Hfs Hwr]. unfold bio_write, modify.
  destruct (bufio_Write_read_only path p (ws_bio s) (ws_fs s) Hwr) as [H1 H2].
  destruct (bufio_Write p (ws_bio s) (ws_fs s)) as [b fs'] eqn:Hw.
  cbn [fst snd] in H1, H2. eexists. split; [reflexivity|].
  unfold read_only_state. cbn. subst. auto.
Qed.

Lemma writer_body_read_only (path : string) (fs : FileSys) (w : option Encoder)
    (rec : SamRecord) (s s' : WriterState) (o : Outcome (option Encoder)) :
  read_only_state path fs s ->
  writer_body enc_write w rec s = (o, s') ->
  read_only_state path fs s' /\ ws_done s' = ws_done s.
Proof.
  intros Hs. unfold writer_body.
  destruct w as [e|]; [|unfold fatal; intros H; inversion H; subst; auto].
  destruct (enc_write e rec) as [[e' bytes]|msg];
    [|unfold fatal; intros H; inversion H; subst; auto].
  destruct (bio_write_read_only path bytes fs s Hs) as (s1 & Hw & Hs1 & Hd1).
  unfold bind at 1. rewrite Hw.
  unfold bind, bio_error, gets, fatal, ret.
  destruct (b_err (ws_bio s1)); intros H; inversion H; subst; rewrite <- Hd1; auto.
Qed.

Lemma writer_loop_read_only (path : string) (fs : FileSys) (input : list SamRecord) :
  forall (w : option Encoder) (s s' : WriterState) (o : Outcome (option Encoder)),
  read_only_state path fs s ->
  writer_loop enc_write w input s = (o, s') ->
  read_only_state path fs s' /\ ws_done s' = ws_done s.
Proof.
  induction input as [|rec rest IH]; intros w s s' o Hs.
  - cbn. unfold ret. intros H. inversion H. subst. auto.
  - cbn [writer_loop]. unfold bind at 1.
    destruct (writer_body enc_write w rec s) as [[w1|m] s1] eqn:Hb.
    + destruct (writer_body_read_only path fs w rec s s1 _ Hs Hb) as [Hs1 Hd1].
      intros H. destruct (IH w1 s1 s' o Hs1 H) as [Hs' Hd']. rewrite Hd', Hd1. auto.
    + destruct (writer_body_read_only path fs w rec s s1 _ Hs Hb) as [Hs1 Hd1].
      intros H. inversion H. subst. auto.
Qed.

(** However the run of the writer goes on a destination opened with
    [os.Open], to its normal end or to an abort, the files and the
    standard streams are afterwards what they were before. *)
Lemma run_writer_read_only (path : string) (head : Header) (buff : Z)
    (input : list SamRecord) (fs : FileSys) :
  ws_fs (snd (run_writer enc_new enc_write enc_close (FOpen path false) head buff input fs))
  = fs.
Proof.
  unfold run_writer, writer_task.
  unfold bind at 1. unfold modify at 1. cbn [ws_fs ws_done].
  set (s0 := mkWriterState fs (mkBufio (FOpen path false) buff "" None) false).
  assert (Hs0 : read_only_state path fs s0) by (split; reflexivity).
  assert (Hnew : exists w0 s1,
            match enc_new head with
            | Abort _ => ret None
            | Ok (e, bytes) =>
                bio_write bytes ;;;
                err <- bio_error ;;
                ret (match err with Some _ => None | None => Some e end)
            end s0 = (Ok w0, s1) /\ read_only_state path fs s1).
  { destruct (enc_new head) as [[e bytes]|msg]; [|exists None, s0; auto].
    destruct (bio_write_read_only path bytes fs s0 Hs0) as (s1 & Hw & Hs1 & _).
    unfold bind at 1. rewrite Hw.
    unfold bind, bio_error, gets, ret. eauto. }
  destruct Hnew as (w0 & s1 & Hw0 & Hs1).
  unfold bind at 1. rewrite Hw0.
  unfold bind at 1.
  destruct (writer_loop enc_write w0 input s1) as [[w|m] s2] eqn:Hl.
  - destruct (writer_loop_read_only path fs input _ s1 s2 _ Hs1 Hl) as [Hs2 _].
    destruct w as [e2|]; [|cbn; apply Hs2].
    destruct (bio_write_read_only path (enc_close e2) fs s2 Hs2) as (s3 & Hw3 & Hs3 & _).
    unfold bind at 1. rewrite Hw3.
    unfold bind, modify. cbn.
    destruct Hs3 as [Hfs3 Hwr3].
    destruct (bufio_Flush_read_only path (ws_bio s3) (ws_fs s3) Hwr3) as [H1 _].
    destruct (bufio_Flush (ws_bio s3) (ws_fs s3)) as [b4 fs4]. cbn in *. congruence.
  - destruct (writer_loop_read_only path fs input _ s1 s2 _ Hs1 Hl) as [Hs2 _].
    cbn. apply Hs2.
Qed.
End BamWriterFacts.

(** C6. A named destination is opened with [os.Open], for reading only.
    When the file does not exist yet the run aborts there, before any
    record is written.  When it exists the writer gets a handle it cannot
    write through: the run of the writer goroutine ends normally and
    signals completion, and the file still holds its old bytes, not the
    encoded stream.  A handle from [os.Create], or the default stream,
    does receive the stream. *)
Theorem named_destination_never_written :
  fst (NewBamWriterChan "out.bam" "hdr" chanCap ioBuff 4 Toy.w0)
    = Abort "open out.bam: no such file or directory" /\
  (let w := mkWorld Toy.fs_out [] [] : World string string in
   fst (NewBamWriterChan "out.bam" "hdr" chanCap ioBuff 4 w) = Ok (Some 0%nat, Some 1%nat) /\
   w_tasks (snd (NewBamWriterChan "out.bam" "hdr" chanCap ioBuff 4 w))
     = [GoWriter (FOpen "out.bam" false) "hdr" (Some 0%nat) (Some 1%nat)]) /\
  (let run := run_writer Toy.enc_new Toy.enc_write Toy.enc_close
                         (FOpen "out.bam" false) "hdr" ioBuff [rec_10eq; rec_at2]
                         Toy.fs_out in
   fst run = Ok tt /\ ws_done (snd run) = true /\
   fs_files (ws_fs (snd run)) !! "out.bam" = Some "old bytes") /\
  (let created := os.Create "out.bam" Toy.fs_out in
   let run := run_writer Toy.enc_new Toy.enc_write Toy.enc_close
                         (fst (fst created)) "hdr" ioBuff [rec_10eq; rec_at2]
                         (snd created) in
   fst run = Ok tt /\
   fs_files (ws_fs (snd run)) !! "out.bam" = Some "BAM1hdr;read1;read4;EOF") /\
  (let run := run_writer Toy.enc_new Toy.enc_write Toy.enc_close
                         (FStd Stdout) "hdr" ioBuff [rec_10eq; rec_at2] Toy.fs_out in
   fst run = Ok tt /\ fs_stdout (ws_fs (snd run)) = "BAM1hdr;read1;read4;EOF").
Proof.
  split; [vm_compute; reflexivity|].
  split; [vm_compute; auto|].
  split; [vm_compute; auto|].
  split; vm_compute; auto.
Qed.

(* ===================================================================== *)
(** * More of the code *)
(* ===================================================================== *)

(** ** Strings *)

Lemma append_assoc (a b c : string) : (a +:+ b) +:+ c = a +:+ (b +:+ c).
Proof.
  induction a as [|x a IH]; [reflexivity|].
  change (String x ((a +:+ b) +:+ c) = String x (a +:+ (b +:+ c))). f_equal. exact IH.
Qed.

Lemma append_nil_r (a : string) : a +:+ "" = a.
Proof.
  induction a as [|x a IH]; [reflexivity|].
  change (String x (a +:+ "") = String x a). f_equal. exact IH.
Qed.

(** ** The monad and the loop over a stream *)

Lemma range_chan_app {S} (body : SamRecord -> M S unit) (l1 l2 : list SamRecord) (s : S) :
  range_chan body (l1 ++ l2) s
  = match range_chan body l1 s with
    | (Ok _, s') => range_chan body l2 s'
    | (Abort msg, s') => (Abort msg, s')
    end.
Proof.
  revert s. induction l1 as [|r l1 IH]; intros s; [reflexivity|].
  cbn [app range_chan]. unfold bind.
  destruct (body r s) as [[[]|msg] s1]; [apply IH|reflexivity].
Qed.

Lemma range_chan_cons {S} (body : SamRecord -> M S unit) (r : SamRecord)
    (input : list SamRecord) (s : S) :
  range_chan body (r :: input) s
  = match body r s with
    | (Ok _, s') => range_chan body input s'
    | (Abort msg, s') => (Abort msg, s')
    end.
Proof. reflexivity. Qed.

Lemma bind_inv {S A B} (c : M S A) (k : A -> M S B) (s s' : S) (o : Outcome B) :
  bind c k s = (o, s') ->
  (exists a s1, c s = (Ok a, s1) /\ k a s1 = (o, s')) \/
  (exists msg, c s = (Abort msg, s') /\ o = Abort msg).
Proof.
  unfold bind. destruct (c s) as [[a|msg] s1]; intros H.
  - left. eauto.
  - right. inversion H; subst. eauto.
Qed.

Lemma checkError_inv {S A} (x : Outcome A) (s s' : S) (o : Outcome A) :
  checkError x s = (o, s') -> s' = s /\ o = x.
Proof. destruct x; cbn; unfold ret, fatal; intros H; inversion H; auto. Qed.

(** ** The listing *)

Lemma sort_Strings_order (o1 o2 : list string) :
  o1 ≡ₚ o2 -> sort_Strings o1 = sort_Strings o2.
Proof.
  intros Hp. unfold sort_Strings.
  apply (Sorted_unique String.le).
  - apply Sorted_merge_sort; apply _.
  - apply Sorted_merge_sort; apply _.
  - rewrite !merge_sort_Permutation. exact Hp.
Qed.

Lemma fold_lines (s : Toolshed) (tools : list string) : forall res,
  fold_left (fun res t => res +:+ tool_line s t) tools res
  = res +:+ String.concat "" (map (tool_line s) tools).
Proof.
  induction tools as [|t tools IH]; intros res.
  - cbn. rewrite append_nil_r. reflexivity.
  - cbn [fold_left map]. rewrite IH.
    destruct tools as [|t2 tools].
    + cbn. rewrite append_nil_r. reflexivity.
    + cbn [map String.concat]. rewrite append_assoc. reflexivity.
Qed.

(** X1. The table [Toolshed.String] returns does not depend on the order in
    which the map is walked: after the two header lines it has one line
    per key, in ascending order of the keys. *)
Theorem Toolshed_String_sorted_whatever_the_walk
    (s : Toolshed) (range_order : list string) :
  range_order ≡ₚ shed_keys s ->
  exists keys,
    Sorted String.le keys /\ keys ≡ₚ shed_keys s /\ NoDup keys /\
    (forall t, t ∈ keys <-> is_Some (s !! t)) /\
    Toolshed_String range_order s
    = listing_header +:+ String.concat "" (map (tool_line s) keys) /\
    Toolshed_String range_order s = Toolshed_String (shed_keys s) s.
Proof.
  intros Hp. exists (sort_Strings range_order).
  assert (Hperm : sort_Strings range_order ≡ₚ shed_keys s).
  { unfold sort_Strings. rewrite merge_sort_Permutation. exact Hp. }
  split; [apply Sorted_merge_sort; apply _|].
  split; [exact Hperm|].
  split. { rewrite Hperm. unfold shed_keys. apply NoDup_fst_map_to_list. }
  split.
  { intros t. rewrite Hperm. unfold shed_keys.
    rewrite list_elem_of_fmap. split.
    - intros ([k v] & -> & Hin). apply elem_of_map_to_list in Hin. cbn. eauto.
    - intros [v Hv]. exists (t, v). split; [reflexivity|].
      apply elem_of_map_to_list. exact Hv. }
  split; [apply fold_lines|].
  unfold Toolshed_String. rewrite (sort_Strings_order _ _ Hp). reflexivity.
Qed.

Example listing_of_NewToolshed :
  Toolshed_String ["help"; "AlnContext"; "AccStats"] NewToolshed
  = "Tool" +:+ tab +:+ "Description" +:+ nl
    +:+ "----" +:+ tab +:+ "-----------" +:+ nl
    +:+ "AccStats" +:+ tab +:+ "calculates mean accuracy weighted by aligment lengths" +:+ nl
    +:+ "AlnContext" +:+ tab
    +:+ "filter records by the sequence context at start and end" +:+ nl
    +:+ "help" +:+ tab +:+ "list all tools with description" +:+ nl.
Proof. vm_compute. reflexivity. Qed.

Lemma Toolshed_String_sorted_whatever_the_walk_witness :
  Toolshed_String ["help"; "AlnContext"; "AccStats"] NewToolshed
  = Toolshed_String (shed_keys NewToolshed) NewToolshed.
Proof.
  destruct (Toolshed_String_sorted_whatever_the_walk NewToolshed
              ["help"; "AlnContext"; "AccStats"]) as (keys & _ & _ & _ & _ & _ & H).
  - apply (bool_decide_unpack _). vm_compute. exact I.
  - exact H.
Defined.

(** ** More on [GetSamAlnDetails] *)

Lemma cigar_step_uncounted (c : CigarCounts) (op : CigarOp) :
  uncounted (op_Type op) = true -> cigar_step c op = c.
Proof. unfold cigar_step. destruct (op_Type op); simpl; intros H; try discriminate; reflexivity. Qed.

Lemma cigar_fold_without_uncounted (cigar : list CigarOp) : forall c,
  fold_left cigar_step (without uncounted cigar) c = fold_left cigar_step cigar c.
Proof.
  induction cigar as [|op cigar IH]; intros c; [reflexivity|].
  unfold without in *. cbn [List.filter fold_left].
  destruct (uncounted (op_Type op)) eqn:Hu; cbn [negb].
  - rewrite (cigar_step_uncounted c op Hu). apply IH.
  - cbn [fold_left]. apply IH.
Qed.

(** The three aligned counters do not see the skipped regions. *)
Lemma cigar_fold_without_skip (cigar : list CigarOp) : forall c c',
  c_mm c = c_mm c' -> c_ins c = c_ins c' -> c_del c = c_del c' ->
  let a := fold_left cigar_step (without is_skip cigar) c in
  let b := fold_left cigar_step cigar c' in
  c_mm a = c_mm b /\ c_ins a = c_ins b /\ c_del a = c_del b.
Proof.
  induction cigar as [|op cigar IH]; intros c c' Hm Hi Hd; cbv zeta; [auto|].
  unfold without in *. cbn [List.filter fold_left].
  destruct (is_skip (op_Type op)) eqn:Hs; cbn [negb].
  - apply IH; unfold cigar_step; destruct (op_Type op); try discriminate; assumption.
  - cbn [fold_left].
    apply IH; unfold cigar_step; destruct (op_Type op); try discriminate;
      cbn [c_mm c_ins c_del]; congruence.
Qed.

Lemma skip_counter_without_skip (cigar : list CigarOp) : forall c,
  c_skip c = 0 -> c_skip (fold_left cigar_step (without is_skip cigar) c) = 0.
Proof.
  induction cigar as [|op cigar IH]; intros c Hc; [exact Hc|].
  unfold without in *. cbn [List.filter].
  destruct (is_skip (op_Type op)) eqn:Hs; cbn [negb fold_left]; [apply IH, Hc|].
  apply IH. unfold cigar_step. destruct (op_Type op); try discriminate; exact Hc.
Qed.

Lemma details_without_skip (r : SamRecord) :
  GetSamAlnDetails (with_Cigar r (without is_skip (Cigar r)))
  = match GetSamAlnDetails r with
    | Ok d => Ok (mkAlnDetails (Mismatch d) (MatchMismatch d) (Insertion d) (Deletion d)
                               0 (Len d) (Acc d) (WAcc d))
    | Abort msg => Abort msg
    end.
Proof.
  unfold GetSamAlnDetails, with_Cigar, cigar_loop. cbn [AuxFields Cigar].
  destruct (Tag "NM" (AuxFields r)) as [a|]; [|reflexivity].
  destruct (nm_to_int a) as [e|]; [|reflexivity].
  destruct (cigar_fold_without_skip (Cigar r) (mkCigarCounts 0 0 0 0)
              (mkCigarCounts 0 0 0 0) eq_refl eq_refl eq_refl) as (E1 & E2 & E3).
  cbn [Mismatch MatchMismatch Insertion Deletion Len Acc WAcc Skip].
  unfold aligned_len. rewrite E1, E2, E3.
  rewrite (skip_counter_without_skip (Cigar r) (mkCigarCounts 0 0 0 0) eq_refl).
  reflexivity.
Qed.

(** X2. Soft clips, hard clips, padding and back operations never change
    what [GetSamAlnDetails] and [GetSamAcc] return; skipped regions change
    the [Skip] field only, so the aligned length and the accuracy of a
    record are those of its CIGAR without them. *)
Theorem details_ignore_clipping_and_skips (r : SamRecord) :
  GetSamAlnDetails (with_Cigar r (without uncounted (Cigar r))) = GetSamAlnDetails r /\
  GetSamAcc (with_Cigar r (without uncounted (Cigar r))) = GetSamAcc r /\
  GetSamAcc (with_Cigar r (without is_skip (Cigar r))) = GetSamAcc r /\
  (forall d d',
     GetSamAlnDetails r = Ok d ->
     GetSamAlnDetails (with_Cigar r (without is_skip (Cigar r))) = Ok d' ->
     Mismatch d' = Mismatch d /\ MatchMismatch d' = MatchMismatch d /\
     Insertion d' = Insertion d /\ Deletion d' = Deletion d /\
     Len d' = Len d /\ Acc d' = Acc d /\ WAcc d' = WAcc d /\ Skip d' = 0).
Proof.
  assert (H1 : GetSamAlnDetails (with_Cigar r (without uncounted (Cigar r)))
               = GetSamAlnDetails r).
  { unfold GetSamAlnDetails, with_Cigar, cigar_loop. cbn [AuxFields Cigar].
    rewrite cigar_fold_without_uncounted. reflexivity. }
  split; [exact H1|]. split; [rewrite !GetSamAcc_refines, H1; reflexivity|].
  split.
  - rewrite !GetSamAcc_refines, details_without_skip.
    destruct (GetSamAlnDetails r); reflexivity.
  - intros d d' Hd Hd'. rewrite details_without_skip, Hd in Hd'.
    inversion Hd'; subst d'. cbn. repeat split.
Qed.

Example clipped_read_details :
  GetSamAlnDetails (with_Cigar rec_10eq [mkCigarOp CigarSoftClipped 3; mkCigarOp CigarEqual 10;
                                          mkCigarOp CigarHardClipped 7])
  = GetSamAlnDetails rec_10eq.
Proof. reflexivity. Qed.

(** ** Perfect alignments *)

(** X3. A record with edit distance 0 and an aligned length between 1 and
    2^53 scores exactly 100, and its weighted contribution is 100 times
    its aligned length. *)
Theorem perfect_alignment_scores_100 (r : SamRecord) (d : AlnDetails) :
  GetSamAlnDetails r = Ok d ->
  Mismatch d = 0 ->
  0 < Len d < 2 ^ 53 ->
  Acc d = 100%float /\ WAcc d = (100 * GoFloat.of_int (Len d))%float /\
  GetSamAcc r = Ok 100%float.
Proof.
  intros Hd Hm Hl.
  assert (Hacc : Acc d = 100%float).
  { revert Hd Hm Hl. unfold GetSamAlnDetails.
    destruct (Tag "NM" (AuxFields r)) as [a|]; [|discriminate].
    destruct (nm_to_int a) as [e|]; [|discriminate].
    intros H; inversion H; subst d; clear H.
    cbn [Mismatch Len Acc]. intros -> Hl.
    destruct (of_int_positive_finite _ Hl) as (m & ex & Hfin).
    assert (Hq : (GoFloat.of_int 0 / GoFloat.of_int (aligned_len (cigar_loop (Cigar r))))%float
                 = 0%float).
    { apply Prim2SF_inj. rewrite div_spec, Hfin. reflexivity. }
    rewrite Hq. vm_compute. reflexivity. }
  split; [exact Hacc|]. split.
  - revert Hd. unfold GetSamAlnDetails.
    destruct (Tag "NM" (AuxFields r)) as [a|]; [|discriminate].
    destruct (nm_to_int a) as [e|]; [|discriminate].
    intros H. rewrite <- Hacc. inversion H; subst d. reflexivity.
  - rewrite GetSamAcc_refines, Hd, Hacc. reflexivity.
Qed.

Lemma perfect_alignment_scores_100_witness :
  GetSamAcc (with_Cigar rec_clipped [mkCigarOp CigarMatch 42]) = Ok 100%float.
Proof.
  destruct (GetSamAlnDetails (with_Cigar rec_clipped [mkCigarOp CigarMatch 42]))
    as [d|msg] eqn:Hd; [|vm_compute in Hd; discriminate].
  pose proof Hd as Hv. vm_compute in Hv. inversion Hv; subst d; clear Hv.
  destruct (perfect_alignment_scores_100 _ _ Hd) as (_ & _ & H).
  - reflexivity.
  - vm_compute. split; reflexivity.
  - exact H.
Defined.


(** ** More on [AccStats] *)

Lemma no_mapped_records (input : list SamRecord) :
  forallb (fun r => negb (GetSamMapped r)) input = true ->
  mapped_records input = [] /\ decodable input = true.
Proof.
  unfold mapped_records, decodable.
  induction input as [|r input IH]; cbn [forallb List.filter]; intros H; [auto|].
  apply andb_true_iff in H as [Hr Hrest]. apply negb_true_iff in Hr.
  rewrite Hr. cbn [implb andb]. apply IH, Hrest.
Qed.

(** X4. On a stream without a mapped record, the empty stream included,
    the stage still sends every record on and closes its output, and the
    two means it writes are both NaN, the quotient of 0.0 by 0.0. *)
Theorem AccStats_without_mapped_records (Sprintf_3f : float -> string)
    (yaml : YamlNode) (input : list SamRecord) (fs : FileSys) (path : string) :
  Y.String (Y.Get "Tsv" yaml) = Ok path ->
  forallb (fun r => negb (GetSamMapped r)) input = true ->
  exists st,
    run_AccStats Sprintf_3f yaml input fs = (Ok tt, st) /\
    so_out st = input /\ so_closed st = true /\
    so_locals st = acc_init /\
    MeanAcc (so_locals st) = nan /\ WeightedAcc (so_locals st) = nan /\
    so_fs st = write_summary (fst (open_tsv path fs)) summary_header
                 (Sprintf_3f nan +:+ tab +:+ Sprintf_3f nan +:+ nl)
                 (snd (open_tsv path fs)).
Proof.
  intros Htsv Hun. destruct (no_mapped_records input Hun) as [Hnone Hdec].
  eexists. split; [apply (run_AccStats_ok Sprintf_3f yaml input fs path Htsv Hdec)|].
  rewrite Hnone. cbn [so_out so_closed so_locals so_fs].
  repeat split.
Qed.

Lemma AccStats_without_mapped_records_witness :
  exists st,
    run_AccStats Toy.Sprintf_3f Toy.acc_yaml [] fs_empty = (Ok tt, st) /\
    MeanAcc (so_locals st) = nan /\ so_closed st = true.
Proof.
  destruct (AccStats_without_mapped_records Toy.Sprintf_3f Toy.acc_yaml [] fs_empty "-")
    as (st & Hrun & _ & Hcl & _ & Hm & _).
  - reflexivity.
  - reflexivity.
  - exists st. auto.
Defined.

(** X5. A mapped record whose [NM] tag is missing or holds no integer
    stops the stage at that record: the records before it have been sent
    on, it and the records after it have not, the output is left open and
    no summary line is written, although a named destination has already
    been created empty. *)
Theorem AccStats_stops_at_first_bad_record (Sprintf_3f : float -> string)
    (yaml : YamlNode) (before after : list SamRecord) (r : SamRecord)
    (fs : FileSys) (path msg : string) :
  Y.String (Y.Get "Tsv" yaml) = Ok path ->
  decodable before = true ->
  GetSamMapped r = true ->
  GetSamAlnDetails r = Abort msg ->
  exists st,
    run_AccStats Sprintf_3f yaml (before ++ r :: after) fs = (Abort msg, st) /\
    so_out st = before /\ so_closed st = false /\
    so_fs st = snd (open_tsv path fs) /\
    so_locals st = totals_of (mapped_records before).
Proof.
  intros Htsv Hdec Hm Hd.
  unfold run_AccStats, BamToolAccStats.
  unfold bind at 1. rewrite Htsv. cbn [checkError]. unfold ret at 1.
  assert (Hloop : forall s : StageState AccLocals,
            range_chan acc_stats_body (before ++ r :: after) s
            = (Abort msg,
               mkStageState (so_fs s) (so_out s ++ before) (so_closed s)
                            (fold_left accumulate (mapped_records before) (so_locals s)))).
  { intros s. rewrite range_chan_app, acc_loop_ok by exact Hdec.
    cbn [range_chan]. unfold bind at 1. unfold acc_stats_body.
    rewrite Hm. unfold bind. rewrite Hd. reflexivity. }
  unfold bind at 1. unfold open_tsv.
  destruct (String.eqb path "-") eqn:Hp; cbn [negb].
  - unfold ret at 1. unfold bind at 1. rewrite Hloop.
    eexists. split; [reflexivity|]. cbn. auto.
  - unfold with_fs at 1. cbn [stage_start so_fs so_out so_closed so_locals].
    destruct (os.Create path fs) as [[fh err] fs'] eqn:Hc. cbn [fst snd].
    unfold bind at 1. rewrite Hloop.
    eexists. split; [reflexivity|]. cbn. auto.
Qed.

Lemma AccStats_stops_at_first_bad_record_witness :
  exists st,
    run_AccStats Toy.Sprintf_3f (YMap [("Tsv", YStr "acc.tsv")])
                 ([rec_10eq] ++ with_aux rec_10eq [] :: [rec_at2]) fs_empty
    = (Abort "no NM tag", st) /\
    so_out st = [rec_10eq] /\
    fs_files (so_fs st) !! "acc.tsv" = Some "".
Proof.
  destruct (AccStats_stops_at_first_bad_record Toy.Sprintf_3f
              (YMap [("Tsv", YStr "acc.tsv")]) [rec_10eq] [rec_at2]
              (with_aux rec_10eq []) fs_empty "acc.tsv" "no NM tag")
    as (st & Hrun & Hout & _ & Hfs & _).
  - reflexivity.
  - reflexivity.
  - reflexivity.
  - reflexivity.
  - exists st. split; [exact Hrun|]. split; [exact Hout|].
    rewrite Hfs. vm_compute. reflexivity.
Defined.

(** ** [AccStats], whatever happens *)

Lemma with_fs_inv {L A} (f : FileSys -> A * FileSys) (s s' : StageState L) (o : Outcome A) :
  with_fs f s = (o, s') ->
  (exists a, o = Ok a) /\ so_out s' = so_out s /\ so_closed s' = so_closed s.
Proof.
  unfold with_fs. destruct (f (so_fs s)) as [a fs']. intros H. inversion H; subst.
  cbn. eauto.
Qed.

Lemma acc_body_any (r : SamRecord) (s s' : StageState AccLocals) (o : Outcome unit) :
  acc_stats_body r s = (o, s') ->
  so_closed s' = so_closed s /\
  match o with
  | Ok _ => so_out s' = so_out s ++ [r]
  | Abort _ => so_out s' = so_out s
  end.
Proof.
  unfold acc_stats_body, bind, checkError, update_locals, send, modify, ret, fatal.
  destruct (GetSamMapped r); [destruct (GetSamAlnDetails r) as [d|m]|];
    intros H; inversion H; subst; cbn; auto.
Qed.

Lemma acc_loop_any (input : list SamRecord) :
  forall (s s' : StageState AccLocals) (o : Outcome unit),
  range_chan acc_stats_body input s = (o, s') ->
  so_closed s' = so_closed s /\
  exists sent, so_out s' = so_out s ++ sent /\ sent `prefix_of` input /\
               (o = Ok tt -> sent = input).
Proof.
  induction input as [|r input IH]; intros s s' o H.
  - cbn in H. unfold ret in H. inversion H; subst. split; [reflexivity|].
    exists []. rewrite app_nil_r. auto.
  - rewrite range_chan_cons in H.
    destruct (acc_stats_body r s) as [[[]|m] s1] eqn:Hb;
      apply acc_body_any in Hb as [Hcl Hout].
    + destruct (IH s1 s' o H) as (Hcl' & sent & Hsent & Hpre & Hall).
      split; [congruence|]. exists (r :: sent).
      split; [rewrite Hsent, Hout, <- app_assoc; reflexivity|].
      split; [apply prefix_cons, Hpre|].
      intros Ho. rewrite (Hall Ho). reflexivity.
    + inversion H; subst. split; [exact Hcl|]. exists [].
      rewrite app_nil_r. split; [exact Hout|]. split; [apply prefix_nil|discriminate].
Qed.

Lemma AccStats_run_any (Sprintf_3f : float -> string) (yaml : YamlNode)
    (input : list SamRecord) (fs : FileSys) (o : Outcome unit)
    (st : StageState AccLocals) :
  run_AccStats Sprintf_3f yaml input fs = (o, st) ->
  so_out st `prefix_of` input /\
  (so_closed st = true <-> o = Ok tt) /\
  (o = Ok tt -> so_out st = input).
Proof.
  unfold run_AccStats, BamToolAccStats. intros H.
  apply bind_inv in H as [(tsvFile & s1 & E & H)|(m & E & ->)];
    apply checkError_inv in E as [-> _].
  2:{ cbn. split; [apply prefix_nil|]. split; [split; discriminate|discriminate]. }
  apply bind_inv in H as [(fh & s1 & E & H)|(m & E & ->)].
  2:{ destruct (negb (String.eqb tsvFile "-")).
      - apply with_fs_inv in E as [[a Ha] _]. discriminate Ha.
      - unfold ret in E. discriminate E. }
  assert (Hs1 : so_out s1 = [] /\ so_closed s1 = false).
  { destruct (negb (String.eqb tsvFile "-")).
    - apply with_fs_inv in E as (_ & Ho & Hc). auto.
    - unfold ret in E. inversion E; subst. auto. }
  destruct Hs1 as [Hout1 Hcl1].
  apply bind_inv in H as [([] & s2 & E2 & H)|(m & E2 & ->)];
    apply acc_loop_any in E2 as (Hcl2 & sent & Hsent & Hpre & Hall);
    rewrite Hout1 in Hsent; cbn [app] in Hsent.
  2:{ rewrite Hsent, Hcl2, Hcl1. split; [exact Hpre|].
      split; [split; discriminate|discriminate]. }
  rewrite (Hall eq_refl) in Hsent.
  apply bind_inv in H as [(a & s3 & E3 & H)|(m & E3 & ->)];
    [|unfold gets in E3; discriminate E3].
  unfold gets in E3. inversion E3; subst s3 a.
  apply bind_inv in H as [(x4 & s4 & E4 & H)|(m & E4 & ->)];
    [|apply with_fs_inv in E4 as [[a Ha] _]; discriminate Ha].
  apply with_fs_inv in E4 as (_ & Hout4 & _).
  apply bind_inv in H as [(x5 & s5 & E5 & H)|(m & E5 & ->)];
    [|apply with_fs_inv in E5 as [[a Ha] _]; discriminate Ha].
  apply with_fs_inv in E5 as (_ & Hout5 & _).
  unfold close_out, modify in H. inversion H; subst o st. cbn [so_out so_closed].
  rewrite Hout5, Hout4, Hsent.
  split; [reflexivity|]. split; [split; reflexivity|reflexivity].
Qed.

(** X24. Whatever the parameters, the files and the records are, the
    stage never drops a record from the middle of its stream, adds none
    and reorders none: what it has sent is always a prefix of its input,
    the whole input when it ends normally, and its output is closed
    exactly when it ends normally. *)
Theorem AccStats_sends_a_prefix_of_its_input (Sprintf_3f : float -> string)
    (yaml : YamlNode) (input : list SamRecord) (fs : FileSys) :
  let run := run_AccStats Sprintf_3f yaml input fs in
  so_out (snd run) `prefix_of` input /\
  (so_closed (snd run) = true <-> fst run = Ok tt) /\
  (fst run = Ok tt -> so_out (snd run) = input).
Proof.
  cbn zeta.
  destruct (run_AccStats Sprintf_3f yaml input fs) as [o st] eqn:E.
  exact (AccStats_run_any Sprintf_3f yaml input fs o st E).
Qed.

(** ** The sidecar index *)

Lemma sidecar_name_differs (file : string) : file +:+ ".seqkit.fai" <> file.
Proof.
  intros H. rewrite <- (append_nil_r file) in H at 2.
  apply (inj (String.app file)) in H. discriminate H.
Qed.

Section IndexFacts.
Context {Index Faidx : Type}.
Variable fai_Create : string -> Outcome (Index * string).
Variable fai_Read : string -> Outcome Index.
Variable fai_NewWithIndex : string -> Index -> Outcome Faidx.

(** X6. A sidecar that is there is taken as it is: the index is what
    [fai.Read] makes of it, or the run aborts with the error of reading
    it; the FASTA file is not indexed again, no file changes and nothing
    is logged. *)
Theorem existing_sidecar_is_trusted (file side : string) (cache quiet : bool)
    (s : StageState unit) :
  fs_files (so_fs s) !! (file +:+ ".seqkit.fai") = Some side ->
  NewRefWitdFaidx fai_Create fai_Read fai_NewWithIndex file cache quiet s
  = match fai_Read side with
    | Abort msg => (Abort msg, s)
    | Ok idx =>
        match os.ReadFile file (so_fs s) with
        | Abort msg => (Abort msg, s)
        | Ok fasta =>
            match fai_NewWithIndex fasta idx with
            | Abort msg => (Abort msg, s)
            | Ok fx => (Ok (mkRefWithFaidx file (file +:+ ".seqkit.fai") idx fx cache), s)
            end
        end
    end.
Proof.
  intros Hside. destruct s as [fs out cl []].
  unfold NewRefWitdFaidx, bind, gets, checkError, ret, fatal, fileNotExists, os.ReadFile.
  cbv beta iota zeta delta [so_fs so_out so_closed so_locals] in *.
  rewrite Hside. cbv beta iota delta [so_fs]. rewrite Hside. cbv beta iota.
  destruct (fai_Read side) as [idx|m]; [|reflexivity].
  cbv beta iota delta [so_fs].
  destruct (fs_files fs !! file) as [fasta|]; [|reflexivity].
  destruct (fai_NewWithIndex fasta idx) as [fx|m]; reflexivity.
Qed.

(** X7. Without a sidecar the index is built from the FASTA file and
    saved beside it under the name of the file followed by [.seqkit.fai];
    no other file changes, and a line is logged unless [quiet] is set.  A
    second call then finds the sidecar, reads it and changes nothing. *)
Theorem absent_sidecar_is_built_once (file fasta side : string) (cache quiet : bool)
    (idx idx2 : Index) (fx fx2 : Faidx) (s : StageState unit) :
  fs_files (so_fs s) !! (file +:+ ".seqkit.fai") = None ->
  fs_files (so_fs s) !! file = Some fasta ->
  fai_Create fasta = Ok (idx, side) ->
  fai_NewWithIndex fasta idx = Ok fx ->
  fai_Read side = Ok idx2 ->
  fai_NewWithIndex fasta idx2 = Ok fx2 ->
  exists s1,
    NewRefWitdFaidx fai_Create fai_Read fai_NewWithIndex file cache quiet s
      = (Ok (mkRefWithFaidx file (file +:+ ".seqkit.fai") idx fx cache), s1) /\
    fs_files (so_fs s1) = <[file +:+ ".seqkit.fai" := side]> (fs_files (so_fs s)) /\
    fs_log (so_fs s1)
      = fs_log (so_fs s) ++ (if quiet then [] else ["create FASTA index for " +:+ file]) /\
    fs_stdout (so_fs s1) = fs_stdout (so_fs s) /\
    fs_stderr (so_fs s1) = fs_stderr (so_fs s) /\
    so_out s1 = so_out s /\ so_closed s1 = so_closed s /\
    NewRefWitdFaidx fai_Create fai_Read fai_NewWithIndex file cache quiet s1
      = (Ok (mkRefWithFaidx file (file +:+ ".seqkit.fai") idx2 fx2 cache), s1).
Proof.
  intros Hnone Hfile Hcreate Hnew Hread Hnew2.
  destruct s as [fs out cl []]. cbv beta iota delta [so_fs so_out so_closed so_locals] in *.
  set (fs1 := mkFileSys (<[file +:+ ".seqkit.fai" := side]> (fs_files fs)) (fs_uncreatable fs)
                        (fs_stdin fs) (fs_stdout fs) (fs_stderr fs)
                        (fs_log fs ++ (if quiet then [] else ["create FASTA index for " +:+ file]))).
  exists (mkStageState fs1 out cl tt).
  assert (Hfile1 : fs_files fs1 !! file = Some fasta).
  { unfold fs1. cbn [fs_files]. rewrite lookup_insert_ne by apply sidecar_name_differs.
    exact Hfile. }
  assert (Hside1 : fs_files fs1 !! (file +:+ ".seqkit.fai") = Some side).
  { unfold fs1. cbn [fs_files]. apply lookup_insert_eq. }
  split.
  - unfold NewRefWitdFaidx, bind, gets, with_fs, checkError, ret, fatal, fileNotExists,
      os.ReadFile, log_Infof.
    cbv beta iota zeta; cbn [so_fs so_out so_closed so_locals].
    destruct quiet;
      repeat (first [ rewrite Hnone | rewrite Hfile | rewrite Hcreate | rewrite Hnew
                    | rewrite lookup_insert_ne by apply sidecar_name_differs ];
              cbv beta iota zeta;
              cbn [negb so_fs so_out so_closed so_locals fst snd fs_files
                   fs_uncreatable fs_stdin fs_stdout fs_stderr fs_log]);
      unfold fs1; rewrite ?app_nil_r; reflexivity.
  - split; [reflexivity|]. split; [reflexivity|].
    split; [reflexivity|]. split; [reflexivity|].
    split; [reflexivity|]. split; [reflexivity|].
    unfold NewRefWitdFaidx, bind, gets, checkError, ret, fatal, fileNotExists, os.ReadFile.
    cbv beta iota zeta; cbn [so_fs].
    rewrite Hside1. cbv beta iota; cbn [so_fs].
    rewrite Hside1, Hread. cbv beta iota; cbn [so_fs].
    rewrite Hfile1, Hnew2. reflexivity.
Qed.
End IndexFacts.

Lemma existing_sidecar_is_trusted_witness :
  fst (NewRefWitdFaidx (fun _ => Abort "never called") Toy.fai_Read Toy.fai_NewWithIndex
         "ref.fa" false false
         (stage_start (mkFileSys {[ "ref.fa" := Toy.reference; "ref.fa.seqkit.fai" := "chr1" ]}
                                 ∅ "" "" "" []) tt))
  = Ok (mkRefWithFaidx "ref.fa" "ref.fa.seqkit.fai" tt Toy.reference false).
Proof.
  rewrite (existing_sidecar_is_trusted (fun _ => Abort "never called") Toy.fai_Read
             Toy.fai_NewWithIndex "ref.fa" "chr1" false false).
  - reflexivity.
  - reflexivity.
Defined.

Lemma absent_sidecar_is_built_once_witness :
  exists s1,
    NewRefWitdFaidx Toy.fai_Create Toy.fai_Read Toy.fai_NewWithIndex "ref.fa" false false
                    (stage_start Toy.fs_ref tt)
    = (Ok (mkRefWithFaidx "ref.fa" "ref.fa.seqkit.fai" tt Toy.reference false), s1) /\
    fs_files (so_fs s1) !! "ref.fa.seqkit.fai" = Some "chr1" /\
    fs_log (so_fs s1) = ["create FASTA index for ref.fa"].
Proof.
  destruct (absent_sidecar_is_built_once Toy.fai_Create Toy.fai_Read Toy.fai_NewWithIndex
              "ref.fa" Toy.reference "chr1" false false tt tt Toy.reference Toy.reference
              (stage_start Toy.fs_ref tt))
    as (s1 & Hrun & Hfiles & Hlog & _); try reflexivity.
  exists s1. split; [exact Hrun|]. split.
  - rewrite Hfiles. reflexivity.
  - rewrite Hlog. reflexivity.
Defined.


Section AlnContextMore.
Context {Regexp Index Faidx : Type}.
Variable MustCompile : string -> Outcome Regexp.
Variable MatchString : Regexp -> string -> bool.
Variable fai_Create : string -> Outcome (Index * string).
Variable fai_Read : string -> Outcome Index.
Variable fai_NewWithIndex : string -> Index -> Outcome Faidx.
Variable SubSeq : Faidx -> string -> Z -> Z -> Outcome string.
Variable End : SamRecord -> Z.

Lemma optional_regexp_state (y : YamlNode) (s s' : StageState unit)
    (o : Outcome (option Regexp)) :
  optional_regexp MustCompile y s = (o, s') -> s' = s.
Proof.
  unfold optional_regexp, bind, checkError, ret, fatal.
  destruct (Y.String y) as [pat|m].
  - destruct (MustCompile pat); intros H; inversion H; reflexivity.
  - intros H; inversion H; reflexivity.
Qed.

(** Whatever the index answers, the body of the loop sends the record
    it was given or nothing, and touches nothing else. *)
Lemma aln_body_any (idx : RefWithFaidx Index Faidx) (regStart regEnd : option Regexp)
    (leftShift rightShift : Z) (r : SamRecord) (s : StageState unit) :
  let run := aln_context_body MatchString SubSeq End idx regStart regEnd
                              leftShift rightShift r s in
  so_fs (snd run) = so_fs s /\ so_closed (snd run) = so_closed s /\
  match fst run with
  | Ok _ => so_out (snd run) = so_out s \/ so_out (snd run) = so_out s ++ [r]
  | Abort _ => so_out (snd run) = so_out s
  end.
Proof.
  unfold aln_context_body, bind, checkError, ret, fatal, send, modify.
  destruct (flank_matches MatchString SubSeq idx regStart _ _ _ _) as [[|]|m]; cbn; auto.
  destruct (flank_matches MatchString SubSeq idx regEnd _ _ _ _) as [[|]|m]; cbn; auto.
Qed.

Lemma aln_loop_any (idx : RefWithFaidx Index Faidx) (regStart regEnd : option Regexp)
    (leftShift rightShift : Z) (input : list SamRecord) : forall s : StageState unit,
  let run := range_chan (aln_context_body MatchString SubSeq End idx regStart regEnd
                                          leftShift rightShift) input s in
  so_fs (snd run) = so_fs s /\ so_closed (snd run) = so_closed s /\
  exists sent, so_out (snd run) = so_out s ++ sent /\ sent `sublist_of` input.
Proof.
  induction input as [|r input IH]; intros s.
  - cbn. split; [reflexivity|]. split; [reflexivity|].
    exists []. rewrite app_nil_r. split; [reflexivity|constructor].
  - cbn zeta. rewrite range_chan_cons.
    pose proof (aln_body_any idx regStart regEnd leftShift rightShift r s) as Hb.
    cbn zeta in Hb.
    destruct (aln_context_body MatchString SubSeq End idx regStart regEnd
                               leftShift rightShift r s) as [[[]|m] s1];
      cbv beta iota.
    + cbn [fst snd] in Hb. destruct Hb as (Hfs & Hcl & Hout).
      specialize (IH s1). cbn zeta in IH. destruct IH as (Hfs' & Hcl' & sent & Hsent & Hsub).
      split; [exact (eq_trans Hfs' Hfs)|]. split; [exact (eq_trans Hcl' Hcl)|].
      destruct Hout as [Hout|Hout]; rewrite Hout in Hsent.
      * exists sent. split; [exact Hsent|]. apply sublist_cons_r. left. exact Hsub.
      * exists (r :: sent). split.
        -- rewrite Hsent, <- app_assoc. reflexivity.
        -- apply sublist_skip. exact Hsub.
    + cbn [fst snd] in Hb |- *. destruct Hb as (Hfs & Hcl & Hout).
      split; [exact Hfs|]. split; [exact Hcl|].
      exists []. rewrite app_nil_r. split; [exact Hout|apply sublist_nil_l].
Qed.

Lemma AlnContext_run_any (yaml : YamlNode) (silent : bool) (input : list SamRecord)
    (fs : FileSys) (o : Outcome unit) (st : StageState unit) :
  run_AlnContext MustCompile MatchString fai_Create fai_Read fai_NewWithIndex
                 SubSeq End yaml silent input fs = (o, st) ->
  so_out st `sublist_of` input /\ (so_closed st = true <-> o = Ok tt).
Proof.
  assert (Hstop : forall (m : string) (s : StageState unit),
            so_out s = [] -> so_closed s = false ->
            so_out s `sublist_of` input /\ (so_closed s = true <-> @Abort unit m = Ok tt)).
  { intros m s -> ->. split; [apply sublist_nil_l|]. split; discriminate. }
  unfold run_AlnContext, BamToolAlnContext. intros H.
  apply bind_inv in H as [(ref & s1 & E & H)|(m & E & ->)];
    apply checkError_inv in E as [-> _]; [|apply Hstop; reflexivity].
  apply bind_inv in H as [(ls & s1 & E & H)|(m & E & ->)];
    apply checkError_inv in E as [-> _]; [|apply Hstop; reflexivity].
  apply bind_inv in H as [(rs & s1 & E & H)|(m & E & ->)];
    apply checkError_inv in E as [-> _]; [|apply Hstop; reflexivity].
  apply bind_inv in H as [(regStart & s1 & E & H)|(m & E & ->)];
    apply optional_regexp_state in E as ->; [|apply Hstop; reflexivity].
  apply bind_inv in H as [(regEnd & s1 & E & H)|(m & E & ->)];
    apply optional_regexp_state in E as ->; [|apply Hstop; reflexivity].
  apply bind_inv in H as [(idx & s1 & E & H)|(m & E & ->)];
    apply NewRefWitdFaidx_frame in E as [Hout1 Hcl1];
    cbn [stage_start so_out so_closed] in Hout1, Hcl1; [|apply Hstop; assumption].
  pose proof (aln_loop_any idx regStart regEnd ls rs input s1) as Hloop. cbn zeta in Hloop.
  apply bind_inv in H as [([] & s2 & E & H)|(m & E & ->)];
    rewrite E in Hloop; cbn [fst snd] in Hloop;
    destruct Hloop as (_ & Hcl2 & sent & Hsent & Hsub).
  - unfold close_out, modify in H. inversion H; subst o st. cbn [so_out so_closed].
    rewrite Hsent, Hout1. cbn [app]. split; [exact Hsub|]. split; reflexivity.
  - rewrite Hsent, Hout1, Hcl2, Hcl1. cbn [app].
    split; [exact Hsub|]. split; discriminate.
Qed.

(** X8. Whatever the configuration, the files and the index turn out to
    be, the stage sends nothing but records of its input, each at most
    once and in the order they came, and it closes its output exactly
    when it comes to its end without a fatal error. *)
Theorem AlnContext_only_forwards_its_input
    (yaml : YamlNode) (silent : bool) (input : list SamRecord) (fs : FileSys) :
  let run := run_AlnContext MustCompile MatchString fai_Create fai_Read fai_NewWithIndex
                            SubSeq End yaml silent input fs in
  so_out (snd run) `sublist_of` input /\
  (so_closed (snd run) = true <-> fst run = Ok tt).
Proof.
  cbn zeta.
  destruct (run_AlnContext MustCompile MatchString fai_Create fai_Read fai_NewWithIndex
              SubSeq End yaml silent input fs) as [o st] eqn:E.
  exact (AlnContext_run_any yaml silent input fs o st E).
Qed.

(** X9. The reference and both shifts are compulsory: when one of them
    is missing or of another type the stage aborts at once; no index is
    looked for or built, no line is logged and nothing is sent. *)
Theorem AlnContext_needs_ref_and_shifts
    (yaml : YamlNode) (silent : bool) (input : list SamRecord) (fs : FileSys) :
  is_ok (Y.String (Y.Get "Ref" yaml)) && is_ok (Y.Int (Y.Get "LeftShift" yaml))
    && is_ok (Y.Int (Y.Get "RightShift" yaml)) = false ->
  exists msg,
    run_AlnContext MustCompile MatchString fai_Create fai_Read fai_NewWithIndex
                   SubSeq End yaml silent input fs = (Abort msg, stage_start fs tt).
Proof.
  intros H. unfold run_AlnContext, BamToolAlnContext, bind.
  destruct (Y.String (Y.Get "Ref" yaml)) as [ref|m]; cbn [checkError];
    [unfold ret at 1|exists m; reflexivity].
  destruct (Y.Int (Y.Get "LeftShift" yaml)) as [ls|m]; cbn [checkError];
    [unfold ret at 1|exists m; reflexivity].
  destruct (Y.Int (Y.Get "RightShift" yaml)) as [rs|m]; cbn [checkError];
    [discriminate H|exists m; reflexivity].
Qed.

Lemma aln_loop_no_pattern (idx : RefWithFaidx Index Faidx) (leftShift rightShift : Z)
    (input : list SamRecord) : forall s : StageState unit,
  range_chan (aln_context_body MatchString SubSeq End idx None None leftShift rightShift)
             input s
  = (Ok tt, mkStageState (so_fs s) (so_out s ++ input) (so_closed s) (so_locals s)).
Proof.
  induction input as [|r input IH]; intros s.
  - cbn. unfold ret. rewrite app_nil_r. destruct s; reflexivity.
  - cbn [range_chan]. unfold bind at 1.
    change (aln_context_body MatchString SubSeq End idx None None leftShift rightShift r s)
      with (Ok tt, mkStageState (so_fs s) (so_out s ++ [r]) (so_closed s) (so_locals s)).
    cbv beta iota. rewrite IH. cbn [so_fs so_out so_closed so_locals]. rewrite <- app_assoc. reflexivity.
Qed.

(** X10. With neither pattern configured the stage is the identity on
    its stream: every record is sent on as it came, whatever its
    position and whatever the index would answer, for the index is
    loaded and never queried. *)
Theorem AlnContext_without_patterns_is_identity
    (yaml : YamlNode) (silent : bool) (input : list SamRecord) (fs : FileSys)
    (ref : string) (leftShift rightShift : Z)
    (idx : RefWithFaidx Index Faidx) (s1 : StageState unit) :
  Y.String (Y.Get "Ref" yaml) = Ok ref ->
  Y.Int (Y.Get "LeftShift" yaml) = Ok leftShift ->
  Y.Int (Y.Get "RightShift" yaml) = Ok rightShift ->
  is_ok (Y.String (Y.Get "RegexStart" yaml)) = false ->
  is_ok (Y.String (Y.Get "RegexEnd" yaml)) = false ->
  NewRefWitdFaidx fai_Create fai_Read fai_NewWithIndex ref false silent (stage_start fs tt)
    = (Ok idx, s1) ->
  run_AlnContext MustCompile MatchString fai_Create fai_Read fai_NewWithIndex
                 SubSeq End yaml silent input fs
  = (Ok tt, mkStageState (so_fs s1) input true tt).
Proof.
  intros Href Hls Hrs Hstart Hend Hidx.
  destruct (NewRefWitdFaidx_frame _ _ _ _ _ _ _ _ _ Hidx) as [Hout1 Hcl1].
  cbn [stage_start so_out so_closed] in Hout1, Hcl1.
  unfold run_AlnContext, BamToolAlnContext.
  unfold bind at 1. rewrite Href. cbn [checkError]. unfold ret at 1.
  unfold bind at 1. rewrite Hls. cbn [checkError]. unfold ret at 1.
  unfold bind at 1. rewrite Hrs. cbn [checkError]. unfold ret at 1.
  unfold bind at 1. unfold optional_regexp at 1.
  destruct (Y.String (Y.Get "RegexStart" yaml)); [discriminate Hstart|]. unfold ret at 1.
  unfold bind at 1. unfold optional_regexp at 1.
  destruct (Y.String (Y.Get "RegexEnd" yaml)); [discriminate Hend|]. unfold ret at 1.
  unfold bind at 1. rewrite Hidx.
  unfold bind at 1. rewrite aln_loop_no_pattern.
  unfold close_out, modify. cbn [so_fs so_out so_closed so_locals].
  rewrite Hout1. destruct (so_locals s1). reflexivity.
Qed.

(** X11. A window the index cannot return is fatal where it is met: the
    records before it have been filtered and sent, the record itself and
    those after it are not, and the output is left open. *)
Theorem AlnContext_stops_at_first_failed_fetch
    (yaml : YamlNode) (silent : bool) (before after : list SamRecord) (r : SamRecord)
    (fs : FileSys) (ref msg : string) (leftShift rightShift : Z)
    (regStart regEnd : option Regexp)
    (idx : RefWithFaidx Index Faidx) (s1 : StageState unit) :
  Y.String (Y.Get "Ref" yaml) = Ok ref ->
  Y.Int (Y.Get "LeftShift" yaml) = Ok leftShift ->
  Y.Int (Y.Get "RightShift" yaml) = Ok rightShift ->
  pattern_of MustCompile (Y.Get "RegexStart" yaml) regStart ->
  pattern_of MustCompile (Y.Get "RegexEnd" yaml) regEnd ->
  NewRefWitdFaidx fai_Create fai_Read fai_NewWithIndex ref false silent (stage_start fs tt)
    = (Ok idx, s1) ->
  forallb (windows_ok SubSeq End idx regStart regEnd leftShift rightShift) before = true ->
  (flank_matches MatchString SubSeq idx regStart (RefName r) (Pos r) leftShift rightShift
     = Abort msg \/
   flank_matches MatchString SubSeq idx regStart (RefName r) (Pos r) leftShift rightShift
     = Ok false /\
   flank_matches MatchString SubSeq idx regEnd (RefName r) (End r) leftShift rightShift
     = Abort msg) ->
  run_AlnContext MustCompile MatchString fai_Create fai_Read fai_NewWithIndex
                 SubSeq End yaml silent (before ++ r :: after) fs
  = (Abort msg,
     mkStageState (so_fs s1)
       (List.filter (fun r => negb (dropped MatchString SubSeq End idx regStart regEnd
                                            leftShift rightShift r)) before)
       false tt).
Proof.
  intros Href Hls Hrs Hstart Hend Hidx Hok Hfail.
  destruct (NewRefWitdFaidx_frame _ _ _ _ _ _ _ _ _ Hidx) as [Hout1 Hcl1].
  cbn [stage_start so_out so_closed] in Hout1, Hcl1.
  unfold run_AlnContext, BamToolAlnContext.
  unfold bind at 1. rewrite Href. cbn [checkError]. unfold ret at 1.
  unfold bind at 1. rewrite Hls. cbn [checkError]. unfold ret at 1.
  unfold bind at 1. rewrite Hrs. cbn [checkError]. unfold ret at 1.
  unfold bind at 1. rewrite (optional_regexp_pattern _ _ regStart _ Hstart).
  unfold bind at 1. rewrite (optional_regexp_pattern _ _ regEnd _ Hend).
  unfold bind at 1. rewrite Hidx.
  unfold bind at 1. rewrite range_chan_app.
  rewrite (aln_loop_ok MatchString SubSeq End idx regStart regEnd leftShift rightShift
             before s1 Hok).
  cbn [range_chan]. unfold bind at 1.
  assert (Hbody : forall s : StageState unit,
            aln_context_body MatchString SubSeq End idx regStart regEnd
                             leftShift rightShift r s = (Abort msg, s)).
  { intros s. unfold aln_context_body, bind.
    destruct Hfail as [H|[H1 H2]].
    - rewrite H. reflexivity.
    - rewrite H1. cbn [checkError]. unfold ret at 1. rewrite H2. reflexivity. }
  rewrite Hbody. cbn [so_fs so_out so_closed so_locals].
  rewrite Hout1, Hcl1. cbn [app]. destruct (so_locals s1). reflexivity.
Qed.
End AlnContextMore.

Lemma AlnContext_needs_ref_and_shifts_witness :
  exists msg,
    run_AlnContext Toy.MustCompile Toy.MatchString Toy.fai_Create Toy.fai_Read
                   Toy.fai_NewWithIndex Toy.SubSeq Toy.End
                   (YMap [("Ref", YStr "ref.fa"); ("LeftShift", YStr "0");
                          ("RightShift", YInt 5)])
                   false [rec_10eq] Toy.fs_ref
    = (Abort msg, stage_start Toy.fs_ref tt).
Proof.
  apply (AlnContext_needs_ref_and_shifts Toy.MustCompile Toy.MatchString Toy.fai_Create
           Toy.fai_Read Toy.fai_NewWithIndex Toy.SubSeq Toy.End).
  reflexivity.
Defined.

Lemma AlnContext_without_patterns_is_identity_witness :
  so_out (snd (run_AlnContext Toy.MustCompile Toy.MatchString Toy.fai_Create Toy.fai_Read
                 Toy.fai_NewWithIndex Toy.SubSeq Toy.End
                 (YMap [("Ref", YStr "ref.fa"); ("LeftShift", YInt 0);
                        ("RightShift", YInt 500)])
                 false [rec_10eq; rec_unmapped; rec_at2] Toy.fs_ref))
  = [rec_10eq; rec_unmapped; rec_at2].
Proof.
  set (s1 := snd (NewRefWitdFaidx Toy.fai_Create Toy.fai_Read Toy.fai_NewWithIndex
                    "ref.fa" false false (stage_start Toy.fs_ref tt))).
  assert (Hidx : NewRefWitdFaidx Toy.fai_Create Toy.fai_Read Toy.fai_NewWithIndex
                   "ref.fa" false false (stage_start Toy.fs_ref tt)
                 = (Ok (mkRefWithFaidx "ref.fa" "ref.fa.seqkit.fai" tt Toy.reference false),
                    s1))
    by (vm_compute; reflexivity).
  rewrite (AlnContext_without_patterns_is_identity Toy.MustCompile Toy.MatchString
             Toy.fai_Create Toy.fai_Read Toy.fai_NewWithIndex Toy.SubSeq Toy.End
             (YMap [("Ref", YStr "ref.fa"); ("LeftShift", YInt 0); ("RightShift", YInt 500)])
             false [rec_10eq; rec_unmapped; rec_at2] Toy.fs_ref "ref.fa" 0 500
             (mkRefWithFaidx "ref.fa" "ref.fa.seqkit.fai" tt Toy.reference false) s1
             eq_refl eq_refl eq_refl eq_refl eq_refl Hidx).
  reflexivity.
Defined.

Lemma AlnContext_stops_at_first_failed_fetch_witness :
  let run := run_AlnContext Toy.MustCompile Toy.MatchString Toy.fai_Create Toy.fai_Read
               Toy.fai_NewWithIndex Toy.SubSeq Toy.End
               Toy.aln_yaml false ([rec_10eq; rec_at2] ++ rec_at14 :: [rec_at2])
               Toy.fs_ref in
  fst run = Abort "subsequence out of range" /\
  so_out (snd run) = [rec_at2] /\ so_closed (snd run) = false.
Proof.
  cbn zeta.
  set (s1 := snd (NewRefWitdFaidx Toy.fai_Create Toy.fai_Read Toy.fai_NewWithIndex
                    "ref.fa" false false (stage_start Toy.fs_ref tt))).
  assert (Hidx : NewRefWitdFaidx Toy.fai_Create Toy.fai_Read Toy.fai_NewWithIndex
                   "ref.fa" false false (stage_start Toy.fs_ref tt)
                 = (Ok (mkRefWithFaidx "ref.fa" "ref.fa.seqkit.fai" tt Toy.reference false),
                    s1))
    by (vm_compute; reflexivity).
  rewrite (AlnContext_stops_at_first_failed_fetch Toy.MustCompile Toy.MatchString
             Toy.fai_Create Toy.fai_Read Toy.fai_NewWithIndex Toy.SubSeq Toy.End
             Toy.aln_yaml false [rec_10eq; rec_at2] [rec_at2] rec_at14 Toy.fs_ref
             "ref.fa" "subsequence out of range" 0 5 (Some "ACGTA") None
             (mkRefWithFaidx "ref.fa" "ref.fa.seqkit.fai" tt Toy.reference false) s1
             eq_refl eq_refl eq_refl
             (ex_intro _ "ACGTA" (conj eq_refl eq_refl)) eq_refl Hidx
             eq_refl (or_introl eq_refl)).
  repeat split.
Defined.


Section ChainChannels.
Variable y : YamlNode.
Variable shed : Toolshed.
Variables quiet silent : bool.
Variables threads last : Z.
Variable lastOut : chan.

End ChainChannels.

Section ToolboxMore.
Context {Header BamReader : Type}.
Variable NewYaml : string -> Outcome YamlNode.
Variable bam_NewReader : string -> option BamReader.
Variable reader_Header : BamReader -> Header.

Local Abbreviation World' := (World Header BamReader).


(** X12. When the first key of the document is [help], nothing is
    opened: no reader, no sink and no writer is started, the files are
    left alone, the listing tool is started first with a nil input
    channel, and the channel of the final receive is nil as well. *)
Theorem BamToolbox_listing_opens_nothing
    (toolYaml inFile outFile : string) (quiet silent : bool)
    (threads : Z) (w w0 : World') (y : YamlNode) (ty rest : list string) :
  load_config NewYaml toolYaml w = (Ok (y, ty), w0) ->
  Y.GetMapKeys y = Ok ("help" :: rest) ->
  forallb (known NewToolshed) (clearKeys rest) = true ->
  exists w' p others,
    BamToolbox NewYaml bam_NewReader reader_Header toolYaml inFile outFile quiet silent
               threads w = (Ok None, w') /\
    w_fs w' = w_fs w /\
    w_tasks w' = w_tasks w ++ GoTool UseListTools p
                              :: map (fun up => GoTool (fst up) (snd up)) others /\
    length others = length (clearKeys rest) /\
    InChan p = None /\ Shed p = NewToolshed /\
    (clearKeys rest = [] -> OutChan p = None).
Proof.
  intros Hload Hkeys Hknown.
  destruct (load_config_ok _ _ _ _ _ _ Hload) as [_ ->].
  assert (Hends : open_ends bam_NewReader reader_Header y "help" inFile outFile threads w
                  = (Ok (None, None, None), w)) by reflexivity.
  rewrite (BamToolbox_to_loop NewYaml bam_NewReader reader_Header toolYaml inFile outFile
             quiet silent threads w w w y ty "help" rest None None None Hload Hkeys Hends).
  assert (Hclear : clearKeys ("help" :: rest) = "help" :: clearKeys rest) by reflexivity.
  rewrite Hclear.
  rewrite launch_loop_known by (cbn [forallb]; rewrite Hknown; reflexivity).
  cbn [chain]. change (NewToolshed !! "help")
    with (Some (mkBamTool "help" "list all tools with description" UseListTools)).
  cbv beta iota. cbn [Use].
  eexists. eexists. eexists. split; [reflexivity|].
  unfold started. cbn [w_fs w_tasks map fst snd length InChan OutChan Shed].
  split; [reflexivity|]. split; [reflexivity|].
  split; [apply chain_length; exact Hknown|].
  split; [reflexivity|]. split; [reflexivity|].
  intros ->. reflexivity.
Qed.

(** X13. A document that is an empty mapping makes the orchestrator
    panic on [ty[0]], before anything is made or started; the diagnostic
    of the [case 0] branch below is never reached. *)
Theorem BamToolbox_empty_document_panics
    (toolYaml inFile outFile : string) (quiet silent : bool)
    (threads : Z) (w : World') (y : YamlNode) :
  NewYaml (if String.eqb toolYaml "help" then "help: true" else toolYaml) = Ok y ->
  Y.GetMapKeys y = Ok [] ->
  BamToolbox NewYaml bam_NewReader reader_Header toolYaml inFile outFile quiet silent
             threads w
  = (Abort "index out of range [0] with length 0", w).
Proof.
  intros Hy Hkeys. unfold BamToolbox, load_config, bind.
  rewrite Hy. cbn [checkError]. unfold ret at 1. rewrite Hkeys. reflexivity.
Qed.

(** X14. A configuration given through a file runs as the content of
    the file given directly, when that content is neither the word
    [help] nor a document that begins with [Yaml] itself. *)
Theorem BamToolbox_config_file_runs_as_its_content
    (toolYaml inFile outFile : string) (quiet silent : bool)
    (threads : Z) (w : World') (y0 y : YamlNode) (ks ks' : list string)
    (conf cb k : string) :
  String.eqb toolYaml "help" = false ->
  NewYaml toolYaml = Ok y0 ->
  Y.GetMapKeys y0 = Ok ("Yaml" :: ks) ->
  Y.String (Y.Get "Yaml" y0) = Ok conf ->
  fs_files (w_fs w) !! conf = Some cb ->
  String.eqb cb "help" = false ->
  NewYaml cb = Ok y ->
  Y.GetMapKeys y = Ok (k :: ks') ->
  String.eqb k "Yaml" = false ->
  BamToolbox NewYaml bam_NewReader reader_Header toolYaml inFile outFile quiet silent
             threads w
  = BamToolbox NewYaml bam_NewReader reader_Header cb inFile outFile quiet silent
               threads w.
Proof.
  intros Hh Hy0 Hk0 Hconf Hfile Hcb Hy Hk Hne.
  assert (H1 : load_config NewYaml toolYaml w = (Ok (y, "Yaml" :: ks), w)).
  { unfold load_config, bind, gets, os.ReadFile. rewrite Hh, Hy0. cbn [checkError].
    unfold ret at 1. rewrite Hk0. cbn [checkError]. unfold ret at 1. unfold ret at 1.
    cbn [String.eqb Ascii.eqb Bool.eqb]. cbv beta iota.
    rewrite Hconf. cbn [checkError]. unfold ret at 1.
    rewrite Hfile. cbn [checkError]. unfold ret at 1. rewrite Hy. reflexivity. }
  assert (H2 : load_config NewYaml cb w = (Ok (y, k :: ks'), w)).
  { unfold load_config, bind. rewrite Hcb, Hy. cbn [checkError].
    unfold ret at 1. rewrite Hk. cbn [checkError]. unfold ret at 1. unfold ret at 1.
    rewrite Hne. reflexivity. }
  unfold BamToolbox. unfold bind at 1. rewrite H1.
  symmetry. unfold bind at 1. rewrite H2. reflexivity.
Qed.

(** X15. An input that [bam.NewReader] refuses is not reported: the
    error is dropped, the reader goroutine is started on the nil reader,
    and, unless the chain ends in the sink, the orchestrator goes on to
    [bamReader.Header()] on that nil reader, a nil dereference; no
    terminal consumer and no tool has been started by then. *)
Theorem BamToolbox_unreadable_bam_crashes_at_header
    (toolYaml inFile outFile : string) (quiet silent : bool)
    (threads : Z) (w w0 : World') (y : YamlNode) (ty : list string)
    (k0 bytes : string) (rest : list string) :
  load_config NewYaml toolYaml w = (Ok (y, ty), w0) ->
  Y.GetMapKeys y = Ok (k0 :: rest) ->
  String.eqb k0 "help" = false ->
  (if String.eqb inFile "-" then fs_stdin (w_fs w) = bytes
   else fs_files (w_fs w) !! inFile = Some bytes) ->
  bam_NewReader bytes = None ->
  Y.Bool (Y.Get "Sink" y) <> Ok true ->
  BamToolbox NewYaml bam_NewReader reader_Header toolYaml inFile outFile quiet silent
             threads w
  = (Abort "invalid memory address or nil pointer dereference",
     mkWorld (w_fs w) (w_chans w ++ [mkChanInfo RecordElem chanCap])
             (w_tasks w ++ [GoReader None (Some (length (w_chans w)))])).
Proof.
  intros Hload Hkeys Hhelp Hbytes Hnil Hsink.
  destruct (load_config_ok _ _ _ _ _ _ Hload) as [Hne ->].
  unfold BamToolbox. unfold bind at 1. rewrite Hload.
  destruct ty as [|t ty']; [contradiction|]. cbn [length].
  unfold bind at 1. rewrite Hkeys. cbn [checkError]. unfold ret at 1.
  unfold bind at 1. unfold ret at 1.
  unfold bind at 1. unfold open_ends. rewrite Hhelp. cbn [negb].
  destruct w as [fs chans tasks]. cbn [w_fs w_chans w_tasks] in *.
  assert (Hreader : NewBamReaderChan bam_NewReader inFile chanCap ioBuff threads
                      (mkWorld fs chans tasks)
                    = (Ok (Some (length chans), None),
                       mkWorld fs (chans ++ [mkChanInfo RecordElem chanCap])
                               (tasks ++ [GoReader None (Some (length chans))]))).
  { unfold NewBamReaderChan, bind, make_chan, go, modify, gets, checkError, ret, fatal,
      os.Open, os.ReadFile.
    cbv beta iota delta [w_fs w_chans w_tasks].
    destruct (String.eqb inFile "-"); cbn [negb]; cbv beta iota.
    - rewrite Hbytes, Hnil. reflexivity.
    - rewrite Hbytes. cbv beta iota delta [snd]. rewrite Hbytes. cbv beta iota.
      rewrite Hnil. reflexivity. }
  unfold bind at 1. rewrite Hreader. cbv beta iota.
  unfold bind at 1.
  destruct (Y.Bool (Y.Get "Sink" y)) as [[|]|m]; [contradiction|reflexivity|reflexivity].
Qed.

(** X16. A named input file that is not there stops the run before any
    goroutine is started: by then one channel has been made and no file
    has been touched. *)
Theorem BamToolbox_missing_input_starts_nothing
    (toolYaml inFile outFile : string) (quiet silent : bool)
    (threads : Z) (w w0 : World') (y : YamlNode) (ty : list string)
    (k0 : string) (rest : list string) :
  load_config NewYaml toolYaml w = (Ok (y, ty), w0) ->
  Y.GetMapKeys y = Ok (k0 :: rest) ->
  String.eqb k0 "help" = false ->
  String.eqb inFile "-" = false ->
  fs_files (w_fs w) !! inFile = None ->
  BamToolbox NewYaml bam_NewReader reader_Header toolYaml inFile outFile quiet silent
             threads w
  = (Abort ("open " +:+ inFile +:+ ": no such file or directory"),
     mkWorld (w_fs w) (w_chans w ++ [mkChanInfo RecordElem chanCap]) (w_tasks w)).
Proof.
  intros Hload Hkeys Hhelp Hdash Hnone.
  destruct (load_config_ok _ _ _ _ _ _ Hload) as [Hne ->].
  unfold BamToolbox. unfold bind at 1. rewrite Hload.
  destruct ty as [|t ty']; [contradiction|]. cbn [length].
  unfold bind at 1. rewrite Hkeys. cbn [checkError]. unfold ret at 1.
  unfold bind at 1. unfold ret at 1.
  unfold bind at 1. unfold open_ends. rewrite Hhelp. cbn [negb].
  destruct w as [fs chans tasks]. cbn [w_fs w_chans w_tasks] in *.
  unfold bind at 1.
  unfold NewBamReaderChan, bind, make_chan, go, modify, gets, checkError, ret, fatal,
    os.Open, os.ReadFile.
  cbv beta iota delta [w_fs w_chans w_tasks].
  rewrite Hdash. cbn [negb]. cbv beta iota. rewrite Hnone. reflexivity.
Qed.

End ToolboxMore.

Lemma BamToolbox_listing_opens_nothing_witness :
  exists w' p others,
    BamToolbox Toy.NewYaml Toy.bam_NewReader Toy.reader_Header
               "help" "no-such.bam" "-" false false 4 Toy.w0 = (Ok None, w') /\
    w_fs w' = Toy.fs_bam /\
    w_tasks w' = GoTool UseListTools p :: map (fun up => GoTool (fst up) (snd up)) others /\
    InChan p = None /\ OutChan p = None.
Proof.
  destruct (BamToolbox_listing_opens_nothing Toy.NewYaml Toy.bam_NewReader
              Toy.reader_Header "help" "no-such.bam" "-" false false 4 Toy.w0 Toy.w0
              (YMap [("help", YBool true)]) ["help"] [])
    as (w' & p & others & Hrun & Hfs & Htasks & _ & Hin & _ & Hout);
    [reflexivity|reflexivity|reflexivity|].
  exists w', p, others. split; [exact Hrun|]. split; [exact Hfs|].
  split; [exact Htasks|]. split; [exact Hin|]. apply Hout. reflexivity.
Defined.

Lemma BamToolbox_empty_document_panics_witness :
  BamToolbox (fun _ => Ok (YMap [])) Toy.bam_NewReader Toy.reader_Header
             "{}" "in.bam" "-" false false 4 Toy.w0
  = (Abort "index out of range [0] with length 0", Toy.w0).
Proof.
  apply (BamToolbox_empty_document_panics (fun _ => Ok (YMap [])) Toy.bam_NewReader
           Toy.reader_Header "{}" "in.bam" "-" false false 4 Toy.w0 (YMap []));
    reflexivity.
Defined.

Lemma BamToolbox_config_file_runs_as_its_content_witness :
  BamToolbox NewYaml_with_file Toy.bam_NewReader Toy.reader_Header
             "Yaml: conf.yml" "in.bam" "-" false false 4 (mkWorld fs_conf [] [])
  = BamToolbox NewYaml_with_file Toy.bam_NewReader Toy.reader_Header
               Toy.doc_sink "in.bam" "-" false false 4 (mkWorld fs_conf [] []).
Proof.
  apply (BamToolbox_config_file_runs_as_its_content NewYaml_with_file Toy.bam_NewReader
           Toy.reader_Header "Yaml: conf.yml" "in.bam" "-" false false 4
           (mkWorld fs_conf [] [])
           (YMap [("Yaml", YStr "conf.yml")])
           (YMap [("AlnContext", Toy.aln_yaml); ("Sink", YBool true);
                  ("AccStats", Toy.acc_yaml)])
           [] ["Sink"; "AccStats"] "conf.yml" Toy.doc_sink "AlnContext");
    try reflexivity; vm_compute; reflexivity.
Defined.

Lemma BamToolbox_unreadable_bam_crashes_at_header_witness :
  fst (BamToolbox Toy.NewYaml Toy.bam_NewReader Toy.reader_Header
                  Toy.doc_write "ref.fa" "-" false false 4 Toy.w0)
  = Abort "invalid memory address or nil pointer dereference".
Proof.
  rewrite (BamToolbox_unreadable_bam_crashes_at_header Toy.NewYaml Toy.bam_NewReader
             Toy.reader_Header Toy.doc_write "ref.fa" "-" false false 4 Toy.w0 Toy.w0
             (YMap [("AccStats", Toy.acc_yaml)]) ["AccStats"] "AccStats" Toy.reference []).
  - reflexivity.
  - vm_compute. reflexivity.
  - reflexivity.
  - reflexivity.
  - vm_compute. reflexivity.
  - reflexivity.
  - discriminate.
Defined.

Lemma BamToolbox_missing_input_starts_nothing_witness :
  w_tasks (snd (BamToolbox Toy.NewYaml Toy.bam_NewReader Toy.reader_Header
                           Toy.doc_write "no-such.bam" "-" false false 4 Toy.w0))
  = [].
Proof.
  rewrite (BamToolbox_missing_input_starts_nothing Toy.NewYaml Toy.bam_NewReader
             Toy.reader_Header Toy.doc_write "no-such.bam" "-" false false 4 Toy.w0 Toy.w0
             (YMap [("AccStats", Toy.acc_yaml)]) ["AccStats"] "AccStats" []).
  - reflexivity.
  - vm_compute. reflexivity.
  - reflexivity.
  - reflexivity.
  - reflexivity.
  - vm_compute. reflexivity.
Defined.



(** ** The reader goroutine *)

Lemma reader_loop_records (recs : list SamRecord) (rest : list (Outcome SamRecord)) :
  forall s : StageState unit,
  reader_loop (map Ok recs ++ rest) s
  = reader_loop rest (mkStageState (so_fs s) (so_out s ++ recs) (so_closed s) (so_locals s)).
Proof.
  induction recs as [|r recs IH]; intros s.
  - cbn [map app]. rewrite app_nil_r. destruct s; reflexivity.
  - cbn [map app reader_loop]. unfold bind at 1, send at 1, modify at 1.
    rewrite IH. cbn [so_fs so_out so_closed so_locals]. rewrite <- app_assoc. reflexivity.
Qed.

(** X18. The reader goroutine sends every record it reads, in the order
    read, and closes its channel at the end of the input.  When a read
    fails it closes the channel first and aborts then: the records read
    before the failure have been sent, and what follows is never read. *)
Theorem reader_sends_in_order_and_always_closes
    (recs : list SamRecord) (fs : FileSys) :
  run_reader (map Ok recs) fs = (Ok tt, mkStageState fs recs true tt) /\
  forall (msg : string) (rest : list (Outcome SamRecord)),
    run_reader (map Ok recs ++ Abort msg :: rest) fs
    = (Abort msg, mkStageState fs recs true tt).
Proof.
  unfold run_reader. split.
  - rewrite <- (app_nil_r (map Ok recs)), reader_loop_records. reflexivity.
  - intros msg rest. rewrite reader_loop_records. reflexivity.
Qed.

(** ** The writer goroutine on the standard output *)

Section WriterOnStdout.
Context {Header Encoder : Type}.
Variable enc_new : Header -> Outcome (Encoder * string).
Variable enc_write : Encoder -> SamRecord -> Outcome (Encoder * string).
Variable enc_close : Encoder -> string.









End WriterOnStdout.

(** A buffer of three bytes, and a record the encoder refuses in the
    middle of the stream. *)
Example writer_on_stdout_run :
  fs_stdout (ws_fs (snd (run_writer Toy.enc_new Toy.enc_write Toy.enc_close
                                    (FStd Stdout) "hdr" 3 [rec_10eq; rec_at2] fs_empty)))
  = "BAM1hdr;read1;read4;EOF" /\
  encoded_stream Toy.enc_new Toy.enc_write Toy.enc_close "hdr" [rec_10eq; rec_at2]
  = Ok "BAM1hdr;read1;read4;EOF" /\
  fst (run_writer Toy.enc_new Toy.enc_write Toy.enc_close (FStd Stdout) "hdr" 3
                  [rec_10eq; rec_nameless; rec_at2] fs_empty)
  = Abort "bam: record without a name" /\
  fst (run_writer Toy.enc_new Toy.enc_write Toy.enc_close (FStd Stdout) "" 3
                  [rec_10eq] fs_empty)
  = Abort "invalid memory address or nil pointer dereference".
Proof. vm_compute. auto. Qed.

(** ** The [rename] command *)

Section RenameFacts.
Variable WrapByteSlice : string -> Z -> string.
Variable lineWidth : Z.

Local Abbreviation step := (Rename.rename_record WrapByteSlice lineWidth).
Local Abbreviation text := (Rename.record_text WrapByteSlice lineWidth).

Lemma occurrences_snoc (id : string) (rs : list Rename.FastxRecord) (r : Rename.FastxRecord) :
  Rename.occurrences id (rs ++ [r])
  = (Rename.occurrences id rs + (if String.eqb (Rename.ID r) id then 1 else 0))%nat.
Proof.
  unfold Rename.occurrences. rewrite List.filter_app, length_app. cbn [List.filter].
  destruct (String.eqb (Rename.ID r) id); reflexivity.
Qed.

Lemma occurrences_le (id : string) (rs : list Rename.FastxRecord) :
  (Rename.occurrences id rs <= length rs)%nat.
Proof. unfold Rename.occurrences. apply List.filter_length_le. Qed.

Lemma fold_snoc (rs : list Rename.FastxRecord) (r : Rename.FastxRecord)
    (st : Rename.FileState) :
  fold_left step (rs ++ [r]) st = step (fold_left step rs st) r.
Proof. rewrite fold_left_app. reflexivity. Qed.

(** The map of the loop holds, for every ID met so far in the file, how
    often it was met, and nothing else. *)
Lemma numbers_count (out : string) (rs : list Rename.FastxRecord) :
  Z.of_nat (length rs) <= GoInt.max_int ->
  forall id,
    Rename.numbers (fold_left step rs (Rename.mkFileState ∅ "" out)) !! id
    = match Rename.occurrences id rs with
      | O => None
      | S k => Some (Z.of_nat (S k))
      end.
Proof.
  induction rs as [|r rs IH] using rev_ind; intros Hlen id; [reflexivity|].
  rewrite length_app in Hlen. cbn [length] in Hlen.
  assert (Hlen' : Z.of_nat (length rs) <= GoInt.max_int) by lia.
  specialize (IH Hlen').
  rewrite fold_snoc, occurrences_snoc.
  set (st := fold_left step rs (Rename.mkFileState ∅ "" out)) in *.
  unfold Rename.rename_record, Rename.count_id.
  pose proof (IH (Rename.ID r)) as Hr.
  pose proof (occurrences_le (Rename.ID r) rs) as Hle.
  destruct (Rename.numbers st !! Rename.ID r) as [n|] eqn:En; cbn [Rename.numbers].
  - destruct (Rename.occurrences (Rename.ID r) rs) as [|k] eqn:Ek; [discriminate|].
    inversion Hr; subst n.
    rewrite add_exact by (unfold GoInt.in_range, GoInt.min_int, GoInt.max_int in *; lia).
    destruct (String.eqb (Rename.ID r) id) eqn:E.
    + apply String.eqb_eq in E. subst id. rewrite lookup_insert_eq, Ek.
      rewrite Nat.add_1_r. f_equal. lia.
    + apply String.eqb_neq in E. rewrite lookup_insert_ne by exact E.
      rewrite IH, Nat.add_0_r. reflexivity.
  - destruct (Rename.occurrences (Rename.ID r) rs) as [|k] eqn:Ek; [|discriminate].
    destruct (String.eqb (Rename.ID r) id) eqn:E.
    + apply String.eqb_eq in E. subst id. rewrite lookup_insert_eq, Ek. reflexivity.
    + apply String.eqb_neq in E. rewrite lookup_insert_ne by exact E.
      rewrite IH, Nat.add_0_r. reflexivity.
Qed.

(** X20. In one file the map of the loop has an entry for exactly the
    IDs met so far, and the entry of an ID is the number of records met
    so far that carry it. *)
Theorem rename_counts_every_id (out : string) (rs : list Rename.FastxRecord) (id : string) :
  Z.of_nat (length rs) <= GoInt.max_int ->
  let st := fold_left step rs (Rename.mkFileState ∅ "" out) in
  (Rename.numbers st !! id = None <-> ~ In id (map Rename.ID rs)) /\
  (forall n, Rename.numbers st !! id = Some n ->
             n = Z.of_nat (Rename.occurrences id rs) /\ 1 <= n).
Proof.
  intros Hlen. cbn zeta. rewrite (numbers_count out rs Hlen id).
  assert (Hocc : Rename.occurrences id rs = 0%nat <-> ~ In id (map Rename.ID rs)).
  { unfold Rename.occurrences. clear Hlen.
    induction rs as [|r rs IH]; cbn [List.filter map In length]; [tauto|].
    destruct (String.eqb (Rename.ID r) id) eqn:E.
    - apply String.eqb_eq in E. cbn [length]. split; [discriminate|tauto].
    - apply String.eqb_neq in E. tauto. }
  destruct (Rename.occurrences id rs) as [|k].
  - split; [tauto|discriminate].
  - split.
    + split; [discriminate|]. intros Hn. apply Hocc in Hn. discriminate.
    + intros n Hn. inversion Hn. lia.
Qed.

(** X21. The ID a record is written under: a record whose ID was met
    [k] times before in the file, [k] at least 1, is written under that
    ID followed by [_] and [k+1]; a record whose ID is new is written
    under whatever [newID] held before, that is under the ID made for
    the last duplicate met, or under the empty ID if there was none.
    A record with qualities is written twice, as FASTQ and then as
    FASTA. *)
Theorem rename_label_of_record (out : string) (before : list Rename.FastxRecord)
    (r : Rename.FastxRecord) :
  Z.of_nat (length before) < GoInt.max_int ->
  let st := fold_left step before (Rename.mkFileState ∅ "" out) in
  let label := match Rename.occurrences (Rename.ID r) before with
               | O => Rename.newID st
               | S k => Rename.suffixed (Rename.ID r) (Z.of_nat (S (S k)))
               end in
  Rename.newID (step st r) = label /\
  Rename.written (step st r)
  = Rename.written st
    +:+ ((if (0 <? String.length (Rename.Qual r))%nat
          then Rename.fastq_text WrapByteSlice lineWidth label r else "")
         +:+ Rename.fasta_text WrapByteSlice lineWidth label r).
Proof.
  intros Hlen. cbn zeta.
  pose proof (numbers_count out before ltac:(lia) (Rename.ID r)) as Hn.
  pose proof (occurrences_le (Rename.ID r) before) as Hle.
  set (st := fold_left step before (Rename.mkFileState ∅ "" out)) in *.
  unfold Rename.rename_record, Rename.count_id, Rename.record_text.
  destruct (Rename.occurrences (Rename.ID r) before) as [|k]; rewrite Hn;
    cbn [Rename.newID Rename.written].
  - split; reflexivity.
  - rewrite add_exact by (unfold GoInt.in_range, GoInt.min_int, GoInt.max_int in *; lia).
    replace (Z.of_nat (S k) + 1) with (Z.of_nat (S (S k))) by lia.
    split; reflexivity.
Qed.

Lemma step_new_id (st : Rename.FileState) (r : Rename.FastxRecord) :
  Rename.numbers st !! Rename.ID r = None ->
  step st r = Rename.mkFileState (<[Rename.ID r := 1]> (Rename.numbers st)) (Rename.newID st)
                (Rename.written st +:+ text (Rename.newID st) r).
Proof.
  intros H. unfold Rename.rename_record, Rename.count_id. rewrite H. reflexivity.
Qed.

Lemma no_duplicates_fold (rs : list Rename.FastxRecord) : forall st,
  NoDup (map Rename.ID rs) ->
  (forall r, In r rs -> Rename.numbers st !! Rename.ID r = None) ->
  Rename.newID (fold_left step rs st) = Rename.newID st /\
  Rename.written (fold_left step rs st)
  = Rename.written st +:+ String.concat "" (map (text (Rename.newID st)) rs).
Proof.
  induction rs as [|r rs IH]; intros st Hnd Hnew.
  - cbn. rewrite append_nil_r. auto.
  - cbn [map] in Hnd. apply NoDup_cons in Hnd as [Hr Hnd].
    cbn [fold_left]. rewrite (step_new_id st r) by (apply Hnew; left; reflexivity).
    destruct (IH (Rename.mkFileState (<[Rename.ID r := 1]> (Rename.numbers st))
                    (Rename.newID st)
                    (Rename.written st +:+ text (Rename.newID st) r)) Hnd) as [Hid Hw].
    { intros r' Hin. cbn [Rename.numbers].
      rewrite lookup_insert_ne.
      - apply Hnew. right. exact Hin.
      - intros E. apply Hr. rewrite E. apply list_elem_of_fmap. exists r'.
        split; [reflexivity|]. apply list_elem_of_In. exact Hin. }
    cbn [Rename.newID Rename.written] in Hid, Hw.
    split; [exact Hid|]. rewrite Hw. cbn [map].
    rewrite append_assoc. f_equal.
    destruct rs as [|r2 rs]; [cbn; rewrite append_nil_r; reflexivity|reflexivity].
Qed.

(** X22. A file in which no ID occurs twice is not copied as it is:
    [newID] is never set, and every record is written under the empty
    ID. *)
Theorem rename_without_duplicates_blanks_ids (out : string)
    (rs : list Rename.FastxRecord) :
  NoDup (map Rename.ID rs) ->
  Rename.rename_chunks WrapByteSlice lineWidth (Rename.mkFileState ∅ "" out) [Ok rs]
  = (Ok tt, fold_left step rs (Rename.mkFileState ∅ "" out)) /\
  Rename.written (fold_left step rs (Rename.mkFileState ∅ "" out))
  = out +:+ String.concat "" (map (text "") rs).
Proof.
  intros Hnd. split; [reflexivity|].
  destruct (no_duplicates_fold rs (Rename.mkFileState ∅ "" out) Hnd) as [_ Hw].
  - intros r _. apply lookup_empty.
  - exact Hw.
Qed.

Lemma rename_chunks_flat (chunks : list (list Rename.FastxRecord)) : forall st,
  Rename.rename_chunks WrapByteSlice lineWidth st (map Ok chunks)
  = (Ok tt, fold_left step (concat chunks) st).
Proof.
  induction chunks as [|c chunks IH]; intros st; [reflexivity|].
  cbn [map Rename.rename_chunks concat]. rewrite IH, fold_left_app. reflexivity.
Qed.

(** X23. How a file comes in chunks does not show in the output: the
    counters and [newID] run on across chunk boundaries.  They start
    afresh with every file, so the same ID in two files is no duplicate,
    and a chunk that carries an error stops the command with the output
    of the chunks before it already written. *)
Theorem rename_chunks_do_not_show (out : string)
    (chunks : list (list Rename.FastxRecord))
    (rest : list (Outcome (list (Outcome (list Rename.FastxRecord))))) :
  let st := fold_left step (concat chunks) (Rename.mkFileState ∅ "" out) in
  Rename.rename_files WrapByteSlice lineWidth out (Ok (map Ok chunks) :: rest)
  = Rename.rename_files WrapByteSlice lineWidth (Rename.written st) rest /\
  forall msg more,
    Rename.rename_files WrapByteSlice lineWidth out
      (Ok (map Ok chunks ++ Abort msg :: more) :: rest)
    = (Abort msg, Rename.written st).
Proof.
  cbn zeta. split.
  - cbn [Rename.rename_files]. rewrite rename_chunks_flat. reflexivity.
  - intros msg more. cbn [Rename.rename_files].
    assert (H : forall st,
              Rename.rename_chunks WrapByteSlice lineWidth st
                (map Ok chunks ++ Abort msg :: more)
              = (Abort msg, fold_left step (concat chunks) st)).
    { induction chunks as [|c chunks IH]; intros st; [reflexivity|].
      cbn [map app Rename.rename_chunks concat]. rewrite IH, fold_left_app. reflexivity. }
    rewrite H. reflexivity.
Qed.
End RenameFacts.


Lemma rename_counts_every_id_witness :
  Rename.numbers (fold_left (Rename.rename_record (fun s _ => s) 60) [fa_a1; fa_b; fa_a2]
                            (Rename.mkFileState ∅ "" "")) !! "a" = Some 2 /\
  Rename.occurrences "a" [fa_a1; fa_b; fa_a2] = 2%nat.
Proof.
  destruct (rename_counts_every_id (fun s _ => s) 60 "" [fa_a1; fa_b; fa_a2] "a")
    as [_ Hn]; [vm_compute; discriminate|].
  destruct (Hn 2) as [Hocc _]; [vm_compute; reflexivity|].
  split; [vm_compute; reflexivity|]. apply Nat2Z.inj. symmetry. exact Hocc.
Defined.

Lemma rename_label_of_record_witness :
  Rename.newID (Rename.rename_record (fun s _ => s) 60
                  (fold_left (Rename.rename_record (fun s _ => s) 60) [fa_a1; fa_b]
                             (Rename.mkFileState ∅ "" "")) fa_a2)
  = "a_2".
Proof.
  destruct (rename_label_of_record (fun s _ => s) 60 "" [fa_a1; fa_b] fa_a2) as [Hid _].
  - vm_compute. reflexivity.
  - rewrite Hid. vm_compute. reflexivity.
Defined.

Lemma rename_without_duplicates_blanks_ids_witness :
  Rename.written (fold_left (Rename.rename_record (fun s _ => s) 60) [fa_a1; fa_b]
                            (Rename.mkFileState ∅ "" ""))
  = ">" +:+ " a first" +:+ nl +:+ "ACGT" +:+ nl +:+ ">" +:+ " b only" +:+ nl +:+ "GG" +:+ nl.
Proof.
  destruct (rename_without_duplicates_blanks_ids (fun s _ => s) 60 "" [fa_a1; fa_b])
    as [_ Hw].
  - apply (bool_decide_unpack _). vm_compute. exact I.
  - rewrite Hw. vm_compute. reflexivity.
Defined.

(** The record after a duplicate inherits the duplicate's new ID. *)
Example rename_stale_id :
  snd (Rename.rename_files (fun s _ => s) 60 "" [Ok [Ok [fa_a1; fa_a2; fa_b]]])
  = ">" +:+ " a first" +:+ nl +:+ "ACGT" +:+ nl
    +:+ ">a_2 a second" +:+ nl +:+ "TT" +:+ nl
    +:+ ">a_2 b only" +:+ nl +:+ "GG" +:+ nl.
Proof. vm_compute. reflexivity. Qed.
